(** * IARA messaging core and retrieval engine

    A shallow embedding of the message broker
    ([infrastructure/messaging/message_broker.py]), the agent runtime
    ([core/agents/base_agent.py]), the orchestrator
    ([core/agents/orchestrator_agent.py]), the information-retrieval agent
    ([core/agents/information_retrieval_agent.py]), the vector store
    ([core/rag/retriever.py]) and the embedding generator
    ([core/document_processing/embeddings.py]), with the data classes of
    [schema.py].

    Python objects that are mutated in place (the broker tables, the agents'
    inboxes, the cells captured by response-handler closures, the logger) live
    in one explicit [World]; code that may raise is written in a state and
    exception monad over that world. *)

From Stdlib Require Floats.PrimFloat.
Import (notations) PrimFloat.
From stdpp Require Import gmap strings list pretty sorting.

#[local] Set Warnings "-register-all".

Open Scope string_scope.
Open Scope list_scope.
Open Scope Z_scope.

(** ** Python dictionaries

    A [dict] keeps its keys in insertion order, and the code iterates over
    [keys()] and [items()]: a dictionary is an association list in which
    assignment to a present key keeps the key's position. *)

Module PyDict.

Section Ops.

Context {K V : Type} `{EqDecision K}.

(** [d.get(key)] *)
Fixpoint get (key : K) (d : list (K * V)) : option V :=
  match d with
  | [] => None
  | (k, v) :: rest => if decide (k = key) then Some v else get key rest
  end.

(** [key in d] *)
Definition mem (key : K) (d : list (K * V)) : bool :=
  match get key d with Some _ => true | None => false end.

(** [d[key] = v] *)
Fixpoint set (key : K) (v : V) (d : list (K * V)) : list (K * V) :=
  match d with
  | [] => [(key, v)]
  | (k, x) :: rest =>
      if decide (k = key) then (k, v) :: rest else (k, x) :: set key v rest
  end.

(** [del d[key]] *)
Fixpoint del (key : K) (d : list (K * V)) : list (K * V) :=
  match d with
  | [] => []
  | (k, x) :: rest =>
      if decide (k = key) then del key rest else (k, x) :: del key rest
  end.

(** [list(d.keys())] *)
Definition keys (d : list (K * V)) : list K := map fst d.

End Ops.

End PyDict.

(** ** schema.py *)

Module Schema.

Inductive AgentType :=
  | ORCHESTRATOR
  | LLM
  | DOCUMENT_PROCESSING
  | INFORMATION_RETRIEVAL
  | DIALOGUE
  | SECURITY.

Inductive MessageType := COMMAND | RESPONSE | ERROR | EVENT | DATA.

Inductive MessagePriority := LOW | MEDIUM | HIGH | CRITICAL.

#[global] Instance AgentType_eq_dec : EqDecision AgentType.
Proof. solve_decision. Defined.

#[global] Instance MessageType_eq_dec : EqDecision MessageType.
Proof. solve_decision. Defined.

#[global] Instance MessagePriority_eq_dec : EqDecision MessagePriority.
Proof. solve_decision. Defined.

Definition AgentType_code (a : AgentType) : nat :=
  match a with
  | ORCHESTRATOR => 0 | LLM => 1 | DOCUMENT_PROCESSING => 2
  | INFORMATION_RETRIEVAL => 3 | DIALOGUE => 4 | SECURITY => 5
  end%nat.

Definition AgentType_decode (n : nat) : AgentType :=
  match n with
  | 0 => ORCHESTRATOR | 1 => LLM | 2 => DOCUMENT_PROCESSING
  | 3 => INFORMATION_RETRIEVAL | 4 => DIALOGUE | _ => SECURITY
  end%nat.

#[global] Instance AgentType_countable : Countable AgentType.
Proof.
  apply (inj_countable' AgentType_code AgentType_decode).
  intros []; reflexivity.
Defined.

(** The members of [AgentType] are strings ([class AgentType(str, Enum)]). *)
Definition AgentType_value (a : AgentType) : string :=
  match a with
  | ORCHESTRATOR => "orchestrator"
  | LLM => "llm"
  | DOCUMENT_PROCESSING => "document_processing"
  | INFORMATION_RETRIEVAL => "information_retrieval"
  | DIALOGUE => "dialogue"
  | SECURITY => "security"
  end.

(** The name of a member of [AgentType]. *)
Definition AgentType_name (a : AgentType) : string :=
  match a with
  | ORCHESTRATOR => "ORCHESTRATOR"
  | LLM => "LLM"
  | DOCUMENT_PROCESSING => "DOCUMENT_PROCESSING"
  | INFORMATION_RETRIEVAL => "INFORMATION_RETRIEVAL"
  | DIALOGUE => "DIALOGUE"
  | SECURITY => "SECURITY"
  end.

(** How a member of [AgentType] prints inside an f-string: [format] of a
    member of an enumeration with a mixed-in type is [Enum.__str__] since
    Python 3.11, the class and the name of the member (earlier interpreters
    print the value). *)
Definition format_AgentType (a : AgentType) : string :=
  "AgentType." +:+ AgentType_name a.

Definition all_agent_types : list AgentType :=
  [ORCHESTRATOR; LLM; DOCUMENT_PROCESSING; INFORMATION_RETRIEVAL; DIALOGUE; SECURITY].

(** Validation of a field of type [AgentType] from a string value. *)
Definition AgentType_of_value (s : string) : option AgentType :=
  List.find (fun a => bool_decide (AgentType_value a = s)) all_agent_types.

(** [Dict[str, Any]]: the values a message payload carries.  Dictionaries keep
    their insertion order, so they are association lists. *)
Inductive Value :=
  | VNone
  | VBool (b : bool)
  | VInt (z : Z)
  | VStr (s : string)
  | VList (l : list Value)
  | VDict (d : list (string * Value)).

Definition Dict := list (string * Value).

(** Python truth value of a payload value ([if not x]). *)
Definition truthy (v : Value) : bool :=
  match v with
  | VNone => false
  | VBool b => b
  | VInt z => negb (z =? 0)
  | VStr s => negb (bool_decide (s = ""))
  | VList l => negb (bool_decide (length l = 0%nat))
  | VDict d => negb (bool_decide (length d = 0%nat))
  end.

(** Truth value of [d.get(key)], where a missing key gives [None]. *)
(** [d.get(key) == text] for a string literal [text]. *)
Definition is_str (o : option Value) (text : string) : bool :=
  match o with
  | Some (VStr s) => bool_decide (s = text)
  | _ => false
  end.

(** [str(v)] for the values that are not containers (the text of a
    container is not modelled and is left empty). *)
Definition format_scalar (v : Value) : string :=
  match v with
  | VNone => "None"
  | VBool true => "True"
  | VBool false => "False"
  | VInt z => pretty z
  | VStr s => s
  | VList _ | VDict _ => ""
  end.

(** Whether a value can be a dictionary key: lists and dictionaries make
    [hash] raise a [TypeError]. *)
Definition hashable (v : Value) : bool :=
  match v with
  | VList _ | VDict _ => false
  | _ => true
  end.

(** [type(v).__name__] *)
Definition type_name (v : Value) : string :=
  match v with
  | VNone => "NoneType"
  | VBool _ => "bool"
  | VInt _ => "int"
  | VStr _ => "str"
  | VList _ => "list"
  | VDict _ => "dict"
  end.

(** [str(e)] of the [TypeError] raised when a list or a dictionary is hashed,
    as a lookup in a dictionary does with its key. *)
Definition unhashable (v : Value) : string :=
  "unhashable type: '" +:+ type_name v +:+ "'".

Definition truthy_opt (o : option Value) : bool :=
  match o with Some v => truthy v | None => false end.

(** A reading of [datetime.now().timestamp()], a float, is represented by the
    decimal text Python prints for it, which identifies the float. *)
Definition Timestamp := string.

Record Message := {
  id : string;
  sender : AgentType;
  receiver : AgentType;
  message_type : MessageType;
  priority : MessagePriority;
  content : Dict;
  timestamp : Timestamp;
  correlation_id : option string;
  reply_to : option string
}.

(** [Message(sender=..., receiver=..., message_type=..., content=...,
    correlation_id=..., priority=...)]: [id] and [timestamp] are filled by
    their default factories from two readings of the clock, [id] first
    ([f"{datetime.now().timestamp()}"]). *)
Definition Message_init (now_id now_timestamp : Timestamp)
    (sender receiver : AgentType) (message_type : MessageType)
    (content : Dict) (correlation_id : option string)
    (priority : MessagePriority) : Message :=
  {| id := now_id;
     sender := sender;
     receiver := receiver;
     message_type := message_type;
     priority := priority;
     content := content;
     timestamp := now_timestamp;
     correlation_id := correlation_id;
     reply_to := None |}.

End Schema.

Export Schema.

(** ** The world: every object the threads share *)

(** An exception, by its text.  [Exception] is an instance of the class
    [Exception], which [except Exception] catches; [BaseException] is one
    that is not ([SystemExit], [KeyboardInterrupt], [GeneratorExit]), which
    [except Exception] lets through.  The text of the [TypeError] of hashing
    ([Schema.unhashable]) is its [str(e)]; the text of the other exceptions
    names their class and their cause. *)
Inductive Exn :=
  | Exception (text : string)
  | BaseException (text : string).

Coercion Exception : string >-> Exn.

(** The callables handed to the broker.  None of them reads or changes the
    tables of the broker. *)
Inductive Callback :=
  | receive_message (agent : AgentType)
      (** the bound method [BaseAgent.receive_message] of the agent of that type *)
  | response_handler (cell : nat)
      (** the closure made by a call of [send_message_and_wait]; [cell] names
          its [response_container] and [response_event] *)
  | foreign (raises : option string)
      (** any other callable: it returns, or raises an [Exception] *).

#[global] Instance Callback_eq_dec : EqDecision Callback.
Proof. solve_decision. Defined.

Inductive LogRecord :=
  | LogWarning (text : string)
  | LogError (text : string)
  | LogDebug (text : string)
  | LogInfo (text : string)
  | LogErrorFrom (sender : AgentType) (error : Value)
      (** [logger.error(f"Error from {message.sender}: {error}")] *)
  | LogStatusChange (agent : AgentType) (status : Value)
      (** [logger.info(f"Agent {agent_type} status changed to {status}")] *).

(** [MessageBroker]: the two tables guarded by [self.lock]. *)
Record MessageBroker := {
  subscribers : gmap AgentType (list Callback);
  response_handlers : gmap string Callback
}.

Record World := {
  message_broker : MessageBroker;
  inbox : gmap AgentType (list Message);
      (** [BaseAgent.inbox] of each agent, oldest message first *)
  cells : gmap nat (option Message * bool);
      (** [response_container["response"]] and whether [response_event] is set *)
  calls : list (Callback * Message);
      (** every invocation of a callback by the broker, oldest first *)
  published : list Message;
      (** every message handed to [MessageBroker.publish], oldest first *)
  log : list LogRecord;
  clock : nat -> Timestamp;
      (** the successive readings of [datetime.now()] *)
  ticks : nat
      (** how many readings were taken *)
}.

Definition set_broker (b : MessageBroker) (w : World) : World :=
  {| message_broker := b; inbox := inbox w; cells := cells w; calls := calls w;
     published := published w; log := log w; clock := clock w; ticks := ticks w |}.

Definition set_inbox (i : gmap AgentType (list Message)) (w : World) : World :=
  {| message_broker := message_broker w; inbox := i; cells := cells w;
     calls := calls w; published := published w; log := log w;
     clock := clock w; ticks := ticks w |}.

Definition set_cells (c : gmap nat (option Message * bool)) (w : World) : World :=
  {| message_broker := message_broker w; inbox := inbox w; cells := c;
     calls := calls w; published := published w; log := log w;
     clock := clock w; ticks := ticks w |}.

Definition add_call (cb : Callback) (m : Message) (w : World) : World :=
  {| message_broker := message_broker w; inbox := inbox w; cells := cells w;
     calls := calls w ++ [(cb, m)]; published := published w; log := log w;
     clock := clock w; ticks := ticks w |}.

Definition add_published (m : Message) (w : World) : World :=
  {| message_broker := message_broker w; inbox := inbox w; cells := cells w;
     calls := calls w; published := published w ++ [m]; log := log w;
     clock := clock w; ticks := ticks w |}.

Definition add_log (r : LogRecord) (w : World) : World :=
  {| message_broker := message_broker w; inbox := inbox w; cells := cells w;
     calls := calls w; published := published w; log := log w ++ [r];
     clock := clock w; ticks := ticks w |}.

Definition tick (w : World) : World :=
  {| message_broker := message_broker w; inbox := inbox w; cells := cells w;
     calls := calls w; published := published w; log := log w;
     clock := clock w; ticks := S (ticks w) |}.

(** ** State and exception monad *)

Inductive Res (A : Type) :=
  | Ok (a : A)
  | Raise (e : Exn).

Arguments Ok {A} a.
Arguments Raise {A} e.

(** A computation over the mutable state [S]: it returns or raises, and the
    mutations made before an exception stay. *)
Definition St (S A : Type) : Type := S -> Res A * S.

Definition M (A : Type) : Type := St World A.

Definition ret {S A} (a : A) : St S A := fun w => (Ok a, w).

Definition bind {S A B} (c : St S A) (k : A -> St S B) : St S B :=
  fun w => match c w with
           | (Ok a, w') => k a w'
           | (Raise e, w') => (Raise e, w')
           end.

Definition raise {S A} (e : Exn) : St S A := fun w => (Raise e, w).

Definition modify {S} (f : S -> S) : St S unit := fun w => (Ok tt, f w).

Definition gets {S A} (f : S -> A) : St S A := fun w => (Ok (f w), w).

(** [try: body  except Exception as e: handler(str(e))] *)
Definition try_except {S A} (body : St S A) (handler : string -> St S A) : St S A :=
  fun w => match body w with
           | (Ok a, w') => (Ok a, w')
           | (Raise (Exception text), w') => handler text w'
           | (Raise e, w') => (Raise e, w')
           end.

(** [try: body  finally: cleanup]; an exception of [cleanup] replaces the
    outcome of [body]. *)
Definition try_finally {S A} (body : St S A) (cleanup : St S unit) : St S A :=
  fun w => match body w with
           | (r, w') => match cleanup w' with
                        | (Ok _, w'') => (r, w'')
                        | (Raise e, w'') => (Raise e, w'')
                        end
           end.

Declare Scope world_scope.
Delimit Scope world_scope with world.
Notation "'do' x <- c ; k" := (bind c (fun x => k))
  (at level 10, x name, c at level 100, k at level 200) : world_scope.
Notation "'do_' c ; k" := (bind c (fun _ => k))
  (at level 10, c at level 100, k at level 200) : world_scope.
Open Scope world_scope.

(** [datetime.now()] *)
Definition now : M Timestamp :=
  fun w => (Ok (clock w (ticks w)), tick w).

(** The [Message] constructor with both default factories running. *)
Definition new_Message (sender receiver : AgentType) (message_type : MessageType)
    (content : Dict) (correlation_id : option string)
    (priority : MessagePriority) : M Message :=
  do t_id <- now;
  do t_ts <- now;
  ret (Message_init t_id t_ts sender receiver message_type content
         correlation_id priority).

(** ** infrastructure/messaging/message_broker.py *)

Module Broker.

Definition subscribe (agent_type : AgentType) (callback : Callback) : M unit :=
  modify (fun w =>
    let b := message_broker w in
    let current := default [] (subscribers b !! agent_type) in
    add_log (LogDebug ("Agent " +:+ format_AgentType agent_type
                         +:+ " subscribed to messages"))
      (set_broker {| subscribers := <[agent_type := current ++ [callback]]> (subscribers b);
                     response_handlers := response_handlers b |} w)).

Definition unsubscribe (agent_type : AgentType) (callback : option Callback) : M unit :=
  modify (fun w =>
    let b := message_broker w in
    match subscribers b !! agent_type with
    | None => w
    | Some current =>
        let kept :=
          match callback with
          | Some cb => List.filter (fun c => negb (bool_decide (c = cb))) current
          | None => []
          end in
        add_log (LogDebug ("Agent " +:+ format_AgentType agent_type
                           +:+ " unsubscribed from messages"))
          (set_broker {| subscribers := <[agent_type := kept]> (subscribers b);
                         response_handlers := response_handlers b |} w)
    end).

Definition register_response_handler (correlation_id : string) (handler : Callback) : M unit :=
  modify (fun w =>
    let b := message_broker w in
    set_broker {| subscribers := subscribers b;
                  response_handlers := <[correlation_id := handler]> (response_handlers b) |} w).

Definition unregister_response_handler (correlation_id : string) : M unit :=
  modify (fun w =>
    let b := message_broker w in
    set_broker {| subscribers := subscribers b;
                  response_handlers := delete correlation_id (response_handlers b) |} w).

(** Invoking a callback on a message. *)
Definition call (cb : Callback) (message : Message) : M unit :=
  do_ modify (add_call cb message);
  match cb with
  | receive_message agent =>
      (* self.inbox.put(message) *)
      modify (fun w =>
        set_inbox (<[agent := default [] (inbox w !! agent) ++ [message]]> (inbox w)) w)
  | response_handler cell =>
      (* response_container["response"] = response; response_event.set() *)
      modify (fun w => set_cells (<[cell := (Some message, true)]> (cells w)) w)
  | foreign None => ret tt
  | foreign (Some e) => raise e
  end.

(** The delivery loop of [publish]: each callback runs inside its own
    [try ... except Exception]. *)
Fixpoint deliver (subs : list Callback) (message : Message) : M unit :=
  match subs with
  | [] => ret tt
  | callback :: rest =>
      do_ try_except (call callback message)
            (fun e => modify (add_log
               (LogError ("Error delivering message to subscriber: " +:+ e))));
      deliver rest message
  end.

(** The handler [publish] routes the message to, if any: the message is a
    RESPONSE or an ERROR, its [correlation_id] is truthy (neither [None] nor
    the empty string), and a handler is registered under it. *)
Definition routed_handler (b : MessageBroker) (message : Message) : option Callback :=
  if bool_decide (message_type message = RESPONSE)
     || bool_decide (message_type message = ERROR)
  then match correlation_id message with
       | Some cid =>
           if bool_decide (cid = "") then None else response_handlers b !! cid
       | None => None
       end
  else None.

Definition publish (message : Message) : M unit :=
  do_ modify (add_published message);
  do b <- gets message_broker;
  match routed_handler b message with
  | Some handler => call handler message
  | None =>
      let subs := default [] (subscribers b !! receiver message) in
      match subs with
      | [] => modify (add_log (LogWarning
                ("No subscribers for agent " +:+ format_AgentType (receiver message))))
      | _ => deliver subs message
      end
  end.

End Broker.

(** ** core/agents/base_agent.py *)

Module BaseAgent.

Section Agent.

(** [self.agent_type] *)
Variable agent_type : AgentType.

Definition send_message (message : Message) : M string :=
  do_ Broker.publish message;
  ret (id message).

Definition send_response (original_message : Message) (content : Dict) : M string :=
  do response <- new_Message agent_type (sender original_message) RESPONSE
                   content (Some (id original_message)) MEDIUM;
  send_message response.

Definition send_error (receiver : AgentType) (error : string)
    (correlation_id : option string) : M string :=
  do error_message <- new_Message agent_type receiver ERROR
                        [("error", VStr error)] correlation_id MEDIUM;
  send_message error_message.

(** [response_event = threading.Event(); response_container = {"response": None}] *)
Definition new_cell : M nat :=
  fun w =>
    let cell := fresh (dom (cells w)) in
    (Ok cell, set_cells (<[cell := (None, false)]> (cells w)) w).

Definition event_is_set (cell : nat) (w : World) : bool :=
  match cells w !! cell with Some (_, flag) => flag | None => false end.

Definition container_response (cell : nat) (w : World) : option Message :=
  match cells w !! cell with Some (r, _) => r | None => None end.

(** What another thread does is a step on the world; an exception it raises
    stays in that thread. *)
Definition in_other_thread (step : M unit) : M unit :=
  fun w => (Ok tt, snd (step w)).

(** [response_event.wait(timeout=timeout)].  The calling thread is suspended
    while other threads run; [others] lists the steps they complete before the
    timeout elapses.  The wait ends as soon as the event is set, and with
    [False] when the steps are exhausted first. *)
Fixpoint wait (cell : nat) (others : list (M unit)) : M bool :=
  do is_set <- gets (event_is_set cell);
  if is_set : bool then ret true
  else match others with
       | [] => ret false
       | step :: rest => do_ in_other_thread step; wait cell rest
       end.

Definition send_message_and_wait (message : Message) (others : list (M unit))
    : M (option Message) :=
  do cell <- new_cell;
  do_ Broker.register_response_handler (id message) (response_handler cell);
  try_finally
    (do_ send_message message;
     do arrived <- wait cell others;
     if arrived : bool then gets (container_response cell)
     else
       do_ modify (add_log (LogWarning
             ("Timeout waiting for response to message " +:+ id message)));
       ret None)
    (Broker.unregister_response_handler (id message)).

(** [self.inbox.get(timeout=0.1)]: [None] stands for [queue.Empty]. *)
Definition inbox_get : M (option Message) :=
  fun w =>
    match inbox w !! agent_type with
    | Some (message :: rest) =>
        (Ok (Some message), set_inbox (<[agent_type := rest]> (inbox w)) w)
    | _ => (Ok None, w)
    end.

(** [handle_message] is abstract in [BaseAgent]. *)
Variable handle_message : Message -> M unit.

(** The turn of the loop on a dequeued message, inside the outer [try]. *)
Definition process_message (message : Message) : M unit :=
  do_ modify (add_log (LogDebug
        ("Processing message: " +:+ id message +:+ " from "
           +:+ format_AgentType (sender message))));
  do_ try_except (handle_message message)
        (fun e =>
           do_ modify (add_log (LogError
                 ("Error handling message " +:+ id message +:+ ": " +:+ e)));
           if bool_decide (message_type message = COMMAND)
           then do_ send_error (sender message)
                      ("Error processing command: " +:+ e) (Some (id message));
                ret tt
           else ret tt);
  (* self.inbox.task_done() *)
  ret tt.

(** One turn of [while self.running] in [process_messages]. *)
Definition process_one : M unit :=
  do got <- inbox_get;
  match got with
  | None => ret tt                        (* except Empty: pass *)
  | Some message =>
      try_except (process_message message)
        (fun e => modify (add_log (LogError
                    ("Error in message processing loop: " +:+ e))))
  end.

(** [process_messages], for the [turns] turns the loop makes while
    [self.running] stays true. *)
Fixpoint process_messages (turns : nat) : M unit :=
  match turns with
  | O => ret tt
  | S n => do_ process_one; process_messages n
  end.

End Agent.

End BaseAgent.

(** ** core/agents/orchestrator_agent.py *)

Module OrchestratorAgent.

(** An entry of [self.registered_agents] (the reference to the agent object
    itself is never read). *)
Record Registration := {
  status : Value;
  capabilities : list Value
}.

Definition Registry := list (AgentType * Registration).

(** [register_agent(agent)], by the type of the agent. *)
Definition register_agent (agent : AgentType) (registered_agents : Registry) : Registry :=
  PyDict.set agent {| status := VStr "active"; capabilities := [] |} registered_agents.

Definition unregister_agent (agent_type : AgentType) (registered_agents : Registry) : Registry :=
  if PyDict.mem agent_type registered_agents
  then PyDict.del agent_type registered_agents
  else registered_agents.

(** [value in self.registered_agents] for a value of a payload: the keys are
    members of the string enumeration, so a string is found by its value. *)
Definition registered_key (v : Value) (registered_agents : Registry) : option AgentType :=
  match v with
  | VStr s =>
      match AgentType_of_value s with
      | Some a => if PyDict.mem a registered_agents then Some a else None
      | None => None
      end
  | _ => None
  end.

Section Orchestrator.

(** [self.agent_type] *)
Variable agent_type : AgentType.

Abbreviation send_message := (BaseAgent.send_message).
Abbreviation send_response := (BaseAgent.send_response agent_type).
Abbreviation send_error := (BaseAgent.send_error agent_type).

Definition _dispatch_command (registered_agents : Registry) (message : Message) : M unit :=
  (* action = message.content.get("action", "") *)
  match
    match PyDict.get "action" (content message) with
    | None => Some ""
    | Some (VStr s) => Some s
    | Some _ => None
    end
  with
  | None => raise "AttributeError: object has no attribute 'startswith'"
  | Some action =>
      let target :=
        if String.prefix "process_document" action || String.prefix "get_document" action
        then Some DOCUMENT_PROCESSING
        else if String.prefix "retrieve_" action || String.prefix "search_" action
        then Some INFORMATION_RETRIEVAL
        else if String.prefix "generate_" action || String.prefix "translate_" action
        then Some LLM
        else if String.prefix "auth_" action || String.prefix "login_" action
        then Some SECURITY
        else if String.prefix "chat_" action || String.prefix "process_user_message" action
        then Some DIALOGUE
        else None in
      match target with
      | None =>
          do_ send_error (sender message)
                ("Unknown action: " +:+ action
                   +:+ ". Don't know which agent should handle it.")
                (Some (id message));
          ret tt
      | Some target_agent =>
          if negb (PyDict.mem target_agent registered_agents)
          then
            do_ send_error (sender message)
                  ("Agent " +:+ format_AgentType target_agent
                     +:+ " not available to handle action " +:+ action)
                  (Some (id message));
            ret tt
          else
            do forwarded_message <-
              new_Message agent_type target_agent COMMAND (content message)
                (Some (id message)) (priority message);
            do_ send_message forwarded_message;
            ret tt
      end
  end.

Definition _handle_command (registered_agents : Registry) (message : Message) : M unit :=
  let action := PyDict.get "action" (content message) in
  if is_str action "ping" then
    do_ send_response message
          [("status", VStr "ok"); ("agent", VStr (AgentType_value agent_type))];
    ret tt
  else if is_str action "get_agent_status" then
    match PyDict.get "agent_type" (content message) with
    | Some requested =>
        if truthy requested then
          if hashable requested then
            match registered_key requested registered_agents with
            | Some a =>
                let st := match PyDict.get a registered_agents with
                          | Some info => status info
                          | None => VNone
                          end in
                do_ send_response message [("agent", requested); ("status", st)];
                ret tt
            | None =>
                do_ send_error (sender message)
                      ("Agent " +:+ format_scalar requested +:+ " not found")
                      (Some (id message));
                ret tt
            end
          else raise (unhashable requested)
        else
          do_ send_response message
                [("agents", VDict (map (fun '(a, info) => (AgentType_value a, status info))
                                     registered_agents))];
          ret tt
    | None =>
        do_ send_response message
              [("agents", VDict (map (fun '(a, info) => (AgentType_value a, status info))
                                   registered_agents))];
        ret tt
    end
  else if is_str action "route" then
    let target_agent := PyDict.get "target_agent" (content message) in
    if negb (truthy_opt target_agent) then
      do_ send_error (sender message) "Missing target_agent in route command"
            (Some (id message));
      ret tt
    else
      let payload := PyDict.get "payload" (content message) in
      if negb (truthy_opt payload) then
        do_ send_error (sender message) "Missing payload in route command"
              (Some (id message));
        ret tt
      else
        (* Message(...) validates receiver as an AgentType and content as a dict *)
        match target_agent, payload with
        | Some (VStr target), Some (VDict routed_content) =>
            match AgentType_of_value target with
            | Some target_type =>
                do routed_message <-
                  new_Message (sender message) target_type COMMAND routed_content
                    (Some (id message)) MEDIUM;
                do_ send_message routed_message;
                ret tt
            | None => do_ now; do_ now; raise "ValidationError: receiver"
            end
        | _, _ => do_ now; do_ now; raise "ValidationError"
        end
  else _dispatch_command registered_agents message.

Definition _handle_error (message : Message) : M unit :=
  let error := default (VStr "Unknown error") (PyDict.get "error" (content message)) in
  modify (add_log (LogErrorFrom (sender message) error)).

Definition _handle_event (registered_agents : Registry) (message : Message) : M Registry :=
  if is_str (PyDict.get "event_type" (content message)) "agent_status_change" then
    let requested := PyDict.get "agent_type" (content message) in
    let new_status := PyDict.get "status" (content message) in
    match requested, new_status with
    | Some r, Some s =>
        if truthy r && truthy s then
          if hashable r then
            match registered_key r registered_agents with
            | Some a =>
                let info := match PyDict.get a registered_agents with
                            | Some info => info
                            | None => {| status := VNone; capabilities := [] |}
                            end in
                do_ modify (add_log (LogStatusChange a s));
                ret (PyDict.set a {| status := s; capabilities := capabilities info |}
                       registered_agents)
            | None => ret registered_agents
            end
          else raise (unhashable r)
        else ret registered_agents
    | _, _ => ret registered_agents
    end
  else ret registered_agents.

Definition handle_message (registered_agents : Registry) (message : Message) : M Registry :=
  match message_type message with
  | COMMAND => do_ _handle_command registered_agents message; ret registered_agents
  | RESPONSE => ret registered_agents    (* "Just relay responses to the right agent": pass *)
  | ERROR => do_ _handle_error message; ret registered_agents
  | EVENT => _handle_event registered_agents message
  | DATA => ret registered_agents
  end.

End Orchestrator.

End OrchestratorAgent.

(** ** core/rag/retriever.py *)

(** What the retrieval engine takes from outside: the floating-point numbers
    of numpy with the operations [_cosine_similarity] and the sort use, and
    the vector the embedding generator answers a text with.  The generator
    itself, with the remote service behind it, is [EmbeddingGenerator] below;
    [generate_embedding] stands for its answer in the statements about one
    call of [retrieve], and [Retriever.retrieve_call] asks the generator at
    each call. *)
Class External := {
  Num : Type;
  zero : Num;                             (** [0.0] *)
  dot : list Num -> list Num -> Num;      (** [np.dot] on vectors of one length *)
  norm : list Num -> Num;                 (** [np.linalg.norm] *)
  mul : Num -> Num -> Num;
  div : Num -> Num -> Num;
  eqb : Num -> Num -> bool;               (** [==] *)
  ltb : Num -> Num -> bool;               (** [<] *)
  generate_embedding : string -> list Num
      (** [self.embedding_generator.generate_embeddings([query])[0]] *)
}.

(** ** core/document_processing/embeddings.py *)

Module EmbeddingGenerator.

Record EmbeddingGenerator := {
  model_name : string;
  openai_api_key : option string;
  use_mock : bool
}.

(** [EmbeddingGenerator(model_name)], where [api_key] is what
    [os.environ.get("OPENAI_API_KEY")] gives (a warning is logged when the
    mock is chosen). *)
Definition init (model_name : string) (api_key : option string) : EmbeddingGenerator :=
  {| model_name := model_name;
     openai_api_key := api_key;
     use_mock :=
       bool_decide (model_name = "openai")
       && negb match api_key with
               | Some key => negb (bool_decide (key = ""))
               | None => false
               end |}.

Section Generator.

Context `{External}.

(** The state of what lies behind the client of the remote service. *)
Context {Remote : Type}.

(** [np.random.seed(seed); np.random.normal(0, 1, 1536).tolist()] followed
    by the division of every component by the magnitude: what numpy's
    generator gives from a seed. *)
Variable mock_vector : Z -> list Num.

(** [from openai import OpenAI; client = OpenAI(api_key=...)]: raises when
    the package is missing or the client cannot be built. *)
Variable client : St Remote unit.

(** [client.embeddings.create(input=batch, model="text-embedding-3-small")]
    with [[item.embedding for item in response.data]]: the service answers
    with what it chooses, or the request raises. *)
Variable create : list string -> St Remote (list (list Num)).

(** [sum(ord(c) for c in text)], for a text of ASCII characters. *)
Definition seed (text : string) : Z :=
  foldr (fun c n => Z.of_nat (Ascii.nat_of_ascii c) + n) 0
    (String.list_ascii_of_string text).

(** [np.random.seed] rejects a seed of more than 32 bits. *)
Fixpoint _generate_mock_embeddings (texts : list string) : Res (list (list Num)) :=
  match texts with
  | [] => Ok []
  | text :: rest =>
      if bool_decide (seed text < 2 ^ 32) then
        match _generate_mock_embeddings rest with
        | Ok embeddings => Ok (mock_vector (seed text) :: embeddings)
        | Raise e => Raise e
        end
      else Raise "ValueError: Seed must be between 0 and 2**32 - 1"
  end.

(** The loop [for i in range(0, len(texts), batch_size)] with
    [batch_size = 10]; it makes at most [len(texts)] turns. *)
Fixpoint create_batches (turns : nat) (texts : list string)
    : St Remote (list (list Num)) :=
  match texts, turns with
  | [], _ | _, O => ret []
  | _, S turns' =>
      do batch_embeddings <- create (take 10 texts);
      do more <- create_batches turns' (drop 10 texts);
      ret (batch_embeddings ++ more)
  end.

(** On any [Exception] of the request the error is logged and the mock
    embeddings are returned. *)
Definition _generate_openai_embeddings (texts : list string)
    : St Remote (list (list Num)) :=
  try_except
    (do_ client; create_batches (length texts) texts)
    (fun e s => (_generate_mock_embeddings texts, s)).

Definition generate_embeddings (self : EmbeddingGenerator) (texts : list string)
    : St Remote (list (list Num)) :=
  if use_mock self || bool_decide (model_name self = "mock")
  then fun s => (_generate_mock_embeddings texts, s)
  else if bool_decide (model_name self = "openai")
  then _generate_openai_embeddings texts
  else fun s => (_generate_mock_embeddings texts, s)   (* a warning is logged *).

End Generator.

End EmbeddingGenerator.

(** ** The numbers of numpy: binary64 *)

Module Binary64.

Import PrimFloat.

(** [np.dot] on two vectors of one length: the products are added in the
    order of the indices, starting from [0.0], each product and each sum
    rounded to binary64.  (The kernel behind [np.dot] may add the products of
    a long vector in another order; on two components there is one sum.) *)
Definition dot (u v : list float) : float :=
  fold_left (fun acc xy => (acc + fst xy * snd xy)%float) (combine u v) 0%float.

(** [np.linalg.norm] of a vector: [sqrt(x.dot(x))]. *)
Definition norm (v : list float) : float := sqrt (dot v v).

(** The numbers of Python and numpy, with any generator. *)
Definition numbers (generate_embedding : string -> list float) : External :=
  Build_External float 0%float dot norm PrimFloat.mul PrimFloat.div
    PrimFloat.eqb PrimFloat.ltb generate_embedding.

(** [[0.0] * n] *)
Definition zeros (n : nat) : list float := repeat 0%float n.

(** [[2.0 ** -600, 2.0 ** -600]]: the squares of its components are below
    the least positive binary64 number. *)
Definition underflowing : list float := [0x1p-600%float; 0x1p-600%float].

(** [[2.0 ** 600, 2.0 ** 600]]: the squares of its components are above the
    greatest finite binary64 number. *)
Definition overflowing : list float := [0x1p600%float; 0x1p600%float].

Definition three_four : list float := [3%float; 4%float].

Definition one_two_three : list float := [1%float; 2%float; 3%float].

End Binary64.

Module Retriever.

Section Retriever.

Context `{External}.

(** [schema.DocumentChunk] *)
Record DocumentChunk := {
  chunk_id : string;
  document_id : string;
  content : string;
  metadata : Dict;
  embedding : option (list Num);
  page_number : option Z;
  chunk_number : Z
}.

(** An entry of the list [retrieve] returns. *)
Record Result := {
  result_document_id : string;
  result_chunk_id : string;
  result_content : string;
  result_metadata : Dict;
  score : Num
}.

Record VectorRetriever := {
  documents : list (string * list DocumentChunk);
  vectors : list (string * list (string * list Num))
}.

(** [VectorRetriever()] *)
Definition init : VectorRetriever := {| documents := []; vectors := [] |}.

(** [if chunk.embedding]: neither [None] nor the empty list. *)
Definition has_embedding (chunk : DocumentChunk) : bool :=
  match embedding chunk with
  | Some (_ :: _) => true
  | _ => false
  end.

(** The first loop of [add_documents]: [doc_chunks[chunk.document_id].append(chunk)]
    on a [defaultdict(list)]. *)
Definition group_chunk (doc_chunks : list (string * list DocumentChunk))
    (chunk : DocumentChunk) : list (string * list DocumentChunk) :=
  PyDict.set (document_id chunk)
    (default [] (PyDict.get (document_id chunk) doc_chunks) ++ [chunk])
    doc_chunks.

Definition group_by_document (chunks : list DocumentChunk)
    : list (string * list DocumentChunk) :=
  fold_left group_chunk chunks [].

(** The body of the loop over [doc_chunks_list]; [self.vectors] is a
    [defaultdict(dict)]. *)
Definition store_vector (doc_id : string)
    (vs : list (string * list (string * list Num))) (chunk : DocumentChunk)
    : list (string * list (string * list Num)) :=
  match embedding chunk with
  | Some (x :: v) =>
      PyDict.set doc_id
        (PyDict.set (chunk_id chunk) (x :: v) (default [] (PyDict.get doc_id vs)))
        vs
  | _ => vs                              (* a warning is logged *)
  end.

Definition add_group (self : VectorRetriever)
    (group : string * list DocumentChunk) : VectorRetriever :=
  let '(doc_id, doc_chunks_list) := group in
  {| documents :=
       PyDict.set doc_id
         (default [] (PyDict.get doc_id (documents self)) ++ doc_chunks_list)
         (documents self);
     vectors := fold_left (store_vector doc_id) doc_chunks_list (vectors self) |}.

Definition add_documents (self : VectorRetriever) (chunks : list DocumentChunk)
    : VectorRetriever :=
  fold_left add_group (group_by_document chunks) self.

Definition remove_document (self : VectorRetriever) (document_id : string)
    : Z * VectorRetriever :=
  let num_chunks :=
    Z.of_nat (length (default [] (PyDict.get document_id (documents self)))) in
  let documents' :=
    if PyDict.mem document_id (documents self)
    then PyDict.del document_id (documents self) else documents self in
  let vectors' :=
    if PyDict.mem document_id (vectors self)
    then PyDict.del document_id (vectors self) else vectors self in
  (num_chunks, {| documents := documents'; vectors := vectors' |}).

(** [[doc_id for doc_id in doc_ids if doc_id in self.documents]]: the keys are
    strings, a list or a dictionary cannot be looked up. *)
Fixpoint existing_ids (self : VectorRetriever) (doc_ids : list Value)
    : Res (list string) :=
  match doc_ids with
  | [] => Ok []
  | v :: rest =>
      if hashable v then
        match existing_ids self rest with
        | Raise e => Raise e
        | Ok ids =>
            match v with
            | VStr doc_id =>
                if PyDict.mem doc_id (documents self)
                then Ok (doc_id :: ids) else Ok ids
            | _ => Ok ids
            end
        end
      else Raise (unhashable v)
  end.

Definition _filter_document_ids (self : VectorRetriever) (filters : option Dict)
    : Res (list string) :=
  match filters with
  | None | Some [] => Ok (PyDict.keys (documents self))
  | Some filters =>
      match PyDict.get "document_id" filters with
      | Some doc_ids =>
          existing_ids self
            match doc_ids with
            | VList l => l
            | _ => [doc_ids]
            end
      | None => Ok (PyDict.keys (documents self))
      end
  end.

Definition _cosine_similarity (vec1 vec2 : list Num) : Res Num :=
  if bool_decide (length vec1 = length vec2) then
    let dot_product := dot vec1 vec2 in
    let magnitude1 := norm vec1 in
    let magnitude2 := norm vec2 in
    if eqb magnitude1 zero || eqb magnitude2 zero then Ok zero
    else Ok (div dot_product (mul magnitude1 magnitude2))
  else Raise "ValueError: shapes not aligned".

(** [{chunk.chunk_id: chunk for chunk in ...}] *)
Definition chunks_by_id (chunks : list DocumentChunk) : list (string * DocumentChunk) :=
  fold_left (fun d chunk => PyDict.set (chunk_id chunk) chunk d) chunks [].

(** The loop over [doc_vectors.items()], giving the entries it appends. *)
Fixpoint scan_vectors (query_embedding : list Num) (doc_id : string)
    (doc_chunks : list (string * DocumentChunk))
    (doc_vectors : list (string * list Num)) : Res (list Result) :=
  match doc_vectors with
  | [] => Ok []
  | (cid, emb) :: rest =>
      match PyDict.get cid doc_chunks with
      | None => scan_vectors query_embedding doc_id doc_chunks rest
      | Some chunk =>
          match _cosine_similarity query_embedding emb with
          | Raise e => Raise e
          | Ok s =>
              match scan_vectors query_embedding doc_id doc_chunks rest with
              | Raise e => Raise e
              | Ok found =>
                  Ok ({| result_document_id := doc_id;
                         result_chunk_id := cid;
                         result_content := content chunk;
                         result_metadata := metadata chunk;
                         score := s |} :: found)
              end
          end
      end
  end.

(** The loop over [document_ids], giving [all_results] before the sort. *)
Fixpoint scan_documents (self : VectorRetriever) (query_embedding : list Num)
    (document_ids : list string) : Res (list Result) :=
  match document_ids with
  | [] => Ok []
  | doc_id :: rest =>
      let doc_vectors := default [] (PyDict.get doc_id (vectors self)) in
      let doc_chunks :=
        chunks_by_id (default [] (PyDict.get doc_id (documents self))) in
      match scan_vectors query_embedding doc_id doc_chunks doc_vectors with
      | Raise e => Raise e
      | Ok found =>
          match scan_documents self query_embedding rest with
          | Raise e => Raise e
          | Ok more => Ok (found ++ more)
          end
      end
  end.

(** [all_results.sort(key=lambda x: x["score"], reverse=True)]: the stable
    sort of Python, keys compared with [<], largest first. *)
Fixpoint insert_by_score (r : Result) (sorted : list Result) : list Result :=
  match sorted with
  | [] => [r]
  | x :: rest =>
      if ltb (score r) (score x) then x :: insert_by_score r rest
      else r :: x :: rest
  end.

Definition sort_by_score (all_results : list Result) : list Result :=
  foldr insert_by_score [] all_results.

(** [l[:k]] *)
Definition slice_to {A} (k : Z) (l : list A) : list A :=
  if 0 <=? k then take (Z.to_nat k) l
  else take (Z.to_nat (Z.of_nat (length l) + k)) l.

(** [retrieve] from the statement after the query embedding was obtained. *)
Definition retrieve_from (self : VectorRetriever) (query_embedding : list Num)
    (filters : option Dict) (k : Z) : Res (list Result) :=
  match _filter_document_ids self filters with
  | Raise e => Raise e
  | Ok [] => Ok []
  | Ok document_ids =>
      match scan_documents self query_embedding document_ids with
      | Raise e => Raise e
      | Ok all_results => Ok (slice_to k (sort_by_score all_results))
      end
  end.

(** [retrieve] when the generator answers [query] with
    [generate_embedding query]. *)
Definition retrieve (self : VectorRetriever) (query : string)
    (filters : option Dict) (k : Z) : Res (list Result) :=
  let query_embedding := generate_embedding query in
  retrieve_from self query_embedding filters k.

(** [retrieve] as a call: the query embedding is asked of
    [self.embedding_generator] each time, and the first vector of its answer
    is taken. *)
Definition retrieve_call {Remote : Type}
    (generate_embeddings : list string -> St Remote (list (list Num)))
    (self : VectorRetriever) (query : string) (filters : option Dict) (k : Z)
    : St Remote (list Result) :=
  do embeddings <- generate_embeddings [query];
  match embeddings with
  | [] => raise "IndexError: list index out of range"
  | query_embedding :: _ => fun s => (retrieve_from self query_embedding filters k, s)
  end.

End Retriever.

End Retriever.

(** ** core/agents/information_retrieval_agent.py *)

Module InformationRetrievalAgent.

Section Agent.

Context `{External}.

(** An entry of [self.query_cache]. *)
Record CacheEntry := {
  results : list Retriever.Result;
  cached_at : Timestamp
}.

(** The agent with the world it acts on. *)
Record Agent := {
  world : World;
  retriever : Retriever.VectorRetriever;
  query_cache : gmap string CacheEntry
}.

Definition lift {A} (c : M A) : St Agent A :=
  fun self =>
    let '(r, w) := c (world self) in
    (r, {| world := w; retriever := retriever self; query_cache := query_cache self |}).

(** [self.agent_type] *)
Variable agent_type : AgentType.

(** [self.retriever.remove_document(document_id)] on the value of the payload. *)
Definition remove_from_retriever (document_id : Value) : St Agent Z :=
  fun self =>
    if hashable document_id then
      match document_id with
      | VStr d =>
          let '(n, r) := Retriever.remove_document (retriever self) d in
          (Ok n, {| world := world self; retriever := r;
                    query_cache := query_cache self |})
      | _ => (Ok 0, self)
      end
    else (Raise (unhashable document_id), self).

Definition _handle_remove_document (message : Message) : St Agent unit :=
  match PyDict.get "document_id" (Schema.content message) with
  | Some document_id =>
      if truthy document_id then
        try_except
          (do num_removed <- remove_from_retriever document_id;
           do_ modify (fun self =>
                 {| world := world self; retriever := retriever self;
                    query_cache := ∅ |});
           do_ lift (BaseAgent.send_response agent_type message
                       [("status", VStr "success");
                        ("document_id", document_id);
                        ("num_chunks_removed", VInt num_removed)]);
           ret tt)
          (fun e =>
             do_ lift (modify (add_log (LogError ("Error removing document: " +:+ e))));
             do_ lift (BaseAgent.send_error agent_type (sender message)
                         ("Error removing document: " +:+ e) (Some (id message)));
             ret tt)
      else
        do_ lift (BaseAgent.send_error agent_type (sender message)
                    "Missing document_id parameter" (Some (id message)));
        ret tt
  | None =>
      do_ lift (BaseAgent.send_error agent_type (sender message)
                  "Missing document_id parameter" (Some (id message)));
      ret tt
  end.

(** The handlers of the other three actions are left abstract. *)
Variable _handle_retrieve : Message -> St Agent unit.
Variable _handle_index_document : Message -> St Agent unit.
Variable _handle_clear_cache : Message -> St Agent unit.

Definition _handle_command (message : Message) : St Agent unit :=
  let action := PyDict.get "action" (Schema.content message) in
  if is_str action "retrieve" then _handle_retrieve message
  else if is_str action "index_document" then _handle_index_document message
  else if is_str action "remove_document" then _handle_remove_document message
  else if is_str action "clear_cache" then _handle_clear_cache message
  else
    do_ lift (BaseAgent.send_error agent_type (sender message)
                ("Unknown action: " +:+ format_scalar (default VNone action))
                (Some (id message)));
    ret tt.

Definition handle_message (message : Message) : St Agent unit :=
  if bool_decide (message_type message = COMMAND)
  then _handle_command message
  else ret tt.

End Agent.

End InformationRetrievalAgent.

(** ** Concrete worlds and messages used as examples *)

Module Examples.

Definition example_clock (n : nat) : Timestamp := "1700000000." +:+ pretty n.

(** A broker with no subscription and no pending request. *)
Definition empty_world : World :=
  {| message_broker := {| subscribers := ∅; response_handlers := ∅ |};
     inbox := ∅; cells := ∅; calls := []; published := []; log := [];
     clock := example_clock; ticks := 0 |}.

(** The dialogue agent has started: it is subscribed under its own type. *)
Definition dialogue_started : World :=
  snd (Broker.subscribe DIALOGUE (receive_message DIALOGUE) empty_world).

(** A response to a request whose waiter is gone. *)
Definition late_response : Message :=
  {| id := "1699999999.75"; sender := INFORMATION_RETRIEVAL; receiver := DIALOGUE;
     message_type := RESPONSE; priority := MEDIUM;
     content := [("results", VList [])]; timestamp := "1699999999.75";
     correlation_id := Some "1699999990.5"; reply_to := None |}.

(** A retrieval request of the dialogue agent and the answer to it. *)
Definition retrieval_request : Message :=
  {| id := "1699999998.25"; sender := DIALOGUE; receiver := INFORMATION_RETRIEVAL;
     message_type := COMMAND; priority := HIGH;
     content := [("action", VStr "retrieve"); ("query", VStr "hello")];
     timestamp := "1699999998.25"; correlation_id := None; reply_to := None |}.

Definition retrieval_response : Message :=
  {| id := "1699999998.5"; sender := INFORMATION_RETRIEVAL; receiver := DIALOGUE;
     message_type := RESPONSE; priority := MEDIUM;
     content := [("results", VList [])]; timestamp := "1699999998.5";
     correlation_id := Some "1699999998.25"; reply_to := None |}.

(** The orchestrator, the retrieval agent and the dialogue agent have started. *)
Definition system_started : World :=
  snd ((do_ Broker.subscribe ORCHESTRATOR (receive_message ORCHESTRATOR);
        do_ Broker.subscribe INFORMATION_RETRIEVAL (receive_message INFORMATION_RETRIEVAL);
        Broker.subscribe DIALOGUE (receive_message DIALOGUE)) empty_world).

Definition registry : OrchestratorAgent.Registry :=
  OrchestratorAgent.register_agent INFORMATION_RETRIEVAL
    (OrchestratorAgent.register_agent DIALOGUE []).

(** A command of the dialogue agent to the orchestrator, which the
    orchestrator forwards by the prefix of its action. *)
Definition search_command : Message :=
  {| id := "1699999999.5"; sender := DIALOGUE; receiver := ORCHESTRATOR;
     message_type := COMMAND; priority := HIGH;
     content := [("action", VStr "search_documents"); ("query", VStr "hello")];
     timestamp := "1699999999.5"; correlation_id := None; reply_to := None |}.

(** A [route] command: the payload is a command for the retrieval agent. *)
Definition route_command : Message :=
  {| id := "1699999999.5"; sender := DIALOGUE; receiver := ORCHESTRATOR;
     message_type := COMMAND; priority := MEDIUM;
     content := [("action", VStr "route");
                 ("target_agent", VStr "information_retrieval");
                 ("payload", VDict [("action", VStr "remove_document");
                                    ("document_id", VStr "doc-1")])];
     timestamp := "1699999999.5"; correlation_id := None; reply_to := None |}.

(** Numbers for the examples: integers stand for the floats, with integer
    square roots and quotients counted in thousandths. *)
Definition integer_numbers : External :=
  {| Num := Z; zero := 0;
     dot := fun u v => foldr Z.add 0 (zip_with Z.mul u v);
     norm := fun v => Z.sqrt (foldr Z.add 0 (zip_with Z.mul v v));
     mul := Z.mul; div := fun a b => (1000 * a) `div` b;
     eqb := Z.eqb; ltb := Z.ltb;
     generate_embedding := fun query => [Z.of_nat (String.length query); 1] |}.

(** One turn of the orchestrator's loop. *)
Definition orchestrator_turn : M unit :=
  BaseAgent.process_one ORCHESTRATOR
    (fun message =>
       do_ OrchestratorAgent.handle_message ORCHESTRATOR registry message; ret tt).

(** One turn of the loop of a retrieval agent with an empty index. *)
Definition retrieval_turn : M unit :=
  BaseAgent.process_one INFORMATION_RETRIEVAL
    (fun message w =>
       let '(r, self) :=
         @InformationRetrievalAgent.handle_message integer_numbers
           INFORMATION_RETRIEVAL (fun _ => ret tt) (fun _ => ret tt) (fun _ => ret tt)
           message
           {| InformationRetrievalAgent.world := w;
              InformationRetrievalAgent.retriever := Retriever.init;
              InformationRetrievalAgent.query_cache := ∅ |} in
       (r, InformationRetrievalAgent.world self)).

(** The dialogue agent waits for the answer to a command sent to the
    orchestrator while the orchestrator, the retrieval agent and the
    orchestrator again take a turn each. *)
Definition forwarded_call (command : Message) : Res (option Message) * World :=
  BaseAgent.send_message_and_wait command
    [orchestrator_turn; retrieval_turn; orchestrator_turn] system_started.

(** Two commands of the orchestrator wait in the inbox of the dialogue agent;
    its handler fails on the first. *)
Definition first_command : Message :=
  {| id := "1699999997.0"; sender := ORCHESTRATOR; receiver := DIALOGUE;
     message_type := COMMAND; priority := MEDIUM;
     content := [("action", VStr "get_session")];
     timestamp := "1699999997.0"; correlation_id := None; reply_to := None |}.

Definition second_command : Message :=
  {| id := "1699999997.5"; sender := ORCHESTRATOR; receiver := DIALOGUE;
     message_type := COMMAND; priority := MEDIUM;
     content := [("action", VStr "list_sessions")];
     timestamp := "1699999997.5"; correlation_id := None; reply_to := None |}.

Definition two_commands_queued : World :=
  snd ((do_ Broker.publish first_command; Broker.publish second_command)
         system_started).

Definition failing_handler (message : Message) : M unit :=
  if bool_decide (id message = "1699999997.0") then raise "session store is down"
  else modify (add_log (LogInfo ("handled " +:+ id message))).

(** A clock that gives the same reading twice, as a clock of coarse
    resolution does for two constructions in quick succession. *)
Definition coarse_clock_world : World :=
  {| message_broker := {| subscribers := ∅; response_handlers := ∅ |};
     inbox := ∅; cells := ∅; calls := []; published := []; log := [];
     clock := fun _ => "1700000000.123456"; ticks := 0 |}.

Definition chunk (cid doc text : string) (emb : option (list Z)) (n : Z)
    : @Retriever.DocumentChunk integer_numbers :=
  @Retriever.Build_DocumentChunk integer_numbers cid doc text [] emb None n.

(** One document of three chunks with distinct embeddings. *)
Definition indexed : @Retriever.VectorRetriever integer_numbers :=
  Retriever.add_documents Retriever.init
    [chunk "chunk-a" "doc-1" "alpha" (Some [1; 5]) 0;
     chunk "chunk-b" "doc-1" "beta" (Some [5; 1]) 1;
     chunk "chunk-c" "doc-1" "gamma" (Some [3; 3]) 2].

(** A retrieval agent over that index, with one cached query. *)
Definition indexed_agent : @InformationRetrievalAgent.Agent integer_numbers :=
  @InformationRetrievalAgent.Build_Agent integer_numbers system_started indexed
    {[ "hello_{}_5" :=
         @InformationRetrievalAgent.Build_CacheEntry integer_numbers []
           "1699999000.0" ]}.

Definition remove_command : Message :=
  {| id := "1699999999.25"; sender := DOCUMENT_PROCESSING;
     receiver := INFORMATION_RETRIEVAL; message_type := COMMAND; priority := MEDIUM;
     content := [("action", VStr "remove_document"); ("document_id", VStr "doc-1")];
     timestamp := "1699999999.25"; correlation_id := None; reply_to := None |}.

(** The same chunk id indexed twice: first with an embedding, then with an
    empty one and another text. *)
Definition reindexed : @Retriever.VectorRetriever integer_numbers :=
  Retriever.add_documents
    (Retriever.add_documents Retriever.init
       [chunk "chunk-1" "doc-1" "old text" (Some [3; 4]) 0])
    [chunk "chunk-1" "doc-1" "new text" (Some []) 0].

(** A batch of two chunks, the first with an empty embedding. *)
Definition batch : list (@Retriever.DocumentChunk integer_numbers) :=
  [chunk "chunk-x" "doc-2" "no vector" (Some []) 0;
   chunk "chunk-y" "doc-2" "a vector" (Some [1; 2]) 1].

End Examples.

(** ** Vocabulary of the statements about retrieval *)

Section RetrievalVocabulary.

Context `{External}.

(** [all_results] as [retrieve] has it before the sort. *)
Definition candidates (self : Retriever.VectorRetriever) (query : string)
    (filters : option Dict) : Res (list Retriever.Result) :=
  match Retriever._filter_document_ids self filters with
  | Raise e => Raise e
  | Ok document_ids =>
      Retriever.scan_documents self (generate_embedding query) document_ids
  end.

(** Cosine similarity in the words of the specification: 0 when either
    vector has magnitude 0, and otherwise the dot product divided by the
    product of the magnitudes. *)
Definition cosine_similarity (u v : list Num) : Num :=
  if eqb (norm u) zero || eqb (norm v) zero then zero
  else div (dot u v) (mul (norm u) (norm v)).

(** The chunk an id names among the chunks stored for a document: the one
    stored last under that id. *)
Definition named_chunk (chunks : list Retriever.DocumentChunk) (cid : string)
    : option Retriever.DocumentChunk :=
  last (List.filter (fun c => bool_decide (Retriever.chunk_id c = cid)) chunks).

(** The candidate a stored vector gives: the vector must name a stored chunk
    of its document; the candidate carries the ids, the content and the
    metadata of that chunk and the cosine similarity of the query vector and
    the stored vector. *)
Definition candidate (query_embedding : list Num) (doc_id : string)
    (chunks : list Retriever.DocumentChunk) (entry : string * list Num)
    : option Retriever.Result :=
  match named_chunk chunks (fst entry) with
  | Some chunk =>
      Some (Retriever.Build_Result doc_id (fst entry) (Retriever.content chunk)
              (Retriever.metadata chunk) (cosine_similarity query_embedding (snd entry)))
  | None => None
  end.

(** The candidates of a document, in the order in which its vectors were
    first stored. *)
Definition document_candidates (self : Retriever.VectorRetriever)
    (query_embedding : list Num) (doc_id : string) : list Retriever.Result :=
  omap (candidate query_embedding doc_id
          (default [] (PyDict.get doc_id (Retriever.documents self))))
    (default [] (PyDict.get doc_id (Retriever.vectors self))).

(** A value of the [document_id] filter that names a stored document. *)
Definition named_document (self : Retriever.VectorRetriever) (v : Value)
    : option string :=
  match v with
  | VStr doc_id =>
      if PyDict.mem doc_id (Retriever.documents self) then Some doc_id else None
  | _ => None
  end.

(** The documents a filter selects: those its [document_id] names, in the
    order of the filter, and every stored document, in the order of first
    storage, when the filter is absent, empty or without [document_id]. *)
Definition selected_documents (self : Retriever.VectorRetriever)
    (filters : option Dict) : list string :=
  match filters with
  | Some (binding :: rest) =>
      match PyDict.get "document_id" (binding :: rest) with
      | Some (VList doc_ids) => omap (named_document self) doc_ids
      | Some doc_id => omap (named_document self) [doc_id]
      | None => PyDict.keys (Retriever.documents self)
      end
  | _ => PyDict.keys (Retriever.documents self)
  end.

(** The candidate chunks of a query vector under a filter, in scan order. *)
Definition candidate_chunks (self : Retriever.VectorRetriever)
    (query_embedding : list Num) (filters : option Dict) : list Retriever.Result :=
  flat_map (document_candidates self query_embedding)
    (selected_documents self filters).

(** The chunk ids of a returned list, in its order. *)
Definition returned_ids (outcome : Res (list Retriever.Result))
    : option (list string) :=
  match outcome with
  | Ok returned => Some (map Retriever.result_chunk_id returned)
  | Raise _ => None
  end.

(** [<] orders the scores of the list as it orders numbers: it is asymmetric
    and its complement is transitive (no score is "not a number"). *)
Definition scores_ordered (scores : list Num) : Prop :=
  (forall x y, x ∈ scores -> y ∈ scores -> ltb x y = true -> ltb y x = false)
  /\ (forall x y z, x ∈ scores -> y ∈ scores -> z ∈ scores ->
        ltb x y = false -> ltb y z = false -> ltb x z = false).

(** The scores of the entries are among [scores]. *)
Definition scored_within (scores : list Num) (l : list Retriever.Result) : Prop :=
  Forall (fun r => Retriever.score r ∈ scores) l.

(** Neither score is below the other. *)
Definition tied (x y : Num) : bool := negb (ltb x y) && negb (ltb y x).

(** The earlier result does not score below the later one. *)
Definition not_below (x y : Retriever.Result) : Prop :=
  ltb (Retriever.score x) (Retriever.score y) = false.

(** The [document_id] filter holds nothing [hash] rejects. *)
Definition filters_hashable (filters : option Dict) : bool :=
  match filters with
  | None | Some [] => true
  | Some filters =>
      match PyDict.get "document_id" filters with
      | Some (VList l) => forallb hashable l
      | Some v => hashable v
      | None => true
      end
  end.

(** Every stored vector has [n] components. *)
Definition dimension_ok (self : Retriever.VectorRetriever) (n : nat) : Prop :=
  Forall (fun entry => Forall (fun item => length (snd item) = n) (snd entry))
    (Retriever.vectors self).

(** [vectors[doc_id][chunk_id]], if present. *)
Definition lookup2 (vectors : list (string * list (string * list Num)))
    (doc_id chunk_id : string) : option (list Num) :=
  match PyDict.get doc_id vectors with
  | Some doc_vectors => PyDict.get chunk_id doc_vectors
  | None => None
  end.

Definition vector_entry (self : Retriever.VectorRetriever) (doc_id chunk_id : string)
    : option (list Num) :=
  lookup2 (Retriever.vectors self) doc_id chunk_id.

End RetrievalVocabulary.

(** The world in which [send_message_and_wait] publishes its message: the
    cell is made and the handler is registered. *)
Definition request_registered (message : Message) (w : World) : World :=
  snd ((do cell <- BaseAgent.new_cell;
        Broker.register_response_handler (id message) (response_handler cell)) w).

(** The world after other threads have completed [steps], one after the
    other, whatever each of them returns or raises. *)
Definition run_others (steps : list (M unit)) (w : World) : World :=
  fold_left (fun w' step => snd (step w')) steps w.

(** The world [send_message_and_wait] leaves when its [finally] clause has
    run on [w]: the entry under [correlation_id] is deleted from the table of
    response handlers, and nothing else changes. *)
Definition handler_removed (correlation_id : string) (w : World) : World :=
  set_broker {| subscribers := subscribers (message_broker w);
                response_handlers :=
                  delete correlation_id (response_handlers (message_broker w)) |} w.

(** A handler that exits the interpreter on the first of the two commands:
    [sys.exit()] raises [SystemExit], which is not an [Exception]. *)
Definition exiting_handler (message : Message) : M unit :=
  if bool_decide (id message = "1699999997.0")
  then fun w => (Raise (BaseException "SystemExit"), w)
  else modify (add_log (LogInfo ("handled " +:+ id message))).

(** ** Vocabulary of the statements about the broker and the agents *)

(** The error the delivery loop of [publish] logs for a callback, if the
    callback raises. *)
Definition delivery_error (cb : Callback) : option LogRecord :=
  match cb with
  | foreign (Some e) =>
      Some (LogError ("Error delivering message to subscriber: " +:+ e))
  | _ => None
  end.

(** The outcome of calling a callback. *)
Definition call_outcome (cb : Callback) : Res unit :=
  match cb with
  | foreign (Some e) => Raise e
  | _ => Ok tt
  end.

(** Every subscription is the [receive_message] of an agent, as [start]
    makes them. *)
Definition inbox_subscribers (w : World) : Prop :=
  forall a subs,
    subscribers (message_broker w) !! a = Some subs ->
    Forall (fun cb => exists b, cb = receive_message b) subs.

(** [publish] called on each message in turn. *)
Fixpoint publish_all (messages : list Message) : M unit :=
  match messages with
  | [] => ret tt
  | m :: rest => do_ Broker.publish m; publish_all rest
  end.

(** [inbox.get] called [n] times, with what it returned each time it
    returned a message. *)
Fixpoint drain (agent_type : AgentType) (n : nat) : M (list Message) :=
  match n with
  | O => ret []
  | S n' =>
      do got <- BaseAgent.inbox_get agent_type;
      do more <- drain agent_type n';
      ret (match got with Some m => m :: more | None => more end)
  end.

(** The two ways a worker answers the message it received: with
    [send_response(message, content)] or with
    [send_error(message.sender, error, message.id)]. *)
Definition worker_reply (agent_type : AgentType) (received : Message)
    (answer : Dict + string) : M unit :=
  match answer with
  | inl content => do_ BaseAgent.send_response agent_type received content; ret tt
  | inr error =>
      do_ BaseAgent.send_error agent_type (sender received) error (Some (id received));
      ret tt
  end.

(** The message [worker_reply] builds when the clock reads [t_id] and
    [t_ts]. *)
Definition reply_message (agent_type : AgentType) (received : Message)
    (answer : Dict + string) (t_id t_ts : Timestamp) : Message :=
  match answer with
  | inl content =>
      Message_init t_id t_ts agent_type (sender received) RESPONSE content
        (Some (id received)) MEDIUM
  | inr error =>
      Message_init t_id t_ts agent_type (sender received) ERROR
        [("error", VStr error)] (Some (id received)) MEDIUM
  end.

(** An EVENT waits in the inbox of the dialogue agent. *)
Definition status_event : Message :=
  {| id := "1699999996.0"; sender := ORCHESTRATOR; receiver := DIALOGUE;
     message_type := EVENT; priority := LOW;
     content := [("event_type", VStr "agent_status_change");
                 ("agent_type", VStr "information_retrieval");
                 ("status", VStr "busy")];
     timestamp := "1699999996.0"; correlation_id := None; reply_to := None |}.

Definition event_queued : World :=
  snd (Broker.publish status_event Examples.dialogue_started).

(** A request for the status of the retrieval agent. *)
Definition status_query : Message :=
  {| id := "1699999996.5"; sender := DIALOGUE; receiver := ORCHESTRATOR;
     message_type := COMMAND; priority := MEDIUM;
     content := [("action", VStr "get_agent_status");
                 ("agent_type", VStr "information_retrieval")];
     timestamp := "1699999996.5"; correlation_id := None; reply_to := None |}.

(** ** core/agents/base_agent.py: [start] and [stop] *)

Module Lifecycle.

(** The fields of an agent [start] and [stop] assign. *)
Record Agent := {
  running : bool;
  thread : bool      (** whether [self.thread] holds a thread object *)
}.

(** [BaseAgent.__init__] *)
Definition init : Agent := {| running := false; thread := false |}.

Section Agent.

(** [self.agent_type] *)
Variable agent_type : AgentType.

Definition start (self : Agent) : M Agent :=
  if running self then ret self
  else
    do_ Broker.subscribe agent_type (receive_message agent_type);
    (* the thread running process_messages is created and started *)
    do_ modify (add_log (LogInfo ("Agent " +:+ format_AgentType agent_type
                                    +:+ " started")));
    ret {| running := true; thread := true |}.

Definition stop (self : Agent) : M Agent :=
  (* self.running = False; the thread, if any, is joined and forgotten *)
  do_ Broker.unsubscribe agent_type None;
  do_ modify (add_log (LogInfo ("Agent " +:+ format_AgentType agent_type
                                  +:+ " stopped")));
  ret {| running := false; thread := false |}.

End Agent.

End Lifecycle.

(** ** Vocabulary of the statements about the index *)

Section IndexVocabulary.

Context `{External}.

(** The chunks of a batch that belong to a document, in the order of the
    batch. *)
Definition chunks_of (d : string) (chunks : list Retriever.DocumentChunk)
    : list Retriever.DocumentChunk :=
  List.filter (fun c => bool_decide (Retriever.document_id c = d)) chunks.

(** [self.documents.get(d, [])] *)
Definition stored (self : Retriever.VectorRetriever) (d : string)
    : list Retriever.DocumentChunk :=
  default [] (PyDict.get d (Retriever.documents self)).

(** The indexes the methods build from the empty one. *)
Inductive built : Retriever.VectorRetriever -> Prop :=
  | built_init : built Retriever.init
  | built_add self chunks :
      built self -> built (Retriever.add_documents self chunks)
  | built_remove self d :
      built self -> built (snd (Retriever.remove_document self d)).

End IndexVocabulary.

(** An index holding a vector of three components beside those of two. *)
Definition mixed_index : @Retriever.VectorRetriever Examples.integer_numbers :=
  Retriever.add_documents Examples.indexed
    [Examples.chunk "chunk-d" "doc-3" "delta" (Some [1; 2; 3]) 0].

(** ** Generators and indexes for the statements about ranking *)

Module Ranking.

(** A remote service that refuses its first request and answers every later
    one with the vector [[5, 1]] for each text; its state counts the
    requests. *)
Definition create (batch : list string) : St nat (list (list Z)) :=
  fun requests =>
    match requests with
    | O => (Raise "APIConnectionError: Connection error.", 1%nat)
    | S _ => (Ok (map (fun _ => [5; 1]) batch), S requests)
    end.

(** A mock vector for every seed. *)
Definition mock_vector (seed : Z) : list Z := [1; 5].

(** The generator of a retriever made with an API key in the environment,
    and of one made without. *)
Definition remote_generator : EmbeddingGenerator.EmbeddingGenerator :=
  EmbeddingGenerator.init "openai" (Some "sk-example").

Definition mock_generator : EmbeddingGenerator.EmbeddingGenerator :=
  EmbeddingGenerator.init "openai" None.

Definition generate_embeddings (generator : EmbeddingGenerator.EmbeddingGenerator)
    : list string -> St nat (list (list Z)) :=
  EmbeddingGenerator.generate_embeddings (H := Examples.integer_numbers)
    mock_vector (ret tt) create generator.

(** [retrieve] on the index of three chunks, by either generator. *)
Definition retrieve (generator : EmbeddingGenerator.EmbeddingGenerator)
    (filters : option Dict) (k : Z)
    : St nat (list (@Retriever.Result Examples.integer_numbers)) :=
  Retriever.retrieve_call (H := Examples.integer_numbers)
    (generate_embeddings generator) Examples.indexed "query" filters k.

(** A filter whose [document_id] holds a list. *)
Definition nested_filter : option Dict := Some [("document_id", VList [VList []])].

(** Floats: the query vector is [[2.0, 0.0]], and the second of three stored
    vectors has the component [2.0 ** 1023], whose double exceeds every
    finite float. *)
Definition floats : External := Binary64.numbers (fun _ => [2%float; 0%float]).

Definition float_chunk (cid doc text : string) (emb : list PrimFloat.float) (n : Z)
    : @Retriever.DocumentChunk floats :=
  @Retriever.Build_DocumentChunk floats cid doc text [] (Some emb) None n.

Definition float_index : @Retriever.VectorRetriever floats :=
  Retriever.add_documents Retriever.init
    [float_chunk "chunk-a" "doc-1" "alpha" [3%float; 4%float] 0;
     float_chunk "chunk-b" "doc-1" "beta" [0x1p1023%float; 1%float] 1;
     float_chunk "chunk-c" "doc-1" "gamma" [4%float; 3%float] 2].

(** The scores of a returned list, in its order. *)
Definition returned_scores (outcome : Res (list (@Retriever.Result floats)))
    : list PrimFloat.float :=
  match outcome with
  | Ok returned => map Retriever.score returned
  | Raise _ => []
  end.

End Ranking.

(** ** core/agents/information_retrieval_agent.py: [_handle_clear_cache] *)

Module QueryCache.

(** [pattern in key] on two strings. *)
Fixpoint contains (pattern key : string) : bool :=
  if String.prefix pattern key then true
  else match key with
       | EmptyString => false
       | String _ rest => contains pattern rest
       end.

(** [type(v).__name__] *)
Definition type_name (v : Value) : string :=
  match v with
  | VNone => "NoneType"
  | VBool _ => "bool"
  | VInt _ => "int"
  | VStr _ => "str"
  | VList _ => "list"
  | VDict _ => "dict"
  end.

Section Cache.

Context `{External}.

(** [self.agent_type] *)
Variable agent_type : AgentType.

Abbreviation Agent := InformationRetrievalAgent.Agent.

Definition set_query_cache
    (cache : gmap string InformationRetrievalAgent.CacheEntry) (self : Agent) : Agent :=
  {| InformationRetrievalAgent.world := InformationRetrievalAgent.world self;
     InformationRetrievalAgent.retriever := InformationRetrievalAgent.retriever self;
     InformationRetrievalAgent.query_cache := cache |}.

(** [[key for key in self.query_cache.keys() if query_pattern in key]]: the
    test raises on the first key when the pattern is not a string. *)
Definition keys_to_remove (query_pattern : Value) (self : Agent) : Res (list string) :=
  let keys := (map_to_list (InformationRetrievalAgent.query_cache self)).*1 in
  match query_pattern with
  | VStr pattern => Ok (filter (fun key => contains pattern key = true) keys)
  | _ =>
      match keys with
      | [] => Ok []
      | _ :: _ =>
          Raise ("TypeError: 'in <string>' requires string as left operand, not "
                   +:+ type_name query_pattern)
      end
  end.

Definition cleared (message : Message) (num_entries_cleared : nat) : St Agent unit :=
  do_ InformationRetrievalAgent.lift
        (BaseAgent.send_response agent_type message
           [("status", VStr "success");
            ("num_entries_cleared", VInt (Z.of_nat num_entries_cleared))]);
  ret tt.

Definition clear_all (message : Message) : St Agent unit :=
  do num_entries <- gets (fun self => size (InformationRetrievalAgent.query_cache self));
  do_ modify (set_query_cache ∅);
  cleared message num_entries.

Definition _handle_clear_cache (message : Message) : St Agent unit :=
  match PyDict.get "query_pattern" (Schema.content message) with
  | Some query_pattern =>
      if truthy query_pattern then
        do keys <- (fun self => (keys_to_remove query_pattern self, self));
        do_ modify (fun self =>
              set_query_cache
                (foldr delete (InformationRetrievalAgent.query_cache self) keys) self);
        cleared message (length keys)
      else clear_all message
  | None => clear_all message
  end.

End Cache.

End QueryCache.

(** A [clear_cache] command for the queries that mention "hello". *)
Definition clear_hello : Message :=
  {| id := "1699999995.5"; sender := DIALOGUE; receiver := INFORMATION_RETRIEVAL;
     message_type := COMMAND; priority := MEDIUM;
     content := [("action", VStr "clear_cache"); ("query_pattern", VStr "hello")];
     timestamp := "1699999995.5"; correlation_id := None; reply_to := None |}.

(** ** core/document_processing/splitters.py *)

Module TextSplitter.

(** A text is the list of its characters; a character is an [ascii], so the
    texts are those of code points below 256. *)
Definition Text := list Ascii.ascii.

Definition space : Ascii.ascii := Ascii.ascii_of_nat 32.
Definition newline : Ascii.ascii := Ascii.ascii_of_nat 10.
Definition carriage_return : Ascii.ascii := Ascii.ascii_of_nat 13.

(** [\s] in a pattern and the characters [strip] removes: [str.isspace]. *)
Definition is_space (c : Ascii.ascii) : bool :=
  let n := Ascii.nat_of_ascii c in
  ((9 <=? n) && (n <=? 13) || (28 <=? n) && (n <=? 32)
   || (n =? 133) || (n =? 160))%nat.

(** [len(text)] *)
Definition len (text : Text) : Z := Z.of_nat (length text).

(** [' '.join(parts)] *)
Fixpoint join (parts : list Text) : Text :=
  match parts with
  | [] => []
  | [p] => p
  | p :: rest => p ++ space :: join rest
  end.

(** [re.sub(r'\s+', ' ', text)]: [in_run] tells that the previous character
    was white space, already replaced. *)
Fixpoint collapse_spaces (in_run : bool) (text : Text) : Text :=
  match text with
  | [] => []
  | c :: rest =>
      if is_space c
      then if in_run then collapse_spaces true rest
           else space :: collapse_spaces true rest
      else c :: collapse_spaces false rest
  end.

Fixpoint lstrip (text : Text) : Text :=
  match text with
  | [] => []
  | c :: rest => if is_space c then lstrip rest else text
  end.

(** [text.strip()] *)
Definition strip (text : Text) : Text := rev (lstrip (rev (lstrip text))).

(** The longest run of white space at the head of a text. *)
Fixpoint space_run (text : Text) : Text :=
  match text with
  | [] => []
  | c :: rest => if is_space c then c :: space_run rest else []
  end.

(** The end of the last occurrence of [mark] in [run]: how many characters of
    [run] a greedy [\s*] followed by [mark] consumes, if it can match at all;
    [seen] counts the characters before [run]. *)
Fixpoint last_end (mark run : Text) (seen : nat) : option nat :=
  match run with
  | [] => None
  | _ :: rest =>
      match last_end mark rest (S seen) with
      | Some n => Some n
      | None =>
          if bool_decide (take (length mark) run = mark)
          then Some (seen + length mark)%nat
          else None
      end
  end.

(** The length of the match of [\n\s*\n|\r\n\s*\r\n] at the head of a text. *)
Definition separator_length (text : Text) : option nat :=
  match text with
  | c :: rest =>
      if bool_decide (c = newline)
      then last_end [newline] (space_run rest) 1
      else
        match rest with
        | c' :: rest' =>
            if bool_decide (c = carriage_return) && bool_decide (c' = newline)
            then last_end [carriage_return; newline] (space_run rest') 2
            else None
        | [] => None
        end
  | [] => None
  end.

(** [re.split(pattern, text)], scanning from the left: [skip] characters still
    belong to the separator found last, [piece] is the text since then. *)
Fixpoint split_from (text : Text) (skip : nat) (piece : Text) : list Text :=
  match text with
  | [] => [piece]
  | c :: rest =>
      match skip with
      | S n => split_from rest n piece
      | O =>
          match separator_length text with
          | Some (S n) => piece :: split_from rest n []
          | _ => split_from rest 0 (piece ++ [c])
          end
      end
  end.

Definition _split_into_paragraphs (text : Text) : list Text :=
  omap (fun p => match strip p with
                 | [] => None
                 | stripped => Some stripped
                 end)
    (split_from text 0 []).

Section Splitter.

(** [self.chunk_size], [self.chunk_overlap] *)
Variables chunk_size chunk_overlap : Z.

(** The inner loop of [_merge_into_chunks] over [reversed(current_chunk)]. *)
Fixpoint take_overlap (reversed_chunk overlap_paragraphs : list Text)
    (overlap_size : Z) : list Text * Z :=
  match reversed_chunk with
  | [] => (overlap_paragraphs, overlap_size)
  | p :: rest =>
      if overlap_size + len p <=? chunk_overlap
      then take_overlap rest (p :: overlap_paragraphs) (overlap_size + len p)
      else (overlap_paragraphs, overlap_size)
  end.

(** The body of the loop over the paragraphs; [finish] is what is appended
    to [chunks] for a finished chunk ([' '.join] in the source). *)
Definition merge_step {B} (finish : list Text -> B)
    (state : list B * list Text * Z) (paragraph : Text) : list B * list Text * Z :=
  let '(chunks, current_chunk, current_size) := state in
  let paragraph_size := len paragraph in
  let '(chunks, current_chunk, current_size) :=
    if (chunk_size <? current_size + paragraph_size)
       && negb (bool_decide (current_chunk = []))
    then
      let '(overlap_paragraphs, overlap_size) :=
        take_overlap (rev current_chunk) [] 0 in
      (chunks ++ [finish current_chunk], overlap_paragraphs, overlap_size)
    else (chunks, current_chunk, current_size) in
  (chunks, current_chunk ++ [paragraph], current_size + paragraph_size).

Definition merge_with {B} (finish : list Text -> B) (paragraphs : list Text) : list B :=
  let '(chunks, current_chunk, _) :=
    fold_left (merge_step finish) paragraphs ([], [], 0) in
  match current_chunk with
  | [] => chunks
  | _ => chunks ++ [finish current_chunk]
  end.

Definition _merge_into_chunks (paragraphs : list Text) : list Text :=
  merge_with join paragraphs.

Definition split_text (text : Text) : list Text :=
  match text with
  | [] => []
  | _ =>
      let text := strip (collapse_spaces false text) in
      _merge_into_chunks (_split_into_paragraphs text)
  end.

End Splitter.

End TextSplitter.

(** ** Vocabulary of the statements about the splitter *)

(** The paragraphs of each chunk [_merge_into_chunks] makes, before they are
    joined. *)
Definition chunk_paragraphs (chunk_size chunk_overlap : Z)
    (paragraphs : list TextSplitter.Text) : list (list TextSplitter.Text) :=
  TextSplitter.merge_with chunk_size chunk_overlap (fun g => g) paragraphs.

(** The characters of the paragraphs of a chunk, separators apart. *)
Definition total (g : list TextSplitter.Text) : Z :=
  foldr (fun p acc => TextSplitter.len p + acc) 0 g.

(** The chunk holds at most [chunk_size] characters, or it is the overlap
    carried over from the chunk before, of at most [chunk_overlap] characters,
    and one more paragraph. *)
Definition within_bounds (chunk_size chunk_overlap : Z)
    (g : list TextSplitter.Text) : Prop :=
  total g <= chunk_size
  \/ exists front p, g = front ++ [p] /\ total front <= Z.max 0 chunk_overlap.

(** The state of the loop after the paragraphs [done]. *)
Definition merge_invariant (chunk_size chunk_overlap : Z)
    (done : list TextSplitter.Text)
    (state : list (list TextSplitter.Text) * list TextSplitter.Text * Z) : Prop :=
  let '(groups, current, size) := state in
  size = total current
  /\ (exists before, done = before ++ current)
  /\ (done <> [] -> current <> [])
  /\ (current = [] \/ within_bounds chunk_size chunk_overlap current)
  /\ (forall p, p ∈ done -> p ∈ current \/ exists g, g ∈ groups /\ p ∈ g)
  /\ (forall g, g ∈ groups ->
        g <> [] /\ (exists before after, done = before ++ g ++ after)
        /\ within_bounds chunk_size chunk_overlap g)
  /\ (length groups < length done \/ (done = [] /\ groups = []))%nat.

Definition text_of (s : string) : TextSplitter.Text := String.list_ascii_of_string s.

(** ** core/agents/agent_types.py *)

Module AgentTypes.

Inductive AgentCapability :=
  | ORCHESTRATION
  | TEXT_GENERATION
  | DOCUMENT_PROCESSING
  | EMBEDDING_GENERATION
  | INFORMATION_RETRIEVAL
  | DIALOGUE_MANAGEMENT
  | AUTHENTICATION
  | AUTHORIZATION
  | MONITORING.

#[global] Instance AgentCapability_eq_dec : EqDecision AgentCapability.
Proof. solve_decision. Defined.

Definition AgentCapability_code (c : AgentCapability) : nat :=
  match c with
  | ORCHESTRATION => 0 | TEXT_GENERATION => 1 | DOCUMENT_PROCESSING => 2
  | EMBEDDING_GENERATION => 3 | INFORMATION_RETRIEVAL => 4
  | DIALOGUE_MANAGEMENT => 5 | AUTHENTICATION => 6 | AUTHORIZATION => 7
  | MONITORING => 8
  end%nat.

Definition AgentCapability_decode (n : nat) : AgentCapability :=
  match n with
  | 0 => ORCHESTRATION | 1 => TEXT_GENERATION | 2 => DOCUMENT_PROCESSING
  | 3 => EMBEDDING_GENERATION | 4 => INFORMATION_RETRIEVAL
  | 5 => DIALOGUE_MANAGEMENT | 6 => AUTHENTICATION | 7 => AUTHORIZATION
  | _ => MONITORING
  end%nat.

#[global] Instance AgentCapability_countable : Countable AgentCapability.
Proof.
  apply (inj_countable' AgentCapability_code AgentCapability_decode).
  intros []; reflexivity.
Defined.

(** [AgentCapabilityRegistry._registry], a class attribute: one dictionary
    for the whole program. *)
Definition Registry := list (string * gset AgentCapability).

Definition _registry : Registry :=
  [("orchestrator", {[ORCHESTRATION]});
   ("llm", {[TEXT_GENERATION]});
   ("document_processing", {[DOCUMENT_PROCESSING; EMBEDDING_GENERATION]});
   ("information_retrieval", {[INFORMATION_RETRIEVAL]});
   ("dialogue", {[DIALOGUE_MANAGEMENT]});
   ("security", {[AUTHENTICATION; AUTHORIZATION]})].

Definition get_capabilities (registry : Registry) (agent_type : string)
    : gset AgentCapability :=
  default ∅ (PyDict.get agent_type registry).

Definition get_agent_for_capability (registry : Registry) (capability : AgentCapability)
    : list string :=
  map fst (filter (fun item => capability ∈ snd item) registry).

Definition register_capabilities (agent_type : string)
    (capabilities : gset AgentCapability) (registry : Registry) : Registry :=
  PyDict.set agent_type capabilities registry.

End AgentTypes.

(** The chunks of a batch that write the vector of [(d, k)], in the order of
    the batch. *)
Definition embedded_as `{External} (d k : string)
    (chunks : list Retriever.DocumentChunk) : list Retriever.DocumentChunk :=
  List.filter
    (fun c => Retriever.has_embedding c && bool_decide (Retriever.chunk_id c = k))
    (chunks_of d chunks).

(** ** core/agents/information_retrieval_agent.py: [_handle_index_document] *)

Module Indexing.

Section Handler.

Context `{External}.

(** [self.agent_type] *)
Variable agent_type : AgentType.

(** The list comprehension that calls the constructor of [DocumentChunk] on
    each item of [chunks_data]: the validation of the data class is taken
    from outside; it gives the chunks, or raises at the first item it
    rejects. *)
Variable chunks_from : Value -> Res (list Retriever.DocumentChunk).

Abbreviation Agent := InformationRetrievalAgent.Agent.

Definition set_retriever (retriever : Retriever.VectorRetriever) (self : Agent) : Agent :=
  {| InformationRetrievalAgent.world := InformationRetrievalAgent.world self;
     InformationRetrievalAgent.retriever := retriever;
     InformationRetrievalAgent.query_cache :=
       InformationRetrievalAgent.query_cache self |}.

Definition missing (message : Message) (text : string) : St Agent unit :=
  do_ InformationRetrievalAgent.lift
        (BaseAgent.send_error agent_type (sender message) text (Some (id message)));
  ret tt.

Definition _handle_index_document (message : Message) : St Agent unit :=
  let document_id := PyDict.get "document_id" (Schema.content message) in
  let chunks_data := default (VList []) (PyDict.get "chunks" (Schema.content message)) in
  if negb (truthy_opt document_id) then missing message "Missing document_id parameter"
  else if negb (truthy chunks_data) then missing message "Missing chunks parameter"
  else
    try_except
      (do chunks <- (fun self => (chunks_from chunks_data, self));
       do_ modify (fun self =>
             set_retriever
               (Retriever.add_documents (InformationRetrievalAgent.retriever self) chunks)
               self);
       do_ InformationRetrievalAgent.lift
             (BaseAgent.send_response agent_type message
                [("status", VStr "success");
                 ("document_id", default VNone document_id);
                 ("num_chunks_indexed", VInt (Z.of_nat (length chunks)))]);
       ret tt)
      (fun e =>
         do_ InformationRetrievalAgent.lift
               (modify (add_log (LogError ("Error indexing document: " +:+ e))));
         do_ InformationRetrievalAgent.lift
               (BaseAgent.send_error agent_type (sender message)
                  ("Error indexing document: " +:+ e) (Some (id message)));
         ret tt).

End Handler.

End Indexing.

(** One turn of the loop of a retrieval agent that holds the index
    [retriever] and the cache [query_cache]. *)
Definition retrieval_agent_turn `{External}
    (retriever : Retriever.VectorRetriever)
    (query_cache : gmap string InformationRetrievalAgent.CacheEntry)
    (_handle_retrieve _handle_index_document _handle_clear_cache :
       Message -> St InformationRetrievalAgent.Agent unit) : M unit :=
  BaseAgent.process_one INFORMATION_RETRIEVAL
    (fun message w =>
       let '(r, self) :=
         InformationRetrievalAgent.handle_message INFORMATION_RETRIEVAL
           _handle_retrieve _handle_index_document _handle_clear_cache message
           {| InformationRetrievalAgent.world := w;
              InformationRetrievalAgent.retriever := retriever;
              InformationRetrievalAgent.query_cache := query_cache |} in
       (r, InformationRetrievalAgent.world self)).

(** * Properties *)

(** ** Running computations *)

Section Running.

Context {S A B : Type}.

Lemma bind_ok (c : St S A) (k : A -> St S B) s a s1 :
  c s = (Ok a, s1) -> bind c k s = k a s1.
Proof. unfold bind. intros ->. reflexivity. Qed.

Lemma bind_raise (c : St S A) (k : A -> St S B) s e s1 :
  c s = (Raise e, s1) -> bind c k s = (Raise e, s1).
Proof. unfold bind. intros ->. reflexivity. Qed.

End Running.

(** Membership in the empty list. *)
Ltac no_elem H := apply elem_of_nil in H; destruct H.

(** ** The broker *)

Section BrokerFacts.

Implicit Types (w : World) (m : Message) (cb : Callback).

Lemma call_calls cb m w :
  calls (snd (Broker.call cb m w)) = calls w ++ [(cb, m)].
Proof. destruct cb as [a | c | [e|]]; reflexivity. Qed.

Lemma call_message_broker cb m w :
  message_broker (snd (Broker.call cb m w)) = message_broker w.
Proof. destruct cb as [a | c | [e|]]; reflexivity. Qed.

Lemma call_published cb m w :
  published (snd (Broker.call cb m w)) = published w.
Proof. destruct cb as [a | c | [e|]]; reflexivity. Qed.

Lemma guarded_call cb m w :
  let guarded := try_except (Broker.call cb m)
    (fun e => modify (add_log
       (LogError ("Error delivering message to subscriber: " +:+ e)))) in
  fst (guarded w) = Ok tt
  /\ calls (snd (guarded w)) = calls w ++ [(cb, m)]
  /\ message_broker (snd (guarded w)) = message_broker w
  /\ published (snd (guarded w)) = published w.
Proof. destruct cb as [a | c | [e|]]; repeat split. Qed.

Lemma deliver_spec subs m w :
  fst (Broker.deliver subs m w) = Ok tt
  /\ calls (snd (Broker.deliver subs m w)) = calls w ++ map (fun cb => (cb, m)) subs
  /\ message_broker (snd (Broker.deliver subs m w)) = message_broker w
  /\ published (snd (Broker.deliver subs m w)) = published w.
Proof.
  revert w. induction subs as [| cb rest IH]; intros w.
  - simpl. rewrite app_nil_r. auto.
  - destruct (guarded_call cb m w) as (Hok & Hcalls & Hb & Hp).
    cbn [Broker.deliver].
    destruct (try_except _ _ w) as [[[] | e] w1] eqn:E; simpl in *; try discriminate.
    rewrite (bind_ok _ _ _ _ _ E).
    destruct (IH w1) as (IHok & IHcalls & IHb & IHp).
    rewrite IHok, IHcalls, IHb, IHp, Hcalls, Hb, Hp.
    rewrite <- app_assoc. auto.
Qed.

Lemma publish_unfold m w :
  Broker.publish m w =
  match Broker.routed_handler (message_broker w) m with
  | Some handler => Broker.call handler m (add_published m w)
  | None =>
      match default [] (subscribers (message_broker w) !! receiver m) with
      | [] => (Ok tt, add_log (LogWarning
                 ("No subscribers for agent " +:+ format_AgentType (receiver m)))
                 (add_published m w))
      | cb :: rest => Broker.deliver (cb :: rest) m (add_published m w)
      end
  end.
Proof.
  unfold Broker.publish, bind, modify, gets. simpl.
  destruct (Broker.routed_handler _ m); [reflexivity |].
  destruct (default [] _); reflexivity.
Qed.

Lemma publish_message_broker m w :
  message_broker (snd (Broker.publish m w)) = message_broker w.
Proof.
  rewrite publish_unfold.
  destruct (Broker.routed_handler _ m) as [h |].
  - rewrite call_message_broker. reflexivity.
  - destruct (default [] _) as [| cb rest]; [reflexivity |].
    destruct (deliver_spec (cb :: rest) m (add_published m w)) as (_ & _ & Hb & _).
    rewrite Hb. reflexivity.
Qed.

Lemma publish_published m w :
  published (snd (Broker.publish m w)) = published w ++ [m].
Proof.
  rewrite publish_unfold.
  destruct (Broker.routed_handler _ m) as [h |].
  - rewrite call_published. reflexivity.
  - destruct (default [] _) as [| cb rest]; [reflexivity |].
    destruct (deliver_spec (cb :: rest) m (add_published m w)) as (_ & _ & _ & Hp).
    rewrite Hp. reflexivity.
Qed.

Lemma routed_handler_correlated (b : MessageBroker) m cid :
  message_type m = RESPONSE \/ message_type m = ERROR ->
  correlation_id m = Some cid -> cid <> "" ->
  Broker.routed_handler b m = response_handlers b !! cid.
Proof.
  intros Hty Hcid Hne. unfold Broker.routed_handler. rewrite Hcid.
  destruct Hty as [-> | ->]; simpl; rewrite bool_decide_eq_false_2 by exact Hne;
    reflexivity.
Qed.

End BrokerFacts.

(** C1, as the code has it.  A RESPONSE or ERROR with a non-empty
    [correlation_id] under which a handler is registered is handed to that
    handler and to no subscriber.  When no handler is registered under it, the
    message takes the ordinary path: every subscriber of its receiver is
    invoked on it, in order, and it is logged and dropped only when the
    receiver has no subscriber. *)
Theorem publish_correlated_routing (w : World) (m : Message) (cid : string) :
  message_type m = RESPONSE \/ message_type m = ERROR ->
  correlation_id m = Some cid ->
  cid <> "" ->
  let w' := snd (Broker.publish m w) in
  let subs := default [] (subscribers (message_broker w) !! receiver m) in
  match response_handlers (message_broker w) !! cid with
  | Some handler =>
      calls w' = calls w ++ [(handler, m)]
  | None =>
      fst (Broker.publish m w) = Ok tt
      /\ calls w' = calls w ++ map (fun cb => (cb, m)) subs
      /\ (subs = [] -> log w' = log w ++
        [LogWarning ("No subscribers for agent " +:+ format_AgentType (receiver m))])
  end.
Proof.
  intros Hty Hcid Hne w' subs. subst w'.
  rewrite publish_unfold, (routed_handler_correlated _ m cid Hty Hcid Hne).
  destruct (response_handlers (message_broker w) !! cid) as [h |].
  - rewrite call_calls. reflexivity.
  - subst subs. destruct (default [] _) as [| cb rest] eqn:E.
    + simpl. rewrite app_nil_r. auto.
    + destruct (deliver_spec (cb :: rest) m (add_published m w)) as (Hok & Hc & _ & _).
      rewrite Hok, Hc. repeat split. discriminate.
Qed.

Lemma publish_correlated_routing_witness :
  calls (snd (Broker.publish Examples.late_response Examples.dialogue_started))
  = calls Examples.dialogue_started
    ++ map (fun cb => (cb, Examples.late_response)) [receive_message DIALOGUE].
Proof.
  pose proof (publish_correlated_routing Examples.dialogue_started
                Examples.late_response "1699999990.5"
                (or_introl eq_refl) eq_refl ltac:(discriminate)) as H.
  simpl in H. destruct H as (_ & H & _). exact H.
Defined.

(** C1 as stated fails: a RESPONSE whose [correlation_id] has no registered
    handler is delivered to the subscriber of its receiver. *)
Lemma publish_unrouted_response_delivered :
  message_type Examples.late_response = RESPONSE
  /\ correlation_id Examples.late_response = Some "1699999990.5"
  /\ response_handlers (message_broker Examples.dialogue_started) !! "1699999990.5" = None
  /\ calls (snd (Broker.publish Examples.late_response Examples.dialogue_started))
     = [(receive_message DIALOGUE, Examples.late_response)]
  /\ inbox (snd (Broker.publish Examples.late_response Examples.dialogue_started))
       !! DIALOGUE = Some [Examples.late_response].
Proof. repeat split; vm_compute; reflexivity. Qed.

(** C8.  A message that is not routed to a response handler (it is neither a
    RESPONSE nor an ERROR, or no handler is registered under its
    [correlation_id]) and whose receiver has no subscriber: [publish] returns
    normally, invokes no callback, so that nothing can hold it, and leaves the
    subscriber table and the response-handler table as they were; the drop is
    logged. *)
Theorem publish_without_subscribers (w : World) (m : Message) :
  (message_type m <> RESPONSE /\ message_type m <> ERROR)
  \/ (forall cid, correlation_id m = Some cid ->
        response_handlers (message_broker w) !! cid = None) ->
  default [] (subscribers (message_broker w) !! receiver m) = [] ->
  let w' := snd (Broker.publish m w) in
  fst (Broker.publish m w) = Ok tt
  /\ subscribers (message_broker w') = subscribers (message_broker w)
  /\ response_handlers (message_broker w') = response_handlers (message_broker w)
  /\ calls w' = calls w
  /\ inbox w' = inbox w
  /\ cells w' = cells w
  /\ log w' = log w ++
        [LogWarning ("No subscribers for agent " +:+ format_AgentType (receiver m))].
Proof.
  intros Hroute Hsubs w'. subst w'.
  assert (Broker.routed_handler (message_broker w) m = None) as Hnone.
  { unfold Broker.routed_handler.
    destruct Hroute as [[Hr He] | Hno].
    - rewrite !bool_decide_eq_false_2 by assumption. reflexivity.
    - destruct (_ || _); [| reflexivity].
      destruct (correlation_id m) as [cid |]; [| reflexivity].
      rewrite (Hno cid eq_refl). destruct (bool_decide _); reflexivity. }
  rewrite publish_unfold, Hnone, Hsubs. simpl. repeat split.
Qed.

Lemma publish_without_subscribers_witness :
  fst (Broker.publish Examples.late_response Examples.empty_world) = Ok tt
  /\ message_broker (snd (Broker.publish Examples.late_response Examples.empty_world))
     = message_broker Examples.empty_world.
Proof.
  destruct (publish_without_subscribers Examples.empty_world Examples.late_response)
    as (Hok & Hs & Hr & _).
  - right. intros cid _. reflexivity.
  - reflexivity.
  - split; [exact Hok |].
    destruct (message_broker (snd _)) as [s r], (message_broker Examples.empty_world).
    simpl in *. congruence.
Defined.

(** ** The agent runtime *)

Section WaitFacts.

Implicit Types (w : World) (m : Message).

Lemma wait_spec cell (others : list (M unit)) w :
  exists arrived w',
    BaseAgent.wait cell others w = (Ok arrived, w')
    /\ BaseAgent.event_is_set cell w' = arrived.
Proof.
  revert w. induction others as [| step rest IH]; intros w; simpl;
    unfold bind, gets; simpl.
  - destruct (BaseAgent.event_is_set cell w) eqn:E; eauto.
  - destruct (BaseAgent.event_is_set cell w) eqn:E; [eauto |].
    apply IH.
Qed.

Lemma wait_unset cell step rest w :
  BaseAgent.event_is_set cell w = false ->
  BaseAgent.wait cell (step :: rest) w = BaseAgent.wait cell rest (snd (step w)).
Proof.
  intros H. cbn [BaseAgent.wait]. unfold bind at 1, gets. rewrite H.
  unfold bind, BaseAgent.in_other_thread. reflexivity.
Qed.

Lemma wait_timeout cell w :
  BaseAgent.event_is_set cell w = false ->
  BaseAgent.wait cell [] w = (Ok false, w).
Proof. intros H. cbn [BaseAgent.wait]. unfold bind, gets. rewrite H. reflexivity. Qed.

Lemma wait_set cell others w :
  BaseAgent.event_is_set cell w = true ->
  BaseAgent.wait cell others w = (Ok true, w).
Proof.
  intros H. destruct others; cbn [BaseAgent.wait]; unfold bind, gets; rewrite H;
    reflexivity.
Qed.

Lemma run_others_cons step rest w :
  run_others (step :: rest) w = run_others rest (snd (step w)).
Proof. reflexivity. Qed.

Lemma run_others_snoc before step w :
  run_others (before ++ [step]) w = snd (step (run_others before w)).
Proof. unfold run_others. rewrite fold_left_app. reflexivity. Qed.

(** The wait ends in the first world, among those the other threads produce,
    in which the event is set. *)
Lemma wait_reaches cell others : forall (n : nat) w,
  (n <= length others)%nat ->
  (forall i, (i < n)%nat ->
     BaseAgent.event_is_set cell (run_others (take i others) w) = false) ->
  BaseAgent.event_is_set cell (run_others (take n others) w) = true ->
  BaseAgent.wait cell others w = (Ok true, run_others (take n others) w).
Proof.
  induction others as [| step rest IH]; intros n w Hn Hbefore Hset.
  - destruct n; [| simpl in Hn; lia]. apply wait_set. exact Hset.
  - destruct n as [| n].
    + rewrite take_0 in *. apply wait_set. exact Hset.
    + assert (BaseAgent.event_is_set cell w = false) as H0
        by (apply (Hbefore 0%nat); lia).
      rewrite (wait_unset _ _ _ _ H0). cbn [take]. rewrite run_others_cons.
      apply IH.
      * simpl in Hn. lia.
      * intros i Hi. specialize (Hbefore (S i) ltac:(lia)).
        cbn [take] in Hbefore. rewrite run_others_cons in Hbefore. exact Hbefore.
      * cbn [take] in Hset. rewrite run_others_cons in Hset. exact Hset.
Qed.

(** The wait expires when the event is set in none of these worlds. *)
Lemma wait_expires cell others : forall w,
  (forall i, (i <= length others)%nat ->
     BaseAgent.event_is_set cell (run_others (take i others) w) = false) ->
  BaseAgent.wait cell others w = (Ok false, run_others others w).
Proof.
  induction others as [| step rest IH]; intros w Hunset.
  - apply wait_timeout. apply (Hunset 0%nat). simpl. lia.
  - assert (BaseAgent.event_is_set cell w = false) as H0
      by (apply (Hunset 0%nat); lia).
    rewrite (wait_unset _ _ _ _ H0). rewrite run_others_cons.
    apply IH. intros i Hi. specialize (Hunset (S i) ltac:(simpl; lia)).
    cbn [take] in Hunset. rewrite run_others_cons in Hunset. exact Hunset.
Qed.

Lemma unregister_lookup cid w :
  response_handlers
    (message_broker (snd (Broker.unregister_response_handler cid w))) !! cid = None.
Proof. simpl. apply lookup_delete_eq. Qed.

Lemma request_registered_lookup m w :
  response_handlers (message_broker (request_registered m w)) !! id m
  = Some (response_handler (fresh (dom (cells w)))).
Proof. simpl. apply lookup_insert_eq. Qed.

Lemma send_message_and_wait_unfold m others w :
  BaseAgent.send_message_and_wait m others w =
  try_finally
    (do_ BaseAgent.send_message m;
     do arrived <- BaseAgent.wait (fresh (dom (cells w))) others;
     if arrived : bool
     then gets (BaseAgent.container_response (fresh (dom (cells w))))
     else
       do_ modify (add_log (LogWarning
             ("Timeout waiting for response to message " +:+ id m)));
       ret None)
    (Broker.unregister_response_handler (id m))
    (request_registered m w).
Proof. reflexivity. Qed.

End WaitFacts.

(** C3.  [send_message_and_wait] registers its handler under [message.id]
    before it publishes the message; it returns what the handler stored when
    the event is set before the timeout, and [None] (with a warning) when it
    is not; and on every way out (a response, the timeout, an exception of
    [publish]) no handler is left under [message.id].  The wait is pinned by
    the worlds the other threads produce, [run_others (take n others) w2] for
    the steps they complete before the timeout: the call returns the message
    stored in the first of these worlds in which the event is set, leaving
    that world with the handler removed (the later steps are not awaited);
    it returns [None] when the event is set in none of them. *)
Theorem send_message_and_wait_spec (m : Message) (others : list (M unit)) (w : World) :
  let cell := fresh (dom (cells w)) in
  let w1 := request_registered m w in
  let run := BaseAgent.send_message_and_wait m others w in
  response_handlers (message_broker w1) !! id m = Some (response_handler cell)
  /\ (forall reply w0,
        let stored := snd (Broker.call (response_handler cell) reply w0) in
        BaseAgent.container_response cell stored = Some reply
        /\ BaseAgent.event_is_set cell stored = true)
  /\ response_handlers (message_broker (snd run)) !! id m = None
  /\ match Broker.publish m w1 with
     | (Raise e, w2) => run = (Raise e, handler_removed (id m) w2)
     | (Ok _, w2) =>
         (exists arrived w3,
            BaseAgent.wait cell others w2 = (Ok arrived, w3)
            /\ BaseAgent.event_is_set cell w3 = arrived
            /\ fst run =
               Ok (if arrived then BaseAgent.container_response cell w3 else None)
            /\ (arrived = false ->
                log (snd run) = log w3 ++
                  [LogWarning ("Timeout waiting for response to message " +:+ id m)]))
         /\ (forall n : nat,
               (n <= length others)%nat ->
               (forall i : nat, (i < n)%nat ->
                  BaseAgent.event_is_set cell (run_others (take i others) w2) = false) ->
               BaseAgent.event_is_set cell (run_others (take n others) w2) = true ->
               let answered := run_others (take n others) w2 in
               run = (Ok (BaseAgent.container_response cell answered),
                      handler_removed (id m) answered))
         /\ ((forall i : nat, (i <= length others)%nat ->
                 BaseAgent.event_is_set cell (run_others (take i others) w2) = false) ->
             run = (Ok None,
                    handler_removed (id m)
                      (add_log (LogWarning
                         ("Timeout waiting for response to message " +:+ id m))
                         (run_others others w2))))
     end.
Proof.
  intros cell w1 run.
  split; [apply request_registered_lookup |].
  split.
  { intros reply w0 stored. subst stored.
    unfold BaseAgent.container_response, BaseAgent.event_is_set. simpl.
    rewrite lookup_insert_eq. split; reflexivity. }
  subst run. rewrite send_message_and_wait_unfold. fold cell. fold w1.
  unfold try_finally.
  match goal with |- context [match ?body w1 with _ => _ end] =>
    destruct (body w1) as [r wb] eqn:Hbody end.
  change (Broker.unregister_response_handler (id m) wb)
    with (@Ok unit tt, handler_removed (id m) wb).
  cbv beta iota.
  split; [apply lookup_delete_eq |].
  destruct (Broker.publish m w1) as [[[] | e] w2] eqn:Hpub.
  - assert (BaseAgent.send_message m w1 = (Ok (id m), w2)) as Hsend
      by (unfold BaseAgent.send_message; rewrite (bind_ok _ _ _ _ _ Hpub); reflexivity).
    rewrite (bind_ok _ _ _ _ _ Hsend) in Hbody.
    split; [| split].
    + destruct (wait_spec cell others w2) as (arrived & w3 & Hwait & Hset).
      exists arrived, w3. rewrite (bind_ok _ _ _ _ _ Hwait) in Hbody.
      split; [exact Hwait |]. split; [exact Hset |].
      destruct arrived; simpl in Hbody; inversion Hbody; subst; simpl.
      * split; [reflexivity | discriminate].
      * split; reflexivity.
    + intros n Hn Hbefore Hset. cbv zeta.
      rewrite (bind_ok _ _ _ _ _ (wait_reaches cell others n w2 Hn Hbefore Hset))
        in Hbody.
      unfold gets in Hbody. inversion Hbody; subst. reflexivity.
    + intros Hunset.
      rewrite (bind_ok _ _ _ _ _ (wait_expires cell others w2 Hunset)) in Hbody.
      unfold bind, modify, ret in Hbody. inversion Hbody; subst. reflexivity.
  - assert (BaseAgent.send_message m w1 = (Raise e, w2)) as Hsend
      by (unfold BaseAgent.send_message; rewrite (bind_raise _ _ _ _ _ Hpub); reflexivity).
    rewrite (bind_raise _ _ _ _ _ Hsend) in Hbody.
    inversion Hbody; subst. reflexivity.
Qed.

(** A response published by another thread during the wait is returned. *)
Example send_message_and_wait_answered :
  fst (BaseAgent.send_message_and_wait Examples.retrieval_request
         [Broker.publish Examples.retrieval_response] Examples.empty_world)
  = Ok (Some Examples.retrieval_response).
Proof. vm_compute. reflexivity. Qed.

(** Nothing arrives before the timeout: the result is [None]. *)
Example send_message_and_wait_timeout :
  fst (BaseAgent.send_message_and_wait Examples.retrieval_request []
         Examples.empty_world)
  = Ok None.
Proof. vm_compute. reflexivity. Qed.

(** The message is itself a reply routed to a handler that raises: the
    exception leaves [send_message_and_wait], and its own handler is removed. *)
Example send_message_and_wait_exception :
  let w := snd (Broker.register_response_handler "1699999998.25"
                  (foreign (Some "boom")) Examples.empty_world) in
  let reply := Examples.retrieval_response in
  let run := BaseAgent.send_message_and_wait reply [] w in
  fst run = Raise "boom"
  /\ response_handlers (message_broker (snd run)) !! id reply = None.
Proof. vm_compute. split; reflexivity. Qed.

Section LoopFacts.

Variable agent_type : AgentType.
Variable handle_message : Message -> M unit.

Implicit Types (w : World) (m : Message).

Lemma new_Message_run s r ty c cid p w :
  new_Message s r ty c cid p w =
  (Ok (Message_init (clock w (ticks w)) (clock w (S (ticks w))) s r ty c cid p),
   tick (tick w)).
Proof. reflexivity. Qed.

Lemma send_message_published m w :
  published (snd (BaseAgent.send_message m w)) = published w ++ [m].
Proof.
  unfold BaseAgent.send_message.
  pose proof (publish_published m w) as Hp.
  destruct (Broker.publish m w) as [[[] | e] w'] eqn:E.
  - rewrite (bind_ok _ _ _ _ _ E). exact Hp.
  - rewrite (bind_raise _ _ _ _ _ E). exact Hp.
Qed.

Lemma send_error_published a r e cid w :
  published (snd (BaseAgent.send_error a r e cid w)) =
  published w ++
    [Message_init (clock w (ticks w)) (clock w (S (ticks w))) a r ERROR
       [("error", VStr e)] cid MEDIUM].
Proof.
  unfold BaseAgent.send_error.
  rewrite (bind_ok _ _ _ _ _ (new_Message_run _ _ _ _ _ _ w)).
  rewrite send_message_published. reflexivity.
Qed.

Lemma send_response_published a original c w :
  published (snd (BaseAgent.send_response a original c w)) =
  published w ++
    [Message_init (clock w (ticks w)) (clock w (S (ticks w))) a (sender original)
       RESPONSE c (Some (id original)) MEDIUM].
Proof.
  unfold BaseAgent.send_response.
  rewrite (bind_ok _ _ _ _ _ (new_Message_run _ _ _ _ _ _ w)).
  rewrite send_message_published. reflexivity.
Qed.

(** [publish] raises nothing but what a response handler raises. *)
Lemma publish_raises_exception m w e :
  fst (Broker.publish m w) = Raise e -> exists text, e = Exception text.
Proof.
  rewrite publish_unfold.
  destruct (Broker.routed_handler (message_broker w) m) as [handler |].
  - destruct handler as [a | cell | [text |]]; try discriminate.
    intros [= <-]. eauto.
  - destruct (default [] (subscribers (message_broker w) !! receiver m))
      as [| cb subs]; [discriminate |].
    destruct (deliver_spec (cb :: subs) m (add_published m w)) as [Hok _].
    rewrite Hok. discriminate.
Qed.

Lemma send_error_raises_exception a r text cid w e :
  fst (BaseAgent.send_error a r text cid w) = Raise e -> exists text', e = Exception text'.
Proof.
  unfold BaseAgent.send_error.
  rewrite (bind_ok _ _ _ _ _ (new_Message_run _ _ _ _ _ _ w)).
  unfold BaseAgent.send_message, bind.
  match goal with |- context [Broker.publish ?x ?w0] =>
    pose proof (publish_raises_exception x w0) as Hp;
    destruct (Broker.publish x w0) as [[[] | e0] w1]
  end; [discriminate |].
  intros [= <-]. apply Hp. reflexivity.
Qed.

(** What is queued stays queued, at the head of the queue, through a call of
    a callback, a delivery and a [publish]. *)
Lemma call_keeps_queue cb m w a :
  default [] (inbox w !! a) `prefix_of` default [] (inbox (snd (Broker.call cb m w)) !! a).
Proof.
  destruct cb as [b | cell | [text |]]; cbn; try reflexivity.
  destruct (decide (b = a)) as [-> | Hne].
  - rewrite lookup_insert_eq. cbn. apply prefix_app_r. reflexivity.
  - rewrite lookup_insert_ne by exact Hne. reflexivity.
Qed.

Lemma deliver_keeps_queue subs m w a :
  default [] (inbox w !! a)
    `prefix_of` default [] (inbox (snd (Broker.deliver subs m w)) !! a).
Proof.
  revert w. induction subs as [| cb subs IH]; intros w; [reflexivity |].
  cbn [Broker.deliver]. unfold bind, try_except.
  pose proof (call_keeps_queue cb m w a) as Hcall.
  destruct (Broker.call cb m w) as [[[] | [text | text]] w1]; cbn [snd] in Hcall; cbn.
  - etransitivity; [exact Hcall | apply IH].
  - etransitivity; [exact Hcall |]. apply (IH (add_log _ w1)).
  - exact Hcall.
Qed.

Lemma publish_keeps_queue m w a :
  default [] (inbox w !! a) `prefix_of` default [] (inbox (snd (Broker.publish m w)) !! a).
Proof.
  rewrite publish_unfold.
  destruct (Broker.routed_handler (message_broker w) m) as [handler |].
  - apply (call_keeps_queue handler m (add_published m w) a).
  - destruct (default [] (subscribers (message_broker w) !! receiver m))
      as [| cb subs]; [reflexivity |].
    apply (deliver_keeps_queue (cb :: subs) m (add_published m w) a).
Qed.

Lemma send_error_keeps_queue b r text cid w a :
  default [] (inbox w !! a)
    `prefix_of` default [] (inbox (snd (BaseAgent.send_error b r text cid w)) !! a).
Proof.
  unfold BaseAgent.send_error.
  rewrite (bind_ok _ _ _ _ _ (new_Message_run _ _ _ _ _ _ w)).
  unfold BaseAgent.send_message, bind.
  match goal with |- context [Broker.publish ?x ?w0] =>
    pose proof (publish_keeps_queue x w0 a) as Hp;
    destruct (Broker.publish x w0) as [[[] | e0] w1]
  end; exact Hp.
Qed.

(** The loop makes its next turn from the world a turn left, and stops at a
    turn that lets an exception through. *)
Lemma process_messages_step turns w :
  BaseAgent.process_messages agent_type handle_message (S turns) w =
  match BaseAgent.process_one agent_type handle_message w with
  | (Ok _, w1) => BaseAgent.process_messages agent_type handle_message turns w1
  | (Raise e, w1) => (Raise e, w1)
  end.
Proof.
  cbn [BaseAgent.process_messages]. unfold bind.
  destruct (BaseAgent.process_one agent_type handle_message w) as [[[] | e] w1];
    reflexivity.
Qed.

(** The turn on a dequeued message whose handler returns, or raises an
    [Exception]. *)
Lemma process_message_returns m w :
  (forall text, fst (handle_message m
                       (add_log (LogDebug ("Processing message: " +:+ id m +:+ " from "
                                             +:+ format_AgentType (sender m))) w))
                <> Raise (BaseException text)) ->
  forall text,
    fst (BaseAgent.process_message agent_type handle_message m w)
    <> Raise (BaseException text).
Proof.
  intros Hhandler text. unfold BaseAgent.process_message, bind, modify, try_except.
  set (w0 := add_log _ w) in *.
  destruct (handle_message m w0) as [[[] | [e | e]] w1] eqn:Hrun; cbv beta iota.
  - discriminate.
  - destruct (bool_decide (message_type m = COMMAND)); [| discriminate].
    unfold ret.
    match goal with |- context [BaseAgent.send_error ?a ?r ?t ?c ?w2] =>
      pose proof (send_error_raises_exception a r t c w2) as Hp;
      destruct (BaseAgent.send_error a r t c w2) as [[s | e'] w3]
    end; [discriminate |].
    destruct (Hp e' eq_refl) as [text' ->]. discriminate.
  - destruct (Hhandler e eq_refl).
Qed.

Lemma process_one_returns w :
  (forall m w0 text, fst (handle_message m w0) <> Raise (BaseException text)) ->
  fst (BaseAgent.process_one agent_type handle_message w) = Ok tt.
Proof.
  intros Hhandler. unfold BaseAgent.process_one, bind.
  destruct (BaseAgent.inbox_get agent_type w) as [[[m |] | e] w0] eqn:E.
  - unfold try_except.
    pose proof (process_message_returns m w0 (fun text => Hhandler m _ text)) as Hp.
    destruct (BaseAgent.process_message agent_type handle_message m w0)
      as [[[] | [text | text]] w1]; try reflexivity.
    destruct (Hp text eq_refl).
  - reflexivity.
  - unfold BaseAgent.inbox_get in E.
    destruct (inbox w !! agent_type) as [[| ? ?] |]; discriminate.
Qed.

Lemma process_messages_returns turns w :
  (forall m w0 text, fst (handle_message m w0) <> Raise (BaseException text)) ->
  fst (BaseAgent.process_messages agent_type handle_message turns w) = Ok tt.
Proof.
  intros Hhandler. revert w. induction turns as [| n IH]; intros w; [reflexivity |].
  rewrite process_messages_step.
  pose proof (process_one_returns w Hhandler) as Hok.
  destruct (BaseAgent.process_one agent_type handle_message w) as [[[] | e] w1];
    [apply IH | discriminate].
Qed.

(** The turn on a message on which the handler raises the [Exception] [e]. *)
Lemma process_one_failure w m rest (e : string) w1 :
  inbox w !! agent_type = Some (m :: rest) ->
  handle_message m
    (add_log (LogDebug ("Processing message: " +:+ id m +:+ " from "
                          +:+ format_AgentType (sender m)))
       (set_inbox (<[agent_type := rest]> (inbox w)) w))
  = (Raise (Exception e), w1) ->
  let logged := add_log (LogError ("Error handling message " +:+ id m +:+ ": " +:+ e)) w1 in
  BaseAgent.process_one agent_type handle_message w =
  if bool_decide (message_type m = COMMAND)
  then
    match BaseAgent.send_error agent_type (sender m)
            ("Error processing command: " +:+ e) (Some (id m)) logged with
    | (Ok _, w2) => (Ok tt, w2)
    | (Raise (Exception e'), w2) =>
        (Ok tt, add_log (LogError ("Error in message processing loop: " +:+ e')) w2)
    | (Raise e', w2) => (Raise e', w2)
    end
  else (Ok tt, logged).
Proof.
  intros Hin Hraise logged.
  unfold BaseAgent.process_one.
  assert (BaseAgent.inbox_get agent_type w
          = (Ok (Some m), set_inbox (<[agent_type := rest]> (inbox w)) w)) as Hget
    by (unfold BaseAgent.inbox_get; rewrite Hin; reflexivity).
  rewrite (bind_ok _ _ _ _ _ Hget).
  unfold BaseAgent.process_message, try_except, bind, modify, ret.
  rewrite Hraise. fold logged.
  destruct (bool_decide (message_type m = COMMAND)); [| reflexivity].
  destruct (BaseAgent.send_error agent_type (sender m)
              ("Error processing command: " +:+ e) (Some (id m)) logged)
    as [[s | [e' | e']] w2]; reflexivity.
Qed.

End LoopFacts.

(** C4.  A failure of the handler that is an [Exception] never ends the
    loop.  The loop makes its next turn from the world a turn left, and a
    handler that raises nothing but [Exception]s never stops it.  When the
    handler raises the [Exception] [e] on a dequeued message, the turn ends
    normally; what was queued when the handler failed is still queued, in
    order and at the head of the queue, so the next turn takes the next
    message.  On a COMMAND the turn publishes one ERROR from the agent to the
    sender of the command, with content [{"error": "Error processing command: "
    + e}] and [correlation_id] the id of the command, and leaves the world
    as the sending of that ERROR left it; on another message it only logs the
    failure. *)
Theorem process_messages_survives_handler_failure
    (agent_type : AgentType) (handle_message : Message -> M unit) :
  (forall turns w,
     BaseAgent.process_messages agent_type handle_message (S turns) w =
     match BaseAgent.process_one agent_type handle_message w with
     | (Ok _, w1) => BaseAgent.process_messages agent_type handle_message turns w1
     | (Raise e, w1) => (Raise e, w1)
     end)
  /\ ((forall m w text, fst (handle_message m w) <> Raise (BaseException text)) ->
      forall turns w,
        fst (BaseAgent.process_messages agent_type handle_message turns w) = Ok tt)
  /\ (forall w m rest (e : string) w1,
        inbox w !! agent_type = Some (m :: rest) ->
        handle_message m
          (add_log (LogDebug ("Processing message: " +:+ id m +:+ " from "
                                +:+ format_AgentType (sender m)))
             (set_inbox (<[agent_type := rest]> (inbox w)) w))
        = (Raise (Exception e), w1) ->
        let turn := BaseAgent.process_one agent_type handle_message w in
        let logged :=
          add_log (LogError ("Error handling message " +:+ id m +:+ ": " +:+ e)) w1 in
        let sent :=
          BaseAgent.send_error agent_type (sender m)
            ("Error processing command: " +:+ e) (Some (id m)) logged in
        fst turn = Ok tt
        /\ default [] (inbox w1 !! agent_type)
             `prefix_of` default [] (inbox (snd turn) !! agent_type)
        /\ (message_type m = COMMAND ->
            published (snd turn) = published w1 ++
              [Message_init (clock w1 (ticks w1)) (clock w1 (S (ticks w1)))
                 agent_type (sender m) ERROR
                 [("error", VStr ("Error processing command: " +:+ e))]
                 (Some (id m)) MEDIUM]
            /\ snd turn =
               match fst sent with
               | Raise (Exception e') =>
                   add_log (LogError ("Error in message processing loop: " +:+ e'))
                     (snd sent)
               | _ => snd sent
               end)
        /\ (message_type m <> COMMAND -> snd turn = logged)).
Proof.
  split; [| split].
  - apply process_messages_step.
  - intros Hhandler turns w. apply process_messages_returns, Hhandler.
  - intros w m rest e w1 Hin Hraise turn logged sent. subst turn.
    rewrite (process_one_failure agent_type handle_message w m rest e w1 Hin Hraise).
    fold logged. fold sent.
    pose proof (send_error_published agent_type (sender m)
                  ("Error processing command: " +:+ e) (Some (id m)) logged) as Hpub.
    pose proof (send_error_keeps_queue agent_type (sender m)
                  ("Error processing command: " +:+ e) (Some (id m)) logged agent_type)
      as Hqueue.
    pose proof (send_error_raises_exception agent_type (sender m)
                  ("Error processing command: " +:+ e) (Some (id m)) logged) as Hexc.
    fold sent in Hpub, Hqueue, Hexc.
    destruct (bool_decide (message_type m = COMMAND)) eqn:Hkind.
    + apply bool_decide_eq_true in Hkind.
      destruct sent as [[s | [e' | e']] w2]; cbn [fst snd] in *;
        try (destruct (Hexc _ eq_refl) as [text' Htext]; discriminate);
        (split; [reflexivity |]; split; [exact Hqueue |];
         split; [intros _; split; [exact Hpub | reflexivity] | intros Hne; contradiction]).
    + apply bool_decide_eq_false in Hkind. cbn [fst snd].
      split; [reflexivity |]. split; [reflexivity |].
      split; [intros Hcmd; contradiction | intros _; reflexivity].
Qed.

(** The handler fails on the first of two queued commands: the error goes
    back to the sender, correlated with the first command, and the second
    command is handled in the next turn. *)
Example process_messages_continues_after_failure :
  let run := BaseAgent.process_messages DIALOGUE Examples.failing_handler 3
               Examples.two_commands_queued in
  fst run = Ok tt
  /\ inbox (snd run) !! DIALOGUE = Some []
  /\ map (fun m => (message_type m, receiver m, content m, correlation_id m))
        (drop 2 (published (snd run)))
     = [(ERROR, ORCHESTRATOR,
         [("error", VStr "Error processing command: session store is down")],
         Some "1699999997.0")]
  /\ last (log (snd run)) = Some (LogInfo "handled 1699999997.5").
Proof. vm_compute. repeat split; reflexivity. Qed.

(** An exception that is not an [Exception] ends the loop: the handler exits
    on the first of two queued commands; the loop stops with that exception,
    nothing is sent to the sender of the command, and the second command
    stays in the queue, never handled. *)
Lemma process_messages_stopped_by_exit :
  let run := BaseAgent.process_messages DIALOGUE exiting_handler 3
               Examples.two_commands_queued in
  inbox Examples.two_commands_queued !! DIALOGUE
  = Some [Examples.first_command; Examples.second_command]
  /\ fst run = Raise (BaseException "SystemExit")
  /\ inbox (snd run) !! DIALOGUE = Some [Examples.second_command]
  /\ published (snd run) = published Examples.two_commands_queued.
Proof. vm_compute. repeat split; reflexivity. Qed.

(** ** Message identifiers *)

(** C9, as the code has it.  A construction always succeeds and the id it
    generates is the reading of the clock at that moment: two constructions
    get distinct ids exactly when their clock readings are distinct. *)
Theorem message_ids_distinct_iff_readings_distinct
    (s r s' r' : AgentType) (ty ty' : MessageType) (c c' : Dict)
    (cid cid' : option string) (p p' : MessagePriority) (w w' : World) :
  exists m m',
    fst (new_Message s r ty c cid p w) = Ok m
    /\ fst (new_Message s' r' ty' c' cid' p' w') = Ok m'
    /\ (id m <> id m' <-> clock w (ticks w) <> clock w' (ticks w')).
Proof.
  eexists _, _. rewrite !new_Message_run. simpl.
  split; [reflexivity |]. split; [reflexivity |]. reflexivity.
Qed.

(** C9 as stated fails: two constructions in a row, with different fields,
    under a clock that has not advanced, generate the same id. *)
Lemma message_ids_collide :
  exists m1 w1 m2 w2,
    new_Message DIALOGUE INFORMATION_RETRIEVAL COMMAND
      [("action", VStr "retrieve")] None HIGH Examples.coarse_clock_world
    = (Ok m1, w1)
    /\ new_Message INFORMATION_RETRIEVAL DIALOGUE RESPONSE
         [("results", VList [])] (Some (id m1)) MEDIUM w1
       = (Ok m2, w2)
    /\ sender m1 <> sender m2
    /\ id m1 = id m2.
Proof.
  eexists _, _, _, _. rewrite !new_Message_run.
  split; [reflexivity |]. split; [reflexivity |].
  split; [discriminate | reflexivity].
Qed.

(** ** The orchestrator *)

Section ForwardingFacts.

Variable agent_type : AgentType.

Implicit Types (w : World) (m : Message).

(** A command whose action starts with [retrieve_] or [search_] is forwarded
    to the retrieval agent under a new id, read from the clock; the id of the
    original is kept only in [correlation_id]. *)
Lemma dispatch_forwards_under_new_id registered m action w :
  PyDict.get "action" (content m) = Some (VStr action) ->
  String.prefix "process_document" action || String.prefix "get_document" action = false ->
  String.prefix "retrieve_" action || String.prefix "search_" action = true ->
  PyDict.mem INFORMATION_RETRIEVAL registered = true ->
  published (snd (OrchestratorAgent._dispatch_command agent_type registered m w)) =
  published w ++
    [Message_init (clock w (ticks w)) (clock w (S (ticks w))) agent_type
       INFORMATION_RETRIEVAL COMMAND (content m) (Some (id m)) (priority m)].
Proof.
  intros Hact Hdoc Hret Hreg. unfold OrchestratorAgent._dispatch_command.
  rewrite Hact, Hdoc, Hret, Hreg. cbn [negb].
  rewrite (bind_ok _ _ _ _ _ (new_Message_run _ _ _ _ _ _ w)).
  set (f := Message_init _ _ _ _ _ _ _ _).
  pose proof (send_message_published f (tick (tick w))) as Hp.
  destruct (BaseAgent.send_message f (tick (tick w))) as [[x | e] w'] eqn:E.
  - rewrite (bind_ok _ _ _ _ _ E). exact Hp.
  - rewrite (bind_raise _ _ _ _ _ E). exact Hp.
Qed.

(** The reply of a worker, by [send_response] or by [send_error] as every
    worker calls it, is correlated with the message the worker received. *)
Lemma worker_reply_correlation received c e w :
  (exists reply, last (published (snd (BaseAgent.send_response agent_type received c w)))
                 = Some reply
                 /\ correlation_id reply = Some (id received)
                 /\ receiver reply = sender received)
  /\ (exists reply, last (published (snd (BaseAgent.send_error agent_type
                                            (sender received) e (Some (id received)) w)))
                    = Some reply
                    /\ correlation_id reply = Some (id received)
                    /\ receiver reply = sender received).
Proof.
  split; eexists.
  - rewrite send_response_published, last_snoc. repeat split.
  - rewrite send_error_published, last_snoc. repeat split.
Qed.

End ForwardingFacts.

(** C2 fails on the code.  The dialogue agent sends a command to the
    orchestrator and waits; the orchestrator forwards it to the retrieval
    agent under a new id; the worker's reply is correlated with that new id
    and addressed to the orchestrator, whose loop drops it.  The handler of
    the caller is never invoked and the call ends with [None].  The same
    happens to a [route] command, whose reply goes to the caller's inbox. *)
Lemma forwarded_call_is_never_answered :
  let run := Examples.forwarded_call Examples.search_command in
  let routed := Examples.forwarded_call Examples.route_command in
  fst run = Ok None
  /\ map (fun m => (message_type m, receiver m, correlation_id m)) (published (snd run))
     = [(COMMAND, ORCHESTRATOR, None);
        (COMMAND, INFORMATION_RETRIEVAL, Some "1699999999.5");
        (ERROR, ORCHESTRATOR, Some "1700000000.0")]
  /\ map fst (calls (snd run))
     = [receive_message ORCHESTRATOR; receive_message INFORMATION_RETRIEVAL;
        receive_message ORCHESTRATOR]
  /\ fst routed = Ok None
  /\ map (fun m => (message_type m, receiver m, correlation_id m)) (published (snd routed))
     = [(COMMAND, ORCHESTRATOR, None);
        (COMMAND, INFORMATION_RETRIEVAL, Some "1699999999.5");
        (RESPONSE, DIALOGUE, Some "1700000000.0")]
  /\ map fst (calls (snd routed))
     = [receive_message ORCHESTRATOR; receive_message INFORMATION_RETRIEVAL;
        receive_message DIALOGUE].
Proof. vm_compute. repeat split; reflexivity. Qed.

(** ** Dictionaries *)

Section DictFacts.

Context {K V : Type} `{EqDecision K}.

Implicit Types (k : K) (v : V) (d : list (K * V)).

Lemma get_del_eq k d : PyDict.get k (PyDict.del k d) = None.
Proof.
  induction d as [| [k0 v0] d IH]; simpl; [reflexivity |].
  destruct (decide (k0 = k)) as [-> | Hne]; [exact IH |].
  simpl. rewrite decide_False by exact Hne. exact IH.
Qed.

Lemma get_set_eq k v d : PyDict.get k (PyDict.set k v d) = Some v.
Proof.
  induction d as [| [k0 v0] d IH]; simpl.
  - rewrite decide_True; reflexivity.
  - destruct (decide (k0 = k)) as [-> | Hne]; simpl.
    + rewrite decide_True; reflexivity.
    + rewrite decide_False by exact Hne. exact IH.
Qed.

Lemma get_set_ne k k' v d :
  k <> k' -> PyDict.get k' (PyDict.set k v d) = PyDict.get k' d.
Proof.
  intros Hne. induction d as [| [k0 v0] d IH]; simpl.
  - rewrite decide_False by exact Hne. reflexivity.
  - destruct (decide (k0 = k)) as [-> | Hne0]; simpl.
    + rewrite !decide_False by exact Hne. reflexivity.
    + destruct (decide (k0 = k')); [reflexivity | exact IH].
Qed.

Lemma mem_false_get k d : PyDict.mem k d = false <-> PyDict.get k d = None.
Proof. unfold PyDict.mem. destruct (PyDict.get k d); split; congruence. Qed.

Lemma get_Some_elem k v d : PyDict.get k d = Some v -> (k, v) ∈ d.
Proof.
  induction d as [| [k0 v0] d IH]; simpl; [discriminate |].
  destruct (decide (k0 = k)) as [-> | Hne].
  - intros [= ->]. apply list_elem_of_here.
  - intros Hget. apply list_elem_of_further, IH, Hget.
Qed.

Lemma elem_get_is_Some k v d : (k, v) ∈ d -> is_Some (PyDict.get k d).
Proof.
  induction d as [| [k0 v0] d IH]; intros Hin.
  - no_elem Hin.
  - simpl. destruct (decide (k0 = k)) as [-> | Hne]; [eauto |].
    apply elem_of_cons in Hin as [[= -> ->] | Hin]; [congruence | auto].
Qed.

End DictFacts.

(** ** The retrieval engine: removal *)

Section RemovalFacts.

Context `{External}.

Implicit Types (self : Retriever.VectorRetriever) (d : string).

Lemma remove_document_count self d :
  fst (Retriever.remove_document self d)
  = Z.of_nat (length (default [] (PyDict.get d (Retriever.documents self)))).
Proof. reflexivity. Qed.

Lemma remove_document_documents self d :
  PyDict.get d (Retriever.documents (snd (Retriever.remove_document self d))) = None.
Proof.
  simpl. destruct (PyDict.mem d (Retriever.documents self)) eqn:E.
  - apply get_del_eq.
  - apply mem_false_get, E.
Qed.

Lemma remove_document_vectors self d :
  PyDict.get d (Retriever.vectors (snd (Retriever.remove_document self d))) = None.
Proof.
  simpl. destruct (PyDict.mem d (Retriever.vectors self)) eqn:E.
  - apply get_del_eq.
  - apply mem_false_get, E.
Qed.

(** With a [document_id] filter that names a document absent from the
    index, [retrieve] returns the empty list. *)
Lemma retrieve_absent_document self d query filters k :
  PyDict.get d (Retriever.documents self) = None ->
  PyDict.get "document_id" filters = Some (VStr d)
  \/ PyDict.get "document_id" filters = Some (VList [VStr d]) ->
  Retriever.retrieve self query (Some filters) k = Ok [].
Proof.
  intros Habsent Hfilter.
  assert (Retriever.existing_ids self [VStr d] = Ok []) as Hids.
  { simpl. unfold PyDict.mem. rewrite Habsent. reflexivity. }
  unfold Retriever.retrieve, Retriever.retrieve_from, Retriever._filter_document_ids.
  destruct filters as [| binding rest]; [destruct Hfilter; discriminate |].
  destruct Hfilter as [-> | ->]; rewrite Hids; reflexivity.
Qed.

End RemovalFacts.

Section RemoveHandlerFacts.

Context `{External}.

Variable agent_type : AgentType.

Implicit Types (self : InformationRetrievalAgent.Agent) (m : Message).

Lemma lift_run {A} (c : M A) self :
  InformationRetrievalAgent.lift c self =
  (fst (c (InformationRetrievalAgent.world self)),
   {| InformationRetrievalAgent.world := snd (c (InformationRetrievalAgent.world self));
      InformationRetrievalAgent.retriever := InformationRetrievalAgent.retriever self;
      InformationRetrievalAgent.query_cache := InformationRetrievalAgent.query_cache self |}).
Proof.
  unfold InformationRetrievalAgent.lift.
  destruct (c (InformationRetrievalAgent.world self)); reflexivity.
Qed.

End RemoveHandlerFacts.



(** ** The retrieval engine: ranking *)

Section RankingFacts.

Context `{External}.

Implicit Types (r x y : Retriever.Result) (l : list Retriever.Result).

Lemma insert_by_score_perm r l : Retriever.insert_by_score r l ≡ₚ r :: l.
Proof.
  induction l as [| x l IH]; simpl; [reflexivity |].
  destruct (ltb (Retriever.score r) (Retriever.score x)); [| reflexivity].
  rewrite IH. apply Permutation_swap.
Qed.

Lemma sort_by_score_perm l : Retriever.sort_by_score l ≡ₚ l.
Proof.
  induction l as [| r l IH]; simpl; [reflexivity |].
  rewrite insert_by_score_perm, IH. reflexivity.
Qed.

(** The scores on which [<] is assumed to behave. *)
Variable scores : list Num.
Hypothesis scores_wf : scores_ordered scores.

#[local] Abbreviation scored := (scored_within scores).

Lemma insert_by_score_sorted r l :
  scored (r :: l) ->
  StronglySorted not_below l ->
  StronglySorted not_below (Retriever.insert_by_score r l).
Proof.
  destruct scores_wf as [Hasym Hneg].
  induction l as [| x l IH]; intros Hsc Hsorted; simpl.
  - repeat constructor.
  - apply Forall_cons in Hsc as [Hr Hsc]. apply Forall_cons in Hsc as [Hx Hl].
    apply StronglySorted_inv in Hsorted as [Hsorted Hall].
    destruct (ltb (Retriever.score r) (Retriever.score x)) eqn:E.
    + constructor.
      * apply IH; [apply Forall_cons; split; assumption | exact Hsorted].
      * rewrite insert_by_score_perm. constructor; [| exact Hall].
        apply Hasym; assumption.
    + constructor; [constructor; assumption |].
      constructor; [exact E |].
      rewrite Forall_forall in Hall, Hl |- *. intros y Hy.
      apply (Hneg _ (Retriever.score x)); auto. apply Hall, Hy.
Qed.

Lemma sort_by_score_sorted l :
  scored l -> StronglySorted not_below (Retriever.sort_by_score l).
Proof.
  induction l as [| r l IH]; intros Hsc; simpl; [constructor |].
  apply Forall_cons in Hsc as [Hr Hl].
  apply insert_by_score_sorted; [| apply IH, Hl].
  apply Forall_cons. split; [exact Hr |].
  unfold scored_within. rewrite sort_by_score_perm. exact Hl.
Qed.

Lemma insert_by_score_tied z r l :
  z ∈ scores -> scored (r :: l) ->
  List.filter (fun y => tied z (Retriever.score y)) (Retriever.insert_by_score r l)
  = List.filter (fun y => tied z (Retriever.score y)) (r :: l).
Proof.
  destruct scores_wf as [Hasym Hneg]. intros Hz.
  induction l as [| x l IH]; intros Hsc; [reflexivity |].
  apply Forall_cons in Hsc as [Hr Hsc]. apply Forall_cons in Hsc as [Hx Hl].
  cbn [Retriever.insert_by_score].
  destruct (ltb (Retriever.score r) (Retriever.score x)) eqn:E; [| reflexivity].
  cbn [List.filter]. rewrite IH by (apply Forall_cons; split; assumption).
  cbn [List.filter].
  destruct (tied z (Retriever.score x)) eqn:Ex; [| reflexivity].
  destruct (tied z (Retriever.score r)) eqn:Er; [| reflexivity].
  exfalso. unfold tied in Ex, Er.
  apply andb_prop in Ex as [Ezx _]. apply andb_prop in Er as [_ Erz].
  apply negb_true_iff in Ezx, Erz.
  rewrite (Hneg _ z _ Hr Hz Hx Erz Ezx) in E. discriminate.
Qed.

Lemma sort_by_score_tied z l :
  z ∈ scores -> scored l ->
  List.filter (fun y => tied z (Retriever.score y)) (Retriever.sort_by_score l)
  = List.filter (fun y => tied z (Retriever.score y)) l.
Proof.
  intros Hz. induction l as [| r l IH]; intros Hsc; [reflexivity |].
  apply Forall_cons in Hsc as [Hr Hl]. cbn [Retriever.sort_by_score foldr].
  fold (Retriever.sort_by_score l). rewrite insert_by_score_tied.
  - cbn [List.filter]. rewrite (IH Hl). reflexivity.
  - exact Hz.
  - apply Forall_cons. split; [exact Hr |].
    unfold scored_within. rewrite sort_by_score_perm. exact Hl.
Qed.

End RankingFacts.

Section TopFacts.

Context {A : Type} (R : A -> A -> Prop).

(** In a sorted list every element of a prefix is related to every element
    after the prefix. *)
Lemma sorted_take_drop (n : nat) (l : list A) x y :
  StronglySorted R l -> x ∈ take n l -> y ∈ drop n l -> R x y.
Proof.
  revert n. induction l as [| a l IH]; intros n Hsorted Hx Hy.
  - rewrite take_nil in Hx. no_elem Hx.
  - apply StronglySorted_inv in Hsorted as [Hsorted Hall].
    destruct n as [| n]; simpl in *.
    + no_elem Hx.
    + apply elem_of_cons in Hx as [-> | Hx].
      * rewrite Forall_forall in Hall. apply Hall.
        rewrite <- (take_drop n l). apply elem_of_app. right. exact Hy.
      * apply (IH n); assumption.
Qed.

End TopFacts.

Section ScanFacts.

Context `{External}.

Implicit Types (self : Retriever.VectorRetriever).

Lemma last_filter_cons {A} (P : A -> bool) (x : A) (l : list A) :
  last (List.filter P (x :: l)) =
  match last (List.filter P l) with
  | Some y => Some y
  | None => if P x then Some x else None
  end.
Proof.
  cbn [List.filter]. destruct (P x); [| destruct (last (List.filter P l)); reflexivity].
  destruct (List.filter P l) as [| y rest] eqn:Hf; [reflexivity |].
  rewrite last_cons_cons.
  destruct (last (y :: rest)) eqn:Hlast; [reflexivity |].
  apply last_None in Hlast. discriminate.
Qed.

Lemma chunks_by_id_last (k : string) (lst : list Retriever.DocumentChunk) acc :
  PyDict.get k
    (fold_left (fun dd chunk => PyDict.set (Retriever.chunk_id chunk) chunk dd) lst acc)
  = match last (List.filter (fun c => bool_decide (Retriever.chunk_id c = k)) lst) with
    | Some c => Some c
    | None => PyDict.get k acc
    end.
Proof.
  revert acc. induction lst as [| c cs IH]; intros acc; [reflexivity |].
  cbn [fold_left]. rewrite IH, last_filter_cons.
  destruct (last (List.filter _ cs)); [reflexivity |].
  destruct (decide (Retriever.chunk_id c = k)) as [<- | Hne].
  - rewrite (bool_decide_eq_true_2 _ eq_refl), get_set_eq. reflexivity.
  - rewrite (bool_decide_eq_false_2 _ Hne), get_set_ne by exact Hne. reflexivity.
Qed.

Lemma chunks_by_id_named chunks cid :
  PyDict.get cid (Retriever.chunks_by_id chunks) = named_chunk chunks cid.
Proof.
  unfold Retriever.chunks_by_id, named_chunk. rewrite chunks_by_id_last.
  destruct (last _); reflexivity.
Qed.

Lemma cosine_similarity_spec (u v : list Num) :
  length u = length v ->
  Retriever._cosine_similarity u v = Ok (cosine_similarity u v).
Proof.
  intros Hlen. unfold Retriever._cosine_similarity, cosine_similarity.
  rewrite bool_decide_eq_true_2 by exact Hlen.
  destruct (_ || _); reflexivity.
Qed.

Lemma existing_ids_selected self doc_ids :
  forallb hashable doc_ids = true ->
  Retriever.existing_ids self doc_ids = Ok (omap (named_document self) doc_ids).
Proof.
  induction doc_ids as [| v rest IH]; intros Hh; [reflexivity |].
  cbn [forallb] in Hh. apply andb_prop in Hh as [Hv Hrest].
  cbn [Retriever.existing_ids omap list_omap]. rewrite Hv, (IH Hrest).
  destruct v; try reflexivity.
  cbn [named_document]. destruct (PyDict.mem _ _); reflexivity.
Qed.

Lemma filter_document_ids_selected self filters :
  filters_hashable filters = true ->
  Retriever._filter_document_ids self filters = Ok (selected_documents self filters).
Proof.
  unfold filters_hashable, Retriever._filter_document_ids, selected_documents.
  destruct filters as [[| binding rest] |]; try reflexivity.
  destruct (PyDict.get "document_id" (binding :: rest)) as [v |]; [| reflexivity].
  intros Hh.
  destruct v; try (apply existing_ids_selected; exact Hh);
    apply existing_ids_selected; cbn [forallb]; try rewrite Hh; reflexivity.
Qed.

Lemma candidate_unfold query_embedding doc_id chunks cid emb :
  candidate query_embedding doc_id chunks (cid, emb) =
  match named_chunk chunks cid with
  | Some chunk =>
      Some (Retriever.Build_Result doc_id cid (Retriever.content chunk)
              (Retriever.metadata chunk) (cosine_similarity query_embedding emb))
  | None => None
  end.
Proof. reflexivity. Qed.

Lemma scan_vectors_candidates query_embedding doc_id chunks doc_vectors :
  Forall (fun item => length (snd item) = length query_embedding) doc_vectors ->
  Retriever.scan_vectors query_embedding doc_id (Retriever.chunks_by_id chunks)
    doc_vectors
  = Ok (omap (candidate query_embedding doc_id chunks) doc_vectors).
Proof.
  induction doc_vectors as [| [cid emb] rest IH]; intros Hdim; [reflexivity |].
  apply Forall_cons in Hdim as [Hemb Hrest]. simpl in Hemb.
  cbn [Retriever.scan_vectors omap list_omap]. rewrite (IH Hrest).
  rewrite chunks_by_id_named, candidate_unfold.
  destruct (named_chunk chunks cid) as [chunk |]; [| reflexivity].
  rewrite cosine_similarity_spec by (symmetry; exact Hemb). reflexivity.
Qed.

Lemma scan_documents_candidates self query_embedding document_ids :
  dimension_ok self (length query_embedding) ->
  Retriever.scan_documents self query_embedding document_ids
  = Ok (flat_map (document_candidates self query_embedding) document_ids).
Proof.
  intros Hdim. induction document_ids as [| doc_id rest IH]; [reflexivity |].
  cbn [Retriever.scan_documents flat_map]. rewrite IH.
  rewrite scan_vectors_candidates; [reflexivity |].
  destruct (PyDict.get doc_id (Retriever.vectors self)) as [vs |] eqn:E;
    [| constructor].
  apply get_Some_elem in E. unfold dimension_ok in Hdim.
  rewrite Forall_forall in Hdim. apply (Hdim _ E).
Qed.

(** [retrieve] after the query embedding was obtained: the first [k] of the
    candidate chunks, sorted. *)
Lemma retrieve_from_candidates self query_embedding filters k :
  0 <= k ->
  filters_hashable filters = true ->
  dimension_ok self (length query_embedding) ->
  Retriever.retrieve_from self query_embedding filters k
  = Ok (take (Z.to_nat k)
          (Retriever.sort_by_score (candidate_chunks self query_embedding filters))).
Proof.
  intros Hk Hfilters Hdim. unfold Retriever.retrieve_from, candidate_chunks.
  rewrite (filter_document_ids_selected _ _ Hfilters).
  destruct (selected_documents self filters) as [| doc_id ids] eqn:Hsel.
  - cbn [flat_map Retriever.sort_by_score foldr]. rewrite take_nil. reflexivity.
  - rewrite (scan_documents_candidates _ _ _ Hdim). unfold Retriever.slice_to.
    rewrite (proj2 (Z.leb_le 0 k) Hk). reflexivity.
Qed.

Lemma retrieve_call_answered {Remote : Type}
    (generate : list string -> St Remote (list (list Num)))
    self query filters k (s s1 : Remote) query_embedding others :
  generate [query] s = (Ok (query_embedding :: others), s1) ->
  Retriever.retrieve_call generate self query filters k s
  = (Retriever.retrieve_from self query_embedding filters k, s1).
Proof.
  intros Hgen. unfold Retriever.retrieve_call.
  rewrite (bind_ok _ _ _ _ _ Hgen). reflexivity.
Qed.

(** [Retriever.retrieve] is the call whose generator answers the query with
    [generate_embedding query]. *)
Lemma retrieve_call_agrees {Remote : Type}
    (generate : list string -> St Remote (list (list Num)))
    self query filters k (s s1 : Remote) others :
  generate [query] s = (Ok (generate_embedding query :: others), s1) ->
  Retriever.retrieve_call generate self query filters k s
  = (Retriever.retrieve self query filters k, s1).
Proof. intros Hgen. apply (retrieve_call_answered _ _ _ _ _ _ _ _ _ Hgen). Qed.

(** A generator that uses the mock does not reach the service, whose state
    stays. *)
Lemma generate_embeddings_mock {Remote : Type} (mock_vector : Z -> list Num)
    (client : St Remote unit) (create : list string -> St Remote (list (list Num)))
    (generator : EmbeddingGenerator.EmbeddingGenerator) texts (s : Remote) :
  EmbeddingGenerator.use_mock generator = true ->
  EmbeddingGenerator.generate_embeddings mock_vector client create generator texts s
  = (EmbeddingGenerator._generate_mock_embeddings mock_vector texts, s).
Proof.
  intros Hmock. unfold EmbeddingGenerator.generate_embeddings.
  rewrite Hmock. reflexivity.
Qed.

End ScanFacts.

(** The guard of [_cosine_similarity]: on two vectors of one length, a
    magnitude that compares equal to [0.0] gives [0.0] without a division;
    vectors of different lengths make [np.dot] raise before the guard. *)
Lemma cosine_similarity_guard `{External} (vec1 vec2 : list Num) :
  (length vec1 = length vec2 ->
   eqb (norm vec1) zero = true \/ eqb (norm vec2) zero = true ->
   Retriever._cosine_similarity vec1 vec2 = Ok zero)
  /\ (length vec1 <> length vec2 ->
      Retriever._cosine_similarity vec1 vec2 = Raise "ValueError: shapes not aligned").
Proof.
  unfold Retriever._cosine_similarity. split; intros Hlen.
  - rewrite bool_decide_eq_true_2 by exact Hlen.
    intros [-> | ->]; [reflexivity | rewrite orb_true_r; reflexivity].
  - rewrite bool_decide_eq_false_2 by exact Hlen. reflexivity.
Qed.




(** Three chunks with distinct embeddings, two results asked for: the two
    best, best first. *)
Example retrieve_two_of_three :
  option_map (map (fun r => (Retriever.result_chunk_id r, Retriever.score r)))
    match Retriever.retrieve (H := Examples.integer_numbers)
            Examples.indexed "query" (Some []) 2 with
    | Ok rs => Some rs
    | Raise _ => None
    end
  = Some [("chunk-b", 1040); ("chunk-c", 900)].
Proof. vm_compute. reflexivity. Qed.

(** ** Cosine similarity in binary64 *)

Section CosineFacts.

Import PrimFloat.

Lemma dot_zeros (n : nat) :
  Binary64.dot (Binary64.zeros n) (Binary64.zeros n) = 0%float.
Proof.
  unfold Binary64.dot, Binary64.zeros.
  induction n as [| n IH]; [reflexivity |]. exact IH.
Qed.

Lemma norm_zeros (n : nat) : Binary64.norm (Binary64.zeros n) = 0%float.
Proof. unfold Binary64.norm. rewrite dot_zeros. reflexivity. Qed.

End CosineFacts.



(** ** The retrieval engine: indexing *)

Section IndexingFacts.

Context `{External}.

Implicit Types (self : Retriever.VectorRetriever) (c : Retriever.DocumentChunk)
  (chunks lst : list Retriever.DocumentChunk) (d k : string)
  (vs : list (string * list (string * list Num))).

Lemma has_embedding_true c :
  Retriever.has_embedding c = true <->
  exists x v, Retriever.embedding c = Some (x :: v).
Proof.
  unfold Retriever.has_embedding.
  destruct (Retriever.embedding c) as [[| x v] |]; split;
    try discriminate; eauto; intros (? & ? & ?); discriminate.
Qed.

Lemma store_vector_lookup doc vs c d k :
  lookup2 (Retriever.store_vector doc vs c) d k =
  if Retriever.has_embedding c && bool_decide (doc = d)
     && bool_decide (Retriever.chunk_id c = k)
  then Retriever.embedding c
  else lookup2 vs d k.
Proof.
  unfold Retriever.store_vector, Retriever.has_embedding, lookup2.
  destruct (Retriever.embedding c) as [[| x v] |]; try reflexivity.
  cbn [andb]. destruct (decide (doc = d)) as [-> | Hd].
  - rewrite get_set_eq, bool_decide_eq_true_2 by reflexivity.
    destruct (decide (Retriever.chunk_id c = k)) as [-> | Hk].
    + rewrite get_set_eq, bool_decide_eq_true_2 by reflexivity. reflexivity.
    + rewrite get_set_ne, bool_decide_eq_false_2 by assumption.
      destruct (PyDict.get d vs); reflexivity.
  - rewrite get_set_ne, bool_decide_eq_false_2 by assumption. reflexivity.
Qed.

Lemma fold_store_vector_some doc lst vs d k :
  is_Some (lookup2 (fold_left (Retriever.store_vector doc) lst vs) d k) <->
  is_Some (lookup2 vs d k)
  \/ (doc = d /\ exists c, c ∈ lst /\ Retriever.chunk_id c = k
                           /\ Retriever.has_embedding c = true).
Proof.
  revert vs. induction lst as [| c lst IH]; intros vs; simpl.
  - split; [auto |]. intros [Hs | (_ & c & Hc & _)]; [exact Hs |].
    no_elem Hc.
  - rewrite IH, store_vector_lookup. split.
    + intros [Hs | (-> & c' & Hc' & Hk & He)].
      * destruct (Retriever.has_embedding c) eqn:Ec; [| auto].
        destruct (bool_decide (doc = d)) eqn:Ed; [| auto].
        destruct (bool_decide (Retriever.chunk_id c = k)) eqn:Ek; [| auto].
        apply bool_decide_eq_true_1 in Ed, Ek. right. split; [exact Ed |].
        exists c. split; [apply list_elem_of_here | auto].
      * right. split; [reflexivity |]. exists c'.
        split; [apply list_elem_of_further, Hc' | auto].
    + intros [Hs | (-> & c' & Hc' & Hk & He)].
      * left. destruct (_ && _ && _) eqn:E; [| exact Hs].
        apply andb_prop in E as [E _]. apply andb_prop in E as [Ec _].
        apply has_embedding_true in Ec as (x & v & ->). eauto.
      * apply elem_of_cons in Hc' as [-> | Hc'].
        -- left. rewrite He, Hk, !bool_decide_eq_true_2 by reflexivity.
           cbn [andb]. apply has_embedding_true in He as (x & v & ->). eauto.
        -- right. split; [reflexivity |]. exists c'. auto.
Qed.

Lemma fold_add_group_some groups self d k :
  is_Some (vector_entry (fold_left Retriever.add_group groups self) d k) <->
  is_Some (vector_entry self d k)
  \/ (exists lst c, (d, lst) ∈ groups /\ c ∈ lst /\ Retriever.chunk_id c = k
                    /\ Retriever.has_embedding c = true).
Proof.
  revert self. induction groups as [| [doc lst] groups IH]; intros self; simpl.
  - split; [auto |]. intros [Hs | (lst & c & Hin & _)]; [exact Hs |].
    no_elem Hin.
  - rewrite IH. unfold vector_entry at 1. cbn [Retriever.vectors].
    rewrite fold_store_vector_some. fold (vector_entry self d k). split.
    + intros [[Hs | (-> & c & Hc & Hk & He)] | (lst' & c & Hin & Hc & Hk & He)].
      * auto.
      * right. exists lst, c. split; [apply list_elem_of_here | auto].
      * right. exists lst', c. split; [apply list_elem_of_further, Hin | auto].
    + intros [Hs | (lst' & c & Hin & Hc & Hk & He)]; [auto |].
      apply elem_of_cons in Hin as [[= <- <-] | Hin].
      * left. right. split; [reflexivity |]. exists c. auto.
      * right. exists lst', c. auto.
Qed.

(** Membership in the groups of the batch. *)
Lemma set_elem {K V} `{EqDecision K} (key k : K) (v x : V) (dd : list (K * V)) :
  (k, x) ∈ PyDict.set key v dd -> (k = key /\ x = v) \/ (k, x) ∈ dd.
Proof.
  induction dd as [| [k0 v0] dd IH]; simpl.
  - intros Hin. apply list_elem_of_singleton in Hin as [= -> ->]. auto.
  - destruct (decide (k0 = key)) as [-> | Hne]; intros Hin;
      apply elem_of_cons in Hin as [[= -> ->] | Hin]; auto.
    + right. apply list_elem_of_further, Hin.
    + right. apply list_elem_of_here.
    + destruct (IH Hin) as [? | ?]; [auto |]. right.
      apply list_elem_of_further. assumption.
Qed.

Lemma group_fold_sound chunks acc d lst c :
  (d, lst) ∈ fold_left Retriever.group_chunk chunks acc -> c ∈ lst ->
  (c ∈ chunks /\ Retriever.document_id c = d)
  \/ (exists lst0, (d, lst0) ∈ acc /\ c ∈ lst0).
Proof.
  revert acc. induction chunks as [| c0 chunks IH]; intros acc Hin Hc; simpl in *.
  - right. eauto.
  - destruct (IH _ Hin Hc) as [[Hc' Hd] | (lst0 & Hin0 & Hc0)].
    + left. split; [apply list_elem_of_further, Hc' | exact Hd].
    + unfold Retriever.group_chunk in Hin0. apply set_elem in Hin0 as [[-> ->] | Hin0].
      * apply elem_of_app in Hc0 as [Hc0 | Hc0].
        -- destruct (PyDict.get (Retriever.document_id c0) acc) as [l0 |] eqn:E;
             simpl in Hc0.
           ++ right. exists l0. split; [apply get_Some_elem, E | exact Hc0].
           ++ no_elem Hc0.
        -- apply list_elem_of_singleton in Hc0 as ->. left.
           split; [apply list_elem_of_here | reflexivity].
      * right. eauto.
Qed.

Lemma group_fold_keeps chunks acc d lst0 c :
  PyDict.get d acc = Some lst0 -> c ∈ lst0 ->
  exists lst, PyDict.get d (fold_left Retriever.group_chunk chunks acc) = Some lst /\ c ∈ lst.
Proof.
  revert acc lst0. induction chunks as [| c0 chunks IH]; intros acc lst0 Hget Hc;
    simpl; [eauto |].
  unfold Retriever.group_chunk at 2.
  destruct (decide (Retriever.document_id c0 = d)) as [-> | Hne].
  - apply (IH _ (lst0 ++ [c0])).
    + rewrite get_set_eq, Hget. reflexivity.
    + apply elem_of_app. auto.
  - apply (IH _ lst0); [| exact Hc]. rewrite get_set_ne by exact Hne. exact Hget.
Qed.

Lemma group_fold_complete chunks acc c :
  c ∈ chunks ->
  exists lst, PyDict.get (Retriever.document_id c) (fold_left Retriever.group_chunk chunks acc)
              = Some lst /\ c ∈ lst.
Proof.
  revert acc. induction chunks as [| c0 chunks IH]; intros acc Hc.
  - no_elem Hc.
  - apply elem_of_cons in Hc as [-> | Hc]; simpl; [| apply IH, Hc].
    eapply group_fold_keeps.
    + unfold Retriever.group_chunk. apply get_set_eq.
    + apply elem_of_app. right. apply list_elem_of_here.
Qed.

(** After [add_documents], an entry of the vector mapping is an entry that
    was there or the embedding of a chunk of the batch. *)
Lemma add_documents_entry self chunks d k :
  is_Some (vector_entry (Retriever.add_documents self chunks) d k) <->
  is_Some (vector_entry self d k)
  \/ (exists c, c ∈ chunks /\ Retriever.document_id c = d
                /\ Retriever.chunk_id c = k /\ Retriever.has_embedding c = true).
Proof.
  unfold Retriever.add_documents, Retriever.group_by_document.
  rewrite fold_add_group_some. split.
  - intros [Hs | (lst & c & Hin & Hc & Hk & He)]; [auto |].
    destruct (group_fold_sound _ _ _ _ _ Hin Hc) as [[Hc' Hd] | (l0 & Hin0 & _)].
    + right. exists c. auto.
    + no_elem Hin0.
  - intros [Hs | (c & Hc & Hd & Hk & He)]; [auto |].
    destruct (group_fold_complete chunks [] c Hc) as (lst & Hget & Hin).
    right. exists lst, c. rewrite Hd in Hget.
    split; [apply get_Some_elem, Hget | auto].
Qed.

(** Every entry [retrieve] returns is read from the vector mapping. *)
Lemma scan_vectors_from_mapping query_embedding doc_id doc_chunks doc_vectors found r :
  Retriever.scan_vectors query_embedding doc_id doc_chunks doc_vectors = Ok found ->
  r ∈ found ->
  Retriever.result_document_id r = doc_id
  /\ is_Some (PyDict.get (Retriever.result_chunk_id r) doc_vectors).
Proof.
  revert found. induction doc_vectors as [| [cid emb] rest IH]; intros found; simpl.
  - intros [= <-] Hr. no_elem Hr.
  - assert (forall found', Retriever.scan_vectors query_embedding doc_id doc_chunks rest
                           = Ok found' -> r ∈ found' ->
            Retriever.result_document_id r = doc_id
            /\ is_Some (if decide (cid = Retriever.result_chunk_id r)
                        then Some emb
                        else PyDict.get (Retriever.result_chunk_id r) rest)) as IH'.
    { intros found' Hf Hr. destruct (IH _ Hf Hr) as [Hd Hs].
      split; [exact Hd |]. destruct (decide _); eauto. }
    destruct (PyDict.get cid doc_chunks) as [chunk |]; [| exact (IH' found)].
    destruct (Retriever._cosine_similarity query_embedding emb) as [s | e];
      [| discriminate].
    destruct (Retriever.scan_vectors query_embedding doc_id doc_chunks rest)
      as [found' | e]; [| discriminate].
    intros [= <-] Hr. apply elem_of_cons in Hr as [-> | Hr].
    + simpl. rewrite decide_True by reflexivity. eauto.
    + apply (IH' found' eq_refl Hr).
Qed.

Lemma scan_documents_from_mapping self query_embedding document_ids all_results r :
  Retriever.scan_documents self query_embedding document_ids = Ok all_results ->
  r ∈ all_results ->
  is_Some (vector_entry self (Retriever.result_document_id r)
             (Retriever.result_chunk_id r)).
Proof.
  revert all_results. induction document_ids as [| doc_id rest IH];
    intros all_results; simpl.
  - intros [= <-] Hr. no_elem Hr.
  - destruct (Retriever.scan_vectors _ _ _ _) as [found | e] eqn:Hscan;
      [| discriminate].
    destruct (Retriever.scan_documents self query_embedding rest) as [more | e];
      [| discriminate].
    intros [= <-] Hr. apply elem_of_app in Hr as [Hr | Hr]; [| apply (IH more); auto].
    destruct (scan_vectors_from_mapping _ _ _ _ _ _ Hscan Hr) as [-> Hs].
    unfold vector_entry, lookup2.
    destruct (PyDict.get doc_id (Retriever.vectors self)); [exact Hs |].
    simpl in Hs. destruct Hs as [? Hs]. discriminate.
Qed.

Lemma retrieve_from_mapping self query filters (top : Z) rs r :
  Retriever.retrieve self query filters top = Ok rs ->
  r ∈ rs ->
  is_Some (vector_entry self (Retriever.result_document_id r)
             (Retriever.result_chunk_id r)).
Proof.
  unfold Retriever.retrieve, Retriever.retrieve_from.
  destruct (Retriever._filter_document_ids self filters) as [[| doc_id ids] | e];
    [| | discriminate].
  - intros [= <-] Hr. no_elem Hr.
  - destruct (Retriever.scan_documents _ _ _) as [all_results | e] eqn:Hscan;
      [| discriminate].
    intros [= <-] Hr.
    apply (scan_documents_from_mapping _ _ _ _ _ Hscan).
    rewrite <- (sort_by_score_perm all_results).
    unfold Retriever.slice_to in Hr.
    destruct (0 <=? top); exact (subseteq_take _ _ _ Hr).
Qed.

End IndexingFacts.

(** C10, as the code has it.  Take a chunk of the batch given to
    [add_documents]; when its embedding is [None] or empty, suppose that its
    document and chunk ids have no entry in the vector mapping yet and that no
    chunk of the batch with the same ids has a non-empty embedding.  After the
    call its entry exists if and only if its embedding is neither [None] nor
    the empty list; with an empty list there is no entry and no call of
    [retrieve] returns an entry with its ids. *)
Theorem vector_entry_iff_embedding_non_empty `{External}
    (self : Retriever.VectorRetriever) (chunks : list Retriever.DocumentChunk)
    (c : Retriever.DocumentChunk) :
  c ∈ chunks ->
  (Retriever.has_embedding c = false ->
   vector_entry self (Retriever.document_id c) (Retriever.chunk_id c) = None
   /\ forall c', c' ∈ chunks ->
        Retriever.document_id c' = Retriever.document_id c ->
        Retriever.chunk_id c' = Retriever.chunk_id c ->
        Retriever.has_embedding c' = false) ->
  let self' := Retriever.add_documents self chunks in
  (is_Some (vector_entry self' (Retriever.document_id c) (Retriever.chunk_id c))
   <-> exists x v, Retriever.embedding c = Some (x :: v))
  /\ (Retriever.embedding c = Some [] ->
      vector_entry self' (Retriever.document_id c) (Retriever.chunk_id c) = None
      /\ forall query filters k rs r,
           Retriever.retrieve self' query filters k = Ok rs -> r ∈ rs ->
           ~ (Retriever.result_document_id r = Retriever.document_id c
              /\ Retriever.result_chunk_id r = Retriever.chunk_id c)).
Proof.
  intros Hc Halone self'.
  assert (is_Some (vector_entry self' (Retriever.document_id c) (Retriever.chunk_id c))
          <-> Retriever.has_embedding c = true) as Hiff.
  { subst self'. rewrite add_documents_entry. split.
    - intros Hentry. destruct (Retriever.has_embedding c) eqn:E; [reflexivity |].
      destruct (Halone eq_refl) as [Hfresh Hsame]. rewrite Hfresh in Hentry.
      destruct Hentry as [[? Hs] | (c' & Hc' & Hd & Hk & He)]; [discriminate |].
      rewrite (Hsame c' Hc' Hd Hk) in He. discriminate.
    - intros He. right. exists c. auto. }
  split; [rewrite Hiff; apply has_embedding_true |].
  intros Hempty.
  assert (vector_entry self' (Retriever.document_id c) (Retriever.chunk_id c) = None)
    as Hnone.
  { destruct (vector_entry self' _ _) as [emb |] eqn:E; [| reflexivity].
    assert (Retriever.has_embedding c = true) as He by (apply Hiff; eauto).
    unfold Retriever.has_embedding in He. rewrite Hempty in He. discriminate. }
  split; [exact Hnone |].
  intros query filters k rs r Hret Hr [Hd Hk].
  pose proof (retrieve_from_mapping _ _ _ _ _ _ Hret Hr) as Hs.
  rewrite Hd, Hk, Hnone in Hs. destruct Hs as [? Hs]. discriminate.
Qed.

Lemma vector_entry_iff_embedding_non_empty_witness :
  vector_entry (H := Examples.integer_numbers)
    (Retriever.add_documents Retriever.init Examples.batch) "doc-2" "chunk-x" = None.
Proof.
  refine (proj1 (proj2 (vector_entry_iff_embedding_non_empty
            (H := Examples.integer_numbers) Retriever.init Examples.batch
            (Examples.chunk "chunk-x" "doc-2" "no vector" (Some []) 0) _ _) _)).
  - apply list_elem_of_here.
  - intros _. split; [reflexivity |]. intros c' Hin _ Hk.
    apply elem_of_cons in Hin as [-> | Hin]; [reflexivity |].
    apply list_elem_of_singleton in Hin as ->. discriminate.
  - reflexivity.
Defined.

(** C10 as stated fails.  A chunk id is indexed with an embedding and then
    again with an empty one: the second chunk has an empty embedding, an
    entry stands in the vector mapping under its ids, and [retrieve] returns
    an entry with its ids and its content. *)
Lemma empty_embedding_chunk_returned :
  let c := Examples.chunk "chunk-1" "doc-1" "new text" (Some []) 0 in
  Retriever.embedding c = Some []
  /\ vector_entry Examples.reindexed (Retriever.document_id c) (Retriever.chunk_id c)
     = Some [3; 4]
  /\ Retriever.retrieve Examples.reindexed "query" None 5
     = Ok [@Retriever.Build_Result Examples.integer_numbers
             (Retriever.document_id c) (Retriever.chunk_id c) (Retriever.content c)
             [] 760].
Proof. vm_compute. repeat split; reflexivity. Qed.

(** * Further properties *)

(** ** The broker: exceptions of callbacks *)

Section DeliveryFacts.

Implicit Types (w : World) (m : Message) (cb : Callback).

Lemma call_run cb m w :
  fst (Broker.call cb m w) = call_outcome cb
  /\ log (snd (Broker.call cb m w)) = log w.
Proof. destruct cb as [a | c | [e |]]; split; reflexivity. Qed.

Lemma deliver_log subs m w :
  log (snd (Broker.deliver subs m w)) = log w ++ omap delivery_error subs.
Proof.
  revert w. induction subs as [| cb rest IH]; intros w.
  - simpl. rewrite app_nil_r. reflexivity.
  - cbn [Broker.deliver].
    match goal with |- context [bind ?c _ w] =>
      destruct (c w) as [r w1] eqn:E end.
    assert (r = Ok tt /\ log w1 = log w ++ from_option (fun x => [x]) [] (delivery_error cb))
      as [-> Hlog].
    { destruct cb as [a | c | [e |]]; inversion E; subst; simpl;
        rewrite ?app_nil_r; auto. }
    rewrite (bind_ok _ _ _ _ _ E), IH, Hlog, <- app_assoc.
    destruct cb as [a | c | [e |]]; reflexivity.
Qed.

End DeliveryFacts.

(** X1.  An exception reaches the publisher only from a response handler.
    A message routed to a handler gives [publish] the outcome of that one
    call.  On the ordinary path [publish] returns normally whatever
    [Exception] the subscribers raise: every subscriber is called once, in
    the order of subscription, and each one that raises leaves one error in
    the log. *)
Theorem publish_exceptions (w : World) (m : Message) :
  let w' := snd (Broker.publish m w) in
  let subs := default [] (subscribers (message_broker w) !! receiver m) in
  match Broker.routed_handler (message_broker w) m with
  | Some handler =>
      fst (Broker.publish m w) = call_outcome handler
      /\ calls w' = calls w ++ [(handler, m)]
      /\ log w' = log w
  | None =>
      fst (Broker.publish m w) = Ok tt
      /\ calls w' = calls w ++ map (fun cb => (cb, m)) subs
      /\ (subs <> [] -> log w' = log w ++ omap delivery_error subs)
  end.
Proof.
  intros w' subs. subst w'. rewrite publish_unfold.
  destruct (Broker.routed_handler (message_broker w) m) as [h |].
  - destruct (call_run h m (add_published m w)) as [Hr Hl].
    rewrite Hr, Hl, call_calls. auto.
  - subst subs. destruct (default [] _) as [| cb rest].
    + simpl. rewrite app_nil_r. repeat split. intros Hne. destruct Hne. reflexivity.
    + destruct (deliver_spec (cb :: rest) m (add_published m w)) as (Hok & Hc & _ & _).
      rewrite Hok, Hc, deliver_log. auto.
Qed.

(** ** The broker and the inbox: order of delivery *)

Section FifoFacts.

Variable a : AgentType.

Implicit Types (w : World) (m : Message).

Lemma publish_to_inbox m w :
  subscribers (message_broker w) !! a = Some [receive_message a] ->
  receiver m = a ->
  Broker.routed_handler (message_broker w) m = None ->
  exists w',
    Broker.publish m w = (Ok tt, w')
    /\ message_broker w' = message_broker w
    /\ inbox w' = <[a := default [] (inbox w !! a) ++ [m]]> (inbox w).
Proof.
  intros Hsubs Hrecv Hroute. rewrite publish_unfold, Hroute, Hrecv, Hsubs.
  eexists. split; [reflexivity |]. split; reflexivity.
Qed.

Lemma drain_queue queued w :
  default [] (inbox w !! a) = queued ->
  fst (drain a (length queued) w) = Ok queued
  /\ fst (BaseAgent.inbox_get a (snd (drain a (length queued) w))) = Ok None.
Proof.
  revert w. induction queued as [| m rest IH]; intros w Hq.
  - simpl. unfold BaseAgent.inbox_get.
    destruct (inbox w !! a) as [[| ? ?] |]; simpl in Hq; try discriminate; auto.
  - destruct (inbox w !! a) as [l |] eqn:E; simpl in Hq; [subst l | discriminate].
    cbn [drain length].
    assert (BaseAgent.inbox_get a w
            = (Ok (Some m), set_inbox (<[a := rest]> (inbox w)) w)) as Hget
      by (unfold BaseAgent.inbox_get; rewrite E; reflexivity).
    rewrite (bind_ok _ _ _ _ _ Hget).
    set (w1 := set_inbox _ w).
    destruct (IH w1) as [Hd Hn]; [subst w1; simpl; rewrite lookup_insert_eq; reflexivity |].
    destruct (drain a (length rest) w1) as [[got | e] w2] eqn:Ed; simpl in Hd;
      [| discriminate].
    injection Hd as ->. rewrite (bind_ok _ _ _ _ _ Ed). simpl. auto.
Qed.

End FifoFacts.

(** X2.  Messages published to a started agent are dequeued in the order of
    publication.  When the agent's [receive_message] is the one subscriber
    under its type, publishing messages addressed to it that no response
    handler takes appends them, in order, to what its inbox holds; [inbox.get]
    then returns the held messages and the new ones oldest first, and nothing
    after them. *)
Theorem publish_order_is_dequeue_order
    (a : AgentType) (queued ms : list Message) (w : World) :
  subscribers (message_broker w) !! a = Some [receive_message a] ->
  default [] (inbox w !! a) = queued ->
  Forall (fun m => receiver m = a
                   /\ Broker.routed_handler (message_broker w) m = None) ms ->
  let w1 := snd (publish_all ms w) in
  let w2 := snd (drain a (length (queued ++ ms)) w1) in
  fst (publish_all ms w) = Ok tt
  /\ default [] (inbox w1 !! a) = queued ++ ms
  /\ fst (drain a (length (queued ++ ms)) w1) = Ok (queued ++ ms)
  /\ fst (BaseAgent.inbox_get a w2) = Ok None.
Proof.
  intros Hsubs Hq Hms.
  assert (fst (publish_all ms w) = Ok tt
          /\ default [] (inbox (snd (publish_all ms w)) !! a) = queued ++ ms) as [Hok Hin].
  { revert w queued Hsubs Hq Hms. induction ms as [| m rest IH];
      intros w queued Hsubs Hq Hms.
    - simpl. rewrite app_nil_r. auto.
    - apply Forall_cons in Hms as [[Hrecv Hroute] Hrest].
      destruct (publish_to_inbox a m w Hsubs Hrecv Hroute) as (w' & Hpub & Hb & Hi).
      cbn [publish_all]. rewrite (bind_ok _ _ _ _ _ Hpub).
      destruct (IH w' (queued ++ [m])) as [IHok IHin].
      + rewrite Hb. exact Hsubs.
      + rewrite Hi, lookup_insert_eq, Hq. reflexivity.
      + rewrite Hb. exact Hrest.
      + rewrite IHok, IHin, <- app_assoc. auto. }
  cbv zeta. split; [exact Hok |]. split; [exact Hin |].
  apply drain_queue. exact Hin.
Qed.

Lemma publish_order_is_dequeue_order_witness :
  fst (drain DIALOGUE 2
         (snd (publish_all [Examples.first_command; Examples.second_command]
                 Examples.dialogue_started)))
  = Ok [Examples.first_command; Examples.second_command].
Proof.
  refine (proj1 (proj2 (proj2 (publish_order_is_dequeue_order DIALOGUE []
            [Examples.first_command; Examples.second_command]
            Examples.dialogue_started _ _ _)))).
  - reflexivity.
  - reflexivity.
  - repeat constructor.
Defined.

(** ** The broker: subscriptions *)

Section SubscriptionFacts.

Implicit Types (w : World) (cb : Callback) (l : list Callback).

Lemma filter_other_absent cb l :
  cb ∉ l -> List.filter (fun c => negb (bool_decide (c = cb))) l = l.
Proof.
  induction l as [| c l IH]; intros Hnot; [reflexivity |].
  apply not_elem_of_cons in Hnot as [Hne Hnot]. simpl.
  rewrite bool_decide_eq_false_2 by congruence. simpl. rewrite IH by exact Hnot.
  reflexivity.
Qed.

Lemma filter_other_app cb l :
  List.filter (fun c => negb (bool_decide (c = cb))) (l ++ [cb])
  = List.filter (fun c => negb (bool_decide (c = cb))) l.
Proof.
  rewrite List.filter_app. simpl. rewrite bool_decide_eq_true_2 by reflexivity.
  simpl. apply app_nil_r.
Qed.

Lemma filter_other_gone cb l :
  cb ∉ List.filter (fun c => negb (bool_decide (c = cb))) l.
Proof.
  intros Hin. apply list_elem_of_In, List.filter_In in Hin as [_ Hne].
  rewrite bool_decide_eq_true_2 in Hne by reflexivity. discriminate.
Qed.

End SubscriptionFacts.

(** X3.  [unsubscribe] with a callback removes every registration of that
    callback under the type, the earlier ones as well as the one just made,
    and keeps the other callbacks in their order; without a callback it leaves
    the type with an empty list, so that a message for the type is then
    dropped without any call.  Neither touches the other types or the response
    handlers, and on a type that was never subscribed [unsubscribe] changes
    nothing at all. *)
Theorem unsubscribe_after_subscribe (a : AgentType) (cb : Callback) (w : World) :
  let before := default [] (subscribers (message_broker w) !! a) in
  let w1 := snd (Broker.subscribe a cb w) in
  let w2 := snd (Broker.unsubscribe a (Some cb) w1) in
  let w3 := snd (Broker.unsubscribe a None w1) in
  subscribers (message_broker w1) !! a = Some (before ++ [cb])
  /\ subscribers (message_broker w2) !! a
     = Some (List.filter (fun c => negb (bool_decide (c = cb))) before)
  /\ (cb ∉ default [] (subscribers (message_broker w2) !! a))
  /\ (cb ∉ before -> subscribers (message_broker w2) !! a = Some before)
  /\ subscribers (message_broker w3) !! a = Some []
  /\ (forall m, receiver m = a ->
        Broker.routed_handler (message_broker w3) m = None ->
        calls (snd (Broker.publish m w3)) = calls w3)
  /\ (forall b, b <> a ->
        subscribers (message_broker w2) !! b = subscribers (message_broker w) !! b
        /\ subscribers (message_broker w3) !! b = subscribers (message_broker w) !! b)
  /\ response_handlers (message_broker w2) = response_handlers (message_broker w)
  /\ response_handlers (message_broker w3) = response_handlers (message_broker w)
  /\ (forall callback, subscribers (message_broker w) !! a = None ->
        snd (Broker.unsubscribe a callback w) = w).
Proof.
  intros before w1 w2 w3.
  assert (subscribers (message_broker w1) !! a = Some (before ++ [cb])) as H1
    by (subst w1; simpl; apply lookup_insert_eq).
  assert (subscribers (message_broker w2) !! a
          = Some (List.filter (fun c => negb (bool_decide (c = cb))) before)) as H2.
  { subst w2. unfold Broker.unsubscribe, modify. cbn [snd]. rewrite H1. simpl.
    rewrite lookup_insert_eq, filter_other_app. reflexivity. }
  assert (subscribers (message_broker w3) !! a = Some []) as H3.
  { subst w3. unfold Broker.unsubscribe, modify. cbn [snd]. rewrite H1. simpl.
    apply lookup_insert_eq. }
  split; [exact H1 |]. split; [exact H2 |].
  split; [rewrite H2; apply filter_other_gone |].
  split; [intros Hnot; rewrite H2, filter_other_absent by exact Hnot; reflexivity |].
  split; [exact H3 |].
  split.
  { intros m Hrecv Hroute. rewrite publish_unfold, Hroute, Hrecv, H3. reflexivity. }
  split.
  { intros b Hne. subst w2 w3. unfold Broker.unsubscribe, modify. cbn [snd].
    rewrite H1. subst w1. simpl. rewrite !lookup_insert_ne by congruence. auto. }
  split; [| split].
  - subst w2. unfold Broker.unsubscribe, modify. cbn [snd]. rewrite H1. reflexivity.
  - subst w3. unfold Broker.unsubscribe, modify. cbn [snd]. rewrite H1. reflexivity.
  - intros callback Hnone. unfold Broker.unsubscribe, modify. cbn [snd].
    rewrite Hnone. reflexivity.
Qed.

(** ** The agent runtime: calls that are answered *)

Section RpcFacts.

Implicit Types (w : World) (m : Message) (cb : Callback).

Lemma deliver_to_inboxes subs m w :
  Forall (fun cb => exists b, cb = receive_message b) subs ->
  cells (snd (Broker.deliver subs m w)) = cells w
  /\ ticks (snd (Broker.deliver subs m w)) = ticks w
  /\ clock (snd (Broker.deliver subs m w)) = clock w
  /\ log (snd (Broker.deliver subs m w)) = log w.
Proof.
  revert w. induction subs as [| cb rest IH]; intros w Hall; [auto |].
  apply Forall_cons in Hall as [[b ->] Hrest]. cbn [Broker.deliver].
  rewrite (bind_ok _ _ w tt
             (set_inbox (<[b := default [] (inbox w !! b) ++ [m]]> (inbox w))
                (add_call (receive_message b) m w))) by reflexivity.
  destruct (IH (set_inbox (<[b := default [] (inbox w !! b) ++ [m]]> (inbox w))
                  (add_call (receive_message b) m w)) Hrest) as (-> & -> & -> & ->).
  auto.
Qed.

(** A message no handler takes, published where every subscriber is an
    inbox: the call returns and touches neither the cells nor the broker. *)
Lemma publish_ordinary m w :
  inbox_subscribers w ->
  Broker.routed_handler (message_broker w) m = None ->
  exists w',
    Broker.publish m w = (Ok tt, w')
    /\ cells w' = cells w
    /\ message_broker w' = message_broker w
    /\ ticks w' = ticks w /\ clock w' = clock w
    /\ calls w' = calls w ++ map (fun cb => (cb, m))
                    (default [] (subscribers (message_broker w) !! receiver m)).
Proof.
  intros Hinbox Hroute. rewrite publish_unfold, Hroute.
  destruct (subscribers (message_broker w) !! receiver m) as [subs |] eqn:Hs.
  - change (default [] (Some subs)) with subs. destruct subs as [| cb rest].
    + eexists. split; [reflexivity |]. simpl. rewrite app_nil_r. auto.
    + destruct (deliver_to_inboxes (cb :: rest) m (add_published m w) (Hinbox _ _ Hs))
        as (Hc & Ht & Hk & _).
      destruct (deliver_spec (cb :: rest) m (add_published m w))
        as (Hok & Hcalls & Hb & _).
      destruct (Broker.deliver (cb :: rest) m (add_published m w)) as [r w'].
      simpl in Hok. subst r. eexists. split; [reflexivity |]. auto.
  - eexists. split; [reflexivity |]. simpl. rewrite app_nil_r. auto.
Qed.

Lemma routed_handler_command (b : MessageBroker) m :
  message_type m = COMMAND -> Broker.routed_handler b m = None.
Proof. intros H. unfold Broker.routed_handler. rewrite H. reflexivity. Qed.

(** The run of [worker_reply]: the message it builds is published. *)
Lemma worker_reply_run a received answer w :
  let reply := reply_message a received answer (clock w (ticks w))
                 (clock w (S (ticks w))) in
  worker_reply a received answer w =
  match Broker.publish reply (tick (tick w)) with
  | (Ok _, w') => (Ok tt, w')
  | (Raise e, w') => (Raise e, w')
  end.
Proof.
  destruct answer as [c | e]; simpl;
    unfold worker_reply, BaseAgent.send_response, BaseAgent.send_error,
      BaseAgent.send_message, bind, ret; rewrite new_Message_run;
    match goal with |- context [Broker.publish ?r ?w0] =>
      destruct (Broker.publish r w0) as [[[] | e'] w'] end; reflexivity.
Qed.

Lemma reply_message_routed (b : MessageBroker) a received answer t_id t_ts :
  id received <> "" ->
  Broker.routed_handler b (reply_message a received answer t_id t_ts)
  = response_handlers b !! id received.
Proof.
  intros Hne. apply routed_handler_correlated; [| | exact Hne];
    destruct answer; simpl; auto.
Qed.

Lemma request_registered_fields m w :
  let cell := fresh (dom (cells w)) in
  let w1 := request_registered m w in
  cells w1 = <[cell := (None, false)]> (cells w)
  /\ subscribers (message_broker w1) = subscribers (message_broker w)
  /\ response_handlers (message_broker w1)
     = <[id m := response_handler cell]> (response_handlers (message_broker w))
  /\ calls w1 = calls w /\ ticks w1 = ticks w /\ clock w1 = clock w
  /\ log w1 = log w /\ inbox w1 = inbox w.
Proof. repeat split. Qed.

End RpcFacts.

(** X4.  A call to a worker is answered.  A COMMAND with a non-empty id is
    sent with [send_message_and_wait] in a world where every subscriber is an
    inbox; while the caller waits, the receiver answers the command with
    [send_response] or [send_error], as the workers do.  The caller gets that
    very answer: it is handed to the caller's handler and to no subscriber,
    and the handler is gone when the call returns. *)
Theorem call_is_answered (a : AgentType) (m : Message) (answer : Dict + string)
    (w : World) :
  message_type m = COMMAND ->
  id m <> "" ->
  inbox_subscribers w ->
  let run := BaseAgent.send_message_and_wait m [worker_reply a m answer] w in
  let cell := fresh (dom (cells w)) in
  exists t_id t_ts,
    let reply := reply_message a m answer t_id t_ts in
    fst run = Ok (Some reply)
    /\ calls (snd run) =
       calls w
       ++ map (fun cb => (cb, m))
            (default [] (subscribers (message_broker w) !! receiver m))
       ++ [(response_handler cell, reply)]
    /\ response_handlers (message_broker (snd run)) !! id m = None.
Proof.
  intros Hcmd Hid Hinbox run cell. subst run.
  rewrite send_message_and_wait_unfold. fold cell.
  destruct (request_registered_fields m w)
    as (Hcells1 & Hsubs1 & Hh1 & Hcalls1 & _).
  fold cell in Hcells1, Hh1. set (w1 := request_registered m w) in *.
  assert (inbox_subscribers w1) as Hinbox1
    by (intros b subs; rewrite Hsubs1; apply Hinbox).
  destruct (publish_ordinary m w1 Hinbox1 (routed_handler_command _ m Hcmd))
    as (w2 & Hpub & Hcells2 & Hb2 & Ht2 & Hk2 & Hcalls2).
  assert (BaseAgent.send_message m w1 = (Ok (id m), w2)) as Hsend
    by (unfold BaseAgent.send_message; rewrite (bind_ok _ _ _ _ _ Hpub); reflexivity).
  assert (BaseAgent.event_is_set cell w2 = false) as Hunset.
  { unfold BaseAgent.event_is_set. rewrite Hcells2, Hcells1, lookup_insert_eq.
    reflexivity. }
  set (reply := reply_message a m answer (clock w2 (ticks w2))
                  (clock w2 (S (ticks w2)))).
  set (w3 := set_cells (<[cell := (Some reply, true)]> (cells w2))
               (add_call (response_handler cell) reply
                  (add_published reply (tick (tick w2))))).
  assert (worker_reply a m answer w2 = (Ok tt, w3)) as Hreply.
  { rewrite worker_reply_run. fold reply. rewrite publish_unfold.
    cbn [message_broker add_published tick].
    pose proof (reply_message_routed (message_broker w2) a m answer
                  (clock w2 (ticks w2)) (clock w2 (S (ticks w2))) Hid) as Hr.
    fold reply in Hr. rewrite Hr, Hb2, Hh1, lookup_insert_eq.
    reflexivity. }
  assert (BaseAgent.wait cell [worker_reply a m answer] w2 = (Ok true, w3)) as Hwait.
  { rewrite (wait_unset _ _ _ _ Hunset), Hreply. apply wait_set.
    unfold BaseAgent.event_is_set. subst w3. simpl. rewrite lookup_insert_eq.
    reflexivity. }
  exists (clock w2 (ticks w2)), (clock w2 (S (ticks w2))). cbv zeta. fold reply.
  unfold try_finally.
  rewrite (bind_ok _ _ _ _ _ Hsend), (bind_ok _ _ _ _ _ Hwait).
  unfold gets, Broker.unregister_response_handler, modify. cbn [fst snd].
  split; [| split].
  - unfold BaseAgent.container_response. subst w3. simpl.
    rewrite lookup_insert_eq. reflexivity.
  - subst w3. simpl. rewrite Hcalls2, Hcalls1, Hsubs1, <- app_assoc. reflexivity.
  - simpl. apply lookup_delete_eq.
Qed.

Lemma call_is_answered_witness :
  exists t_id t_ts,
    fst (BaseAgent.send_message_and_wait Examples.retrieval_request
           [worker_reply INFORMATION_RETRIEVAL Examples.retrieval_request
              (inl [("results", VList [])])]
           Examples.system_started)
    = Ok (Some (reply_message INFORMATION_RETRIEVAL Examples.retrieval_request
                  (inl [("results", VList [])]) t_id t_ts)).
Proof.
  destruct (call_is_answered INFORMATION_RETRIEVAL Examples.retrieval_request
              (inl [("results", VList [])]) Examples.system_started)
    as (t_id & t_ts & Hrun & _).
  - reflexivity.
  - discriminate.
  - intros b subs Hsubs.
    destruct b; vm_compute in Hsubs; inversion Hsubs; subst;
      repeat constructor; eexists; reflexivity.
  - exists t_id, t_ts. exact Hrun.
Defined.

Section CollisionFacts.

Implicit Types (w : World) (m : Message).

Lemma inbox_subscribers_same w w' :
  subscribers (message_broker w') = subscribers (message_broker w) ->
  inbox_subscribers w -> inbox_subscribers w'.
Proof. intros Heq H b subs. rewrite Heq. apply H. Qed.

(** A call nobody answers: it returns [None], and its cleanup removes
    whatever handler stood under the id of its message. *)
Lemma unanswered_call m w :
  message_type m = COMMAND ->
  inbox_subscribers w ->
  exists w',
    BaseAgent.send_message_and_wait m [] w = (Ok None, w')
    /\ cells w' = <[fresh (dom (cells w)) := (None, false)]> (cells w)
    /\ subscribers (message_broker w') = subscribers (message_broker w)
    /\ response_handlers (message_broker w')
       = delete (id m) (response_handlers (message_broker w))
    /\ calls w' = calls w ++ map (fun cb => (cb, m))
                    (default [] (subscribers (message_broker w) !! receiver m))
    /\ published w' = published w ++ [m]
    /\ ticks w' = ticks w /\ clock w' = clock w.
Proof.
  intros Hcmd Hinbox. rewrite send_message_and_wait_unfold.
  destruct (request_registered_fields m w)
    as (Hcells1 & Hsubs1 & Hh1 & Hcalls1 & Ht1 & Hk1 & _).
  set (cell := fresh (dom (cells w))) in *.
  set (w1 := request_registered m w) in *.
  destruct (publish_ordinary m w1 (inbox_subscribers_same _ _ Hsubs1 Hinbox)
              (routed_handler_command _ m Hcmd))
    as (w2 & Hpub & Hcells2 & Hb2 & Ht2 & Hk2 & Hcalls2).
  pose proof (publish_published m w1) as Hp2. rewrite Hpub in Hp2. simpl in Hp2.
  assert (BaseAgent.send_message m w1 = (Ok (id m), w2)) as Hsend
    by (unfold BaseAgent.send_message; rewrite (bind_ok _ _ _ _ _ Hpub); reflexivity).
  assert (BaseAgent.event_is_set cell w2 = false) as Hunset.
  { unfold BaseAgent.event_is_set. rewrite Hcells2, Hcells1, lookup_insert_eq.
    reflexivity. }
  unfold try_finally.
  rewrite (bind_ok _ _ _ _ _ Hsend), (bind_ok _ _ _ _ _ (wait_timeout _ _ Hunset)).
  unfold bind, modify, ret, Broker.unregister_response_handler. cbn [fst snd].
  eexists. split; [reflexivity |]. simpl.
  rewrite Hcells2, Hcells1, Hb2, Hsubs1, Hh1, Hcalls2, Hcalls1, Hsubs1, Hp2, Ht2, Hk2,
    delete_insert_eq.
  repeat split.
Qed.

End CollisionFacts.

(** X5.  Two calls under the same message id do not coexist.  While a caller
    waits on a COMMAND, another thread makes a call of its own with a message
    of the same id and gives up (its timeout is the shorter); its cleanup
    removes the handler of the first caller.  The answer to the first command,
    sent afterwards, finds no handler: it is delivered to the subscribers of
    the first caller's type and the first call returns [None]. *)
Theorem same_id_call_steals_the_handler
    (a : AgentType) (m1 m2 : Message) (answer : Dict + string) (w : World) :
  message_type m1 = COMMAND ->
  message_type m2 = COMMAND ->
  id m2 = id m1 ->
  id m1 <> "" ->
  inbox_subscribers w ->
  let run :=
    BaseAgent.send_message_and_wait m1
      [(do_ BaseAgent.send_message_and_wait m2 []; ret tt);
       worker_reply a m1 answer] w in
  let subs_of x := default [] (subscribers (message_broker w) !! x) in
  exists t_id t_ts,
    let reply := reply_message a m1 answer t_id t_ts in
    fst run = Ok None
    /\ published (snd run) = published w ++ [m1; m2; reply]
    /\ calls (snd run) =
       calls w ++ map (fun cb => (cb, m1)) (subs_of (receiver m1))
       ++ map (fun cb => (cb, m2)) (subs_of (receiver m2))
       ++ map (fun cb => (cb, reply)) (subs_of (sender m1)).
Proof.
  intros Hcmd1 Hcmd2 Hsame Hid Hinbox run subs_of. subst run.
  rewrite send_message_and_wait_unfold.
  destruct (request_registered_fields m1 w)
    as (Hcells1 & Hsubs1 & Hh1 & Hcalls1 & Ht1 & Hk1 & _).
  set (cell := fresh (dom (cells w))) in *.
  set (w1 := request_registered m1 w) in *.
  assert (published w1 = published w) as Hp1 by reflexivity.
  destruct (publish_ordinary m1 w1 (inbox_subscribers_same _ _ Hsubs1 Hinbox)
              (routed_handler_command _ m1 Hcmd1))
    as (w2 & Hpub & Hcells2 & Hb2 & Ht2 & Hk2 & Hcalls2).
  pose proof (publish_published m1 w1) as Hp2. rewrite Hpub in Hp2. simpl in Hp2.
  assert (BaseAgent.send_message m1 w1 = (Ok (id m1), w2)) as Hsend
    by (unfold BaseAgent.send_message; rewrite (bind_ok _ _ _ _ _ Hpub); reflexivity).
  assert (subscribers (message_broker w2) = subscribers (message_broker w)) as Hsubs2
    by (rewrite Hb2; exact Hsubs1).
  assert (BaseAgent.event_is_set cell w2 = false) as Hunset2.
  { unfold BaseAgent.event_is_set. rewrite Hcells2, Hcells1, lookup_insert_eq.
    reflexivity. }
  (* the other call *)
  destruct (unanswered_call m2 w2 Hcmd2 (inbox_subscribers_same _ _ Hsubs2 Hinbox))
    as (w3 & Hinner & Hcells3 & Hsubs3 & Hh3 & Hcalls3 & Hp3 & Ht3 & Hk3).
  assert (snd ((do_ BaseAgent.send_message_and_wait m2 []; ret tt) w2) = w3) as Hstep
    by (rewrite (bind_ok _ _ _ _ _ Hinner); reflexivity).
  assert (cell ∈ dom (cells w2)) as Hdom.
  { rewrite Hcells2, Hcells1. apply elem_of_dom. rewrite lookup_insert_eq. eauto. }
  assert (BaseAgent.event_is_set cell w3 = false) as Hunset3.
  { unfold BaseAgent.event_is_set. rewrite Hcells3, lookup_insert_ne.
    - rewrite Hcells2, Hcells1, lookup_insert_eq. reflexivity.
    - intros Heq. apply (is_fresh (dom (cells w2))). rewrite Heq. exact Hdom. }
  assert (response_handlers (message_broker w3) !! id m1 = None) as Hgone
    by (rewrite Hh3, Hsame; apply lookup_delete_eq).
  (* the answer *)
  set (reply := reply_message a m1 answer (clock w3 (ticks w3))
                  (clock w3 (S (ticks w3)))).
  assert (inbox_subscribers (tick (tick w3))) as Hinbox3.
  { apply (inbox_subscribers_same w); [| exact Hinbox].
    cbn [message_broker tick]. rewrite Hsubs3. exact Hsubs2. }
  assert (Broker.routed_handler (message_broker (tick (tick w3))) reply = None)
    as Hroute.
  { subst reply. rewrite (reply_message_routed _ a m1 answer _ _ Hid). exact Hgone. }
  destruct (publish_ordinary reply (tick (tick w3)) Hinbox3 Hroute)
    as (w4 & Hpub4 & Hcells4 & Hb4 & _ & _ & Hcalls4).
  pose proof (publish_published reply (tick (tick w3))) as Hp4.
  rewrite Hpub4 in Hp4. simpl in Hp4.
  assert (worker_reply a m1 answer w3 = (Ok tt, w4)) as Hreply
    by (rewrite worker_reply_run; fold reply; rewrite Hpub4; reflexivity).
  assert (BaseAgent.event_is_set cell w4 = false) as Hunset4
    by (unfold BaseAgent.event_is_set; rewrite Hcells4; exact Hunset3).
  assert (BaseAgent.wait cell
            [(do_ BaseAgent.send_message_and_wait m2 []; ret tt);
             worker_reply a m1 answer] w2 = (Ok false, w4)) as Hwait.
  { rewrite (wait_unset _ _ _ _ Hunset2), Hstep, (wait_unset _ _ _ _ Hunset3), Hreply.
    apply wait_timeout, Hunset4. }
  exists (clock w3 (ticks w3)), (clock w3 (S (ticks w3))). cbv zeta. fold reply.
  unfold try_finally.
  rewrite (bind_ok _ _ _ _ _ Hsend), (bind_ok _ _ _ _ _ Hwait).
  unfold bind, modify, ret, Broker.unregister_response_handler. cbn [fst snd].
  split; [reflexivity |]. simpl.
  assert (receiver reply = sender m1) as Hrecv by (subst reply; destruct answer; reflexivity).
  rewrite Hp4, Hcalls4. cbn [published calls message_broker tick].
  rewrite Hp3, Hp2, Hcalls3, Hcalls2, Hcalls1, Hsubs3, Hsubs2, Hsubs1, Hrecv.
  try rewrite Hp1.
  subst subs_of. rewrite <- !app_assoc. split; reflexivity.
Qed.

Lemma same_id_call_steals_the_handler_witness :
  fst (BaseAgent.send_message_and_wait Examples.retrieval_request
         [(do_ BaseAgent.send_message_and_wait Examples.retrieval_request []; ret tt);
          worker_reply INFORMATION_RETRIEVAL Examples.retrieval_request
            (inl [("results", VList [])])]
         Examples.system_started)
  = Ok None.
Proof.
  destruct (same_id_call_steals_the_handler INFORMATION_RETRIEVAL
              Examples.retrieval_request Examples.retrieval_request
              (inl [("results", VList [])]) Examples.system_started)
    as (t_id & t_ts & Hrun & _).
  - reflexivity.
  - reflexivity.
  - reflexivity.
  - discriminate.
  - intros b subs Hsubs.
    destruct b; vm_compute in Hsubs; inversion Hsubs; subst;
      repeat constructor; eexists; reflexivity.
  - exact Hrun.
Defined.

(** ** The loop, on messages that are not commands *)

(** X6.  When [handle_message] raises an [Exception] on a message that is not
    a COMMAND, the
    turn of the loop ends normally and changes nothing but the log: the world
    is the one the handler left, with one error record; no message is
    published for the failure. *)
Theorem failure_outside_commands_is_only_logged
    (agent_type : AgentType) (handle_message : Message -> M unit)
    (w : World) (m : Message) (rest : list Message) (e : string) (w1 : World) :
  inbox w !! agent_type = Some (m :: rest) ->
  message_type m <> COMMAND ->
  handle_message m
    (add_log (LogDebug ("Processing message: " +:+ id m +:+ " from "
                          +:+ format_AgentType (sender m)))
       (set_inbox (<[agent_type := rest]> (inbox w)) w))
  = (Raise e, w1) ->
  BaseAgent.process_one agent_type handle_message w
  = (Ok tt, add_log (LogError ("Error handling message " +:+ id m +:+ ": " +:+ e)) w1).
Proof.
  intros Hin Hkind Hraise.
  unfold BaseAgent.process_one, BaseAgent.inbox_get, BaseAgent.process_message,
    try_except, bind, modify, ret.
  rewrite Hin. cbv beta iota. rewrite Hraise.
  rewrite (bool_decide_eq_false_2 _ Hkind). reflexivity.
Qed.

Lemma failure_outside_commands_is_only_logged_witness :
  fst (BaseAgent.process_one DIALOGUE (fun _ => raise "boom") event_queued) = Ok tt
  /\ published (snd (BaseAgent.process_one DIALOGUE (fun _ => raise "boom") event_queued))
     = [status_event].
Proof.
  assert (inbox event_queued !! DIALOGUE = Some [status_event]) as Hin
    by (vm_compute; reflexivity).
  rewrite (failure_outside_commands_is_only_logged DIALOGUE (fun _ => raise "boom")
             event_queued status_event [] "boom" _ Hin ltac:(discriminate) eq_refl).
  split; reflexivity.
Defined.

(** ** The orchestrator *)

Section OrchestratorFacts.

Implicit Types (w : World) (m : Message).

Lemma then_ret_snd {A} (c : M A) w : snd ((do_ c; ret tt) w) = snd (c w).
Proof. unfold bind, ret. destruct (c w) as [[a | e] w1]; reflexivity. Qed.

Lemma then_ret_fst_raise {A} (c : M A) w e :
  fst (c w) = Raise e -> fst ((do_ c; ret tt) w) = Raise e.
Proof. unfold bind, ret. destruct (c w) as [[a | e'] w1]; simpl; congruence. Qed.

Lemma forward_published s r ty c cid p w :
  published (snd ((do x <- new_Message s r ty c cid p;
                   do_ BaseAgent.send_message x; ret tt) w))
  = published w ++
      [Message_init (clock w (ticks w)) (clock w (S (ticks w))) s r ty c cid p].
Proof.
  rewrite (bind_ok _ _ _ _ _ (new_Message_run s r ty c cid p w)).
  rewrite then_ret_snd, send_message_published. reflexivity.
Qed.

End OrchestratorFacts.

(** X7.  Whatever the command and the registry, [_handle_command] of the
    orchestrator either publishes exactly one message, which carries the id of
    the command as its [correlation_id] and is either a forwarded COMMAND or an
    answer addressed to the sender of the command, or it raises having
    published nothing. *)
Theorem orchestrator_one_message_per_command
    (agent_type : AgentType) (registered : OrchestratorAgent.Registry)
    (m : Message) (w : World) :
  let run := OrchestratorAgent._handle_command agent_type registered m w in
  (exists x,
     published (snd run) = published w ++ [x]
     /\ correlation_id x = Some (id m)
     /\ (message_type x = COMMAND
         \/ (sender x = agent_type /\ receiver x = sender m
             /\ (message_type x = RESPONSE \/ message_type x = ERROR))))
  \/ (published (snd run) = published w /\ exists e, fst run = Raise e).
Proof.
  cbv zeta.
  unfold OrchestratorAgent._handle_command, OrchestratorAgent._dispatch_command.
  repeat case_match;
    first
      [ right; split; [reflexivity | eexists; reflexivity]
      | left; eexists; split;
        [ first [ rewrite then_ret_snd, send_response_published; reflexivity
                | rewrite then_ret_snd, send_error_published; reflexivity
                | rewrite forward_published; reflexivity ]
        | split; [reflexivity | simpl; tauto] ] ].
Qed.

(** X8.  A [route] command is relayed to any agent type named in it, whether
    or not that agent is registered with the orchestrator: the relayed COMMAND
    carries the payload as its content, keeps the sender of the original
    command as its sender and the id of the original as its [correlation_id],
    and has priority MEDIUM whatever the priority of the original. *)
Theorem route_ignores_registry_and_priority
    (agent_type : AgentType) (registered : OrchestratorAgent.Registry)
    (m : Message) (target : string) (target_type : AgentType) (payload : Dict)
    (w : World) :
  PyDict.get "action" (content m) = Some (VStr "route") ->
  PyDict.get "target_agent" (content m) = Some (VStr target) ->
  AgentType_of_value target = Some target_type ->
  PyDict.get "payload" (content m) = Some (VDict payload) ->
  payload <> [] ->
  published (snd (OrchestratorAgent._handle_command agent_type registered m w))
  = published w ++
      [Message_init (clock w (ticks w)) (clock w (S (ticks w)))
         (sender m) target_type COMMAND payload (Some (id m)) MEDIUM].
Proof.
  intros Haction Htarget Htype Hpayload Hne.
  unfold OrchestratorAgent._handle_command.
  rewrite Haction, Htarget, Hpayload. cbn [is_str truthy_opt truthy].
  assert (target <> "") as Ht by (intros ->; discriminate).
  assert (length payload <> 0%nat) as Hl by (destruct payload; [congruence | discriminate]).
  rewrite (bool_decide_eq_false_2 _ Ht), (bool_decide_eq_false_2 _ Hl), Htype.
  cbn [negb bool_decide decide_rel]. apply forward_published.
Qed.

Lemma route_ignores_registry_and_priority_witness :
  map (fun x => (sender x, receiver x, priority x, correlation_id x))
    (published (snd (OrchestratorAgent._handle_command ORCHESTRATOR []
                       Examples.route_command Examples.system_started)))
  = [(DIALOGUE, INFORMATION_RETRIEVAL, MEDIUM, Some "1699999999.5")].
Proof.
  rewrite (route_ignores_registry_and_priority ORCHESTRATOR [] Examples.route_command
             "information_retrieval" INFORMATION_RETRIEVAL
             [("action", VStr "remove_document"); ("document_id", VStr "doc-1")]
             Examples.system_started eq_refl eq_refl eq_refl eq_refl
             ltac:(discriminate)).
  reflexivity.
Defined.

Section PrefixFacts.

Ltac split_first_char c :=
  repeat match goal with
         | |- context [Ascii.ascii_dec ?a c] => destruct (Ascii.ascii_dec a c)
         | H : context [Ascii.ascii_dec ?a c] |- _ => destruct (Ascii.ascii_dec a c)
         end.

(** The actions the orchestrator dispatches to the retrieval agent: none of
    them is an action with a branch of its own. *)
Lemma retrieval_prefix_facts action :
  String.prefix "retrieve_" action || String.prefix "search_" action = true ->
  String.prefix "process_document" action || String.prefix "get_document" action = false
  /\ action <> "ping" /\ action <> "get_agent_status" /\ action <> "route"
  /\ action <> "retrieve" /\ action <> "index_document"
  /\ action <> "remove_document" /\ action <> "clear_cache".
Proof.
  intros Hp. split.
  - destruct action as [| c s]; [discriminate |].
    cbn [String.prefix] in *. split_first_char c; subst; try discriminate; reflexivity.
  - repeat split; intros ->; vm_compute in Hp; discriminate.
Qed.

End PrefixFacts.

Section RetrievalAgentFacts.

Context `{External}.

Lemma lift_then_ret_world {A} (c : M A) self :
  InformationRetrievalAgent.world
    (snd ((do_ InformationRetrievalAgent.lift c; ret tt) self))
  = snd (c (InformationRetrievalAgent.world self)).
Proof.
  unfold bind, ret. rewrite lift_run.
  destruct (c (InformationRetrievalAgent.world self)) as [[a | e] w1]; reflexivity.
Qed.

Lemma lift_then_ret_rest {A} (c : M A) self :
  let self' := snd ((do_ InformationRetrievalAgent.lift c; ret tt) self) in
  InformationRetrievalAgent.retriever self' = InformationRetrievalAgent.retriever self
  /\ InformationRetrievalAgent.query_cache self'
     = InformationRetrievalAgent.query_cache self.
Proof.
  cbv zeta. unfold bind, ret. rewrite lift_run.
  destruct (c (InformationRetrievalAgent.world self)) as [[a | e] w1]; split; reflexivity.
Qed.

End RetrievalAgentFacts.

(** X9.  No action the orchestrator dispatches to the retrieval agent by its
    prefix ([retrieve_...], [search_...]) is an action the retrieval agent
    knows: the orchestrator forwards the content unchanged, and the retrieval
    agent, whatever its handlers of [retrieve], [index_document] and
    [clear_cache] do, answers the forwarded command with the ERROR
    "Unknown action: <action>" and leaves its index and its cache as they
    were. *)
Theorem dispatched_action_is_unknown_to_retrieval `{External}
    (orchestrator worker : AgentType) (registered : OrchestratorAgent.Registry)
    (_handle_retrieve _handle_index_document _handle_clear_cache :
       Message -> St InformationRetrievalAgent.Agent unit)
    (m : Message) (action : string) (w : World)
    (self : InformationRetrievalAgent.Agent) :
  PyDict.get "action" (content m) = Some (VStr action) ->
  String.prefix "retrieve_" action || String.prefix "search_" action = true ->
  PyDict.mem INFORMATION_RETRIEVAL registered = true ->
  let forwarded :=
    Message_init (clock w (ticks w)) (clock w (S (ticks w))) orchestrator
      INFORMATION_RETRIEVAL COMMAND (content m) (Some (id m)) (priority m) in
  let w0 := InformationRetrievalAgent.world self in
  let self' :=
    snd (InformationRetrievalAgent.handle_message worker _handle_retrieve
           _handle_index_document _handle_clear_cache forwarded self) in
  published (snd (OrchestratorAgent._handle_command orchestrator registered m w))
  = published w ++ [forwarded]
  /\ published (InformationRetrievalAgent.world self')
     = published w0 ++
         [Message_init (clock w0 (ticks w0)) (clock w0 (S (ticks w0))) worker
            orchestrator ERROR [("error", VStr ("Unknown action: " +:+ action))]
            (Some (id forwarded)) MEDIUM]
  /\ InformationRetrievalAgent.retriever self' = InformationRetrievalAgent.retriever self
  /\ InformationRetrievalAgent.query_cache self'
     = InformationRetrievalAgent.query_cache self.
Proof.
  intros Haction Hprefix Hreg forwarded w0 self'.
  destruct (retrieval_prefix_facts action Hprefix)
    as (Hother & Hping & Hstatus & Hroute & Hret & Hidx & Hrem & Hclr).
  split.
  - unfold OrchestratorAgent._handle_command. rewrite Haction. cbn [is_str].
    rewrite (bool_decide_eq_false_2 _ Hping), (bool_decide_eq_false_2 _ Hstatus),
      (bool_decide_eq_false_2 _ Hroute).
    apply (dispatch_forwards_under_new_id orchestrator registered m action w
             Haction Hother Hprefix Hreg).
  - subst self'.
    unfold InformationRetrievalAgent.handle_message,
      InformationRetrievalAgent._handle_command.
    change (message_type forwarded) with COMMAND.
    change (Schema.content forwarded) with (content m).
    rewrite (bool_decide_eq_true_2 _ eq_refl), Haction. cbn [is_str].
    rewrite (bool_decide_eq_false_2 _ Hret), (bool_decide_eq_false_2 _ Hidx),
      (bool_decide_eq_false_2 _ Hrem), (bool_decide_eq_false_2 _ Hclr).
    split; [| apply lift_then_ret_rest].
    rewrite lift_then_ret_world, send_error_published. reflexivity.
Qed.

Lemma dispatched_action_is_unknown_to_retrieval_witness :
  let forwarded :=
    Message_init "1700000000.0" "1700000000.1" ORCHESTRATOR INFORMATION_RETRIEVAL
      COMMAND (content Examples.search_command) (Some "1699999999.5") HIGH in
  map content
    (published (InformationRetrievalAgent.world
       (snd (InformationRetrievalAgent.handle_message (H := Examples.integer_numbers)
               INFORMATION_RETRIEVAL (fun _ => ret tt) (fun _ => ret tt)
               (fun _ => ret tt) forwarded Examples.indexed_agent))))
  = [[("error", VStr "Unknown action: search_documents")]].
Proof.
  cbv zeta.
  destruct (dispatched_action_is_unknown_to_retrieval (H := Examples.integer_numbers)
              ORCHESTRATOR INFORMATION_RETRIEVAL Examples.registry
              (fun _ => ret tt) (fun _ => ret tt) (fun _ => ret tt)
              Examples.search_command "search_documents" Examples.system_started
              Examples.indexed_agent eq_refl eq_refl eq_refl)
    as (_ & Hanswer & _).
  etransitivity; [exact (f_equal (map content) Hanswer) | reflexivity].
Defined.

Section RegistryFacts.

Context {K V : Type} `{EqDecision K}.

Implicit Types (k : K) (v : V) (d : list (K * V)).

Lemma keys_set_present k v d :
  PyDict.mem k d = true -> PyDict.keys (PyDict.set k v d) = PyDict.keys d.
Proof.
  unfold PyDict.mem, PyDict.keys.
  induction d as [| [k0 v0] d IH]; simpl; [discriminate |].
  destruct (decide (k0 = k)) as [-> | Hne]; simpl; [reflexivity |].
  intros Hmem. rewrite (IH Hmem). reflexivity.
Qed.

Lemma keys_set_absent k v d :
  PyDict.mem k d = false -> PyDict.keys (PyDict.set k v d) = PyDict.keys d ++ [k].
Proof.
  unfold PyDict.mem, PyDict.keys.
  induction d as [| [k0 v0] d IH]; simpl; [reflexivity |].
  destruct (decide (k0 = k)) as [-> | Hne]; simpl; [discriminate |].
  intros Hmem. rewrite (IH Hmem). reflexivity.
Qed.

Lemma get_del_ne k k' d :
  k <> k' -> PyDict.get k' (PyDict.del k d) = PyDict.get k' d.
Proof.
  intros Hne. induction d as [| [k0 v0] d IH]; simpl; [reflexivity |].
  destruct (decide (k0 = k)) as [-> | Hne0]; simpl.
  - rewrite decide_False by exact Hne. exact IH.
  - destruct (decide (k0 = k')); [reflexivity | exact IH].
Qed.

Lemma mem_set_eq k v d : PyDict.mem k (PyDict.set k v d) = true.
Proof. unfold PyDict.mem. rewrite get_set_eq. reflexivity. Qed.

Lemma mem_del_eq k d : PyDict.mem k (PyDict.del k d) = false.
Proof. unfold PyDict.mem. rewrite get_del_eq. reflexivity. Qed.

End RegistryFacts.

Lemma registered_key_inv v registered a :
  OrchestratorAgent.registered_key v registered = Some a ->
  exists s, v = VStr s /\ s <> "" /\ AgentType_of_value s = Some a
            /\ PyDict.mem a registered = true.
Proof.
  unfold OrchestratorAgent.registered_key.
  destruct v as [| | | s | |]; try discriminate.
  destruct (AgentType_of_value s) as [a' |] eqn:Hs; [| discriminate].
  destruct (PyDict.mem a' registered) eqn:Hmem; [| discriminate].
  intros [= <-]. exists s. repeat split; try assumption.
  intros ->. discriminate.
Qed.

(** X10.  A status change reported by an EVENT is what [get_agent_status]
    answers afterwards.  For an [agent_status_change] event that names a
    registered agent and a truthy status, [_handle_event] returns a registry
    with the same agents in the same order, and a later [get_agent_status]
    command for that agent is answered with exactly the status of the event. *)
Theorem status_change_is_reported
    (agent_type : AgentType) (registered : OrchestratorAgent.Registry)
    (event query : Message) (r s : Value) (a : AgentType) (w w' : World) :
  PyDict.get "event_type" (content event) = Some (VStr "agent_status_change") ->
  PyDict.get "agent_type" (content event) = Some r ->
  PyDict.get "status" (content event) = Some s ->
  truthy s = true ->
  OrchestratorAgent.registered_key r registered = Some a ->
  PyDict.get "action" (content query) = Some (VStr "get_agent_status") ->
  PyDict.get "agent_type" (content query) = Some r ->
  exists registered',
    fst (OrchestratorAgent._handle_event registered event w) = Ok registered'
    /\ PyDict.keys registered' = PyDict.keys registered
    /\ published (snd (OrchestratorAgent._handle_command agent_type registered' query w'))
       = published w' ++
           [Message_init (clock w' (ticks w')) (clock w' (S (ticks w'))) agent_type
              (sender query) RESPONSE [("agent", r); ("status", s)]
              (Some (id query)) MEDIUM].
Proof.
  intros Hev Hr Hs Hts Hkey Hact Hq.
  destruct (registered_key_inv _ _ _ Hkey) as (name & -> & Hname & Hof & Hmem).
  set (info := match PyDict.get a registered with
               | Some info => info
               | None => {| OrchestratorAgent.status := VNone;
                            OrchestratorAgent.capabilities := [] |}
               end).
  set (registered' :=
         PyDict.set a {| OrchestratorAgent.status := s;
                         OrchestratorAgent.capabilities :=
                           OrchestratorAgent.capabilities info |} registered).
  exists registered'. split; [| split].
  - unfold OrchestratorAgent._handle_event.
    rewrite Hev, Hr, Hs, Hkey. cbn [is_str truthy hashable andb].
    rewrite (bool_decide_eq_true_2 _ eq_refl), (bool_decide_eq_false_2 _ Hname), Hts.
    reflexivity.
  - apply keys_set_present, Hmem.
  - unfold OrchestratorAgent._handle_command.
    rewrite Hact, Hq.
    change (is_str (Some (VStr "get_agent_status")) "ping") with false.
    change (is_str (Some (VStr "get_agent_status")) "get_agent_status") with true.
    cbn [truthy hashable].
    rewrite (bool_decide_eq_false_2 _ Hname).
    assert (OrchestratorAgent.registered_key (VStr name) registered' = Some a) as ->.
    { unfold OrchestratorAgent.registered_key, registered'.
      rewrite Hof, mem_set_eq. reflexivity. }
    unfold registered'. rewrite get_set_eq.
    cbn [negb OrchestratorAgent.status].
    rewrite then_ret_snd, send_response_published. reflexivity.
Qed.

Lemma status_change_is_reported_witness :
  exists registered',
    fst (OrchestratorAgent._handle_event Examples.registry status_event
           Examples.system_started) = Ok registered'
    /\ PyDict.keys registered' = [DIALOGUE; INFORMATION_RETRIEVAL]
    /\ map content
         (published (snd (OrchestratorAgent._handle_command ORCHESTRATOR registered'
                            status_query Examples.system_started)))
       = [[("agent", VStr "information_retrieval"); ("status", VStr "busy")]].
Proof.
  destruct (status_change_is_reported ORCHESTRATOR Examples.registry status_event
              status_query (VStr "information_retrieval") (VStr "busy")
              INFORMATION_RETRIEVAL Examples.system_started Examples.system_started
              eq_refl eq_refl eq_refl eq_refl eq_refl eq_refl eq_refl)
    as (registered' & Hev & Hkeys & Hpub).
  exists registered'. split; [exact Hev |]. split; [exact Hkeys |].
  rewrite Hpub. reflexivity.
Defined.

(** X11.  Registration decides whether a dispatched command is forwarded.
    For a command whose action has the prefix [retrieve_] or [search_]: once
    the retrieval agent is unregistered the orchestrator answers the sender
    with the ERROR "Agent AgentType.INFORMATION_RETRIEVAL not available to
    handle action <action>", and once it is registered the command is
    forwarded to it with its content and priority. *)
Theorem registration_decides_dispatch
    (agent_type : AgentType) (registered : OrchestratorAgent.Registry)
    (m : Message) (action : string) (w : World) :
  PyDict.get "action" (content m) = Some (VStr action) ->
  String.prefix "retrieve_" action || String.prefix "search_" action = true ->
  let t_id := clock w (ticks w) in
  let t_ts := clock w (S (ticks w)) in
  published (snd (OrchestratorAgent._handle_command agent_type
                    (OrchestratorAgent.unregister_agent INFORMATION_RETRIEVAL registered)
                    m w))
  = published w ++
      [Message_init t_id t_ts agent_type (sender m) ERROR
         [("error",
           VStr ("Agent AgentType.INFORMATION_RETRIEVAL not available to handle action "
                   +:+ action))]
         (Some (id m)) MEDIUM]
  /\ published (snd (OrchestratorAgent._handle_command agent_type
                       (OrchestratorAgent.register_agent INFORMATION_RETRIEVAL registered)
                       m w))
     = published w ++
         [Message_init t_id t_ts agent_type INFORMATION_RETRIEVAL COMMAND (content m)
            (Some (id m)) (priority m)].
Proof.
  intros Haction Hprefix t_id t_ts.
  destruct (retrieval_prefix_facts action Hprefix)
    as (Hother & Hping & Hstatus & Hroute & _).
  assert (forall registered',
            OrchestratorAgent._handle_command agent_type registered' m w
            = OrchestratorAgent._dispatch_command agent_type registered' m w) as Hdispatch.
  { intros registered'. unfold OrchestratorAgent._handle_command.
    rewrite Haction. cbn [is_str].
    rewrite (bool_decide_eq_false_2 _ Hping), (bool_decide_eq_false_2 _ Hstatus),
      (bool_decide_eq_false_2 _ Hroute). reflexivity. }
  rewrite !Hdispatch. split.
  - assert (PyDict.mem INFORMATION_RETRIEVAL
              (OrchestratorAgent.unregister_agent INFORMATION_RETRIEVAL registered)
            = false) as Hgone.
    { unfold OrchestratorAgent.unregister_agent.
      destruct (PyDict.mem INFORMATION_RETRIEVAL registered) eqn:Hmem;
        [apply mem_del_eq | exact Hmem]. }
    unfold OrchestratorAgent._dispatch_command.
    rewrite Haction, Hother, Hprefix, Hgone. cbn [negb].
    rewrite then_ret_snd, send_error_published. reflexivity.
  - apply (dispatch_forwards_under_new_id agent_type _ m action w Haction Hother Hprefix).
    apply mem_set_eq.
Qed.

Lemma registration_decides_dispatch_witness :
  map (fun x => (message_type x, receiver x))
    (published (snd (OrchestratorAgent._handle_command ORCHESTRATOR
                       (OrchestratorAgent.unregister_agent INFORMATION_RETRIEVAL
                          Examples.registry)
                       Examples.search_command Examples.system_started)))
  = [(ERROR, DIALOGUE)].
Proof.
  destruct (registration_decides_dispatch ORCHESTRATOR Examples.registry
              Examples.search_command "search_documents" Examples.system_started
              eq_refl eq_refl) as [Hgone _].
  rewrite Hgone. reflexivity.
Defined.

(** ** Starting and stopping an agent *)

(** X12.  [start] subscribes the agent once however often it is called: the
    first call on an agent that is not running appends its [receive_message]
    to the callbacks of its type and leaves the agent running, and a call on a
    running agent returns the agent and the world as they are. *)
Theorem start_subscribes_once (a : AgentType) (self : Lifecycle.Agent) (w : World) :
  let first := Lifecycle.start a self w in
  let again := (do started <- Lifecycle.start a self; Lifecycle.start a started) w in
  (Lifecycle.running self = true -> first = (Ok self, w))
  /\ (Lifecycle.running self = false ->
      fst first = Ok {| Lifecycle.running := true; Lifecycle.thread := true |}
      /\ subscribers (message_broker (snd first)) !! a
         = Some (default [] (subscribers (message_broker w) !! a)
                   ++ [receive_message a])
      /\ (forall b, b <> a ->
            subscribers (message_broker (snd first)) !! b
            = subscribers (message_broker w) !! b)
      /\ inbox (snd first) = inbox w)
  /\ again = first.
Proof.
  cbv zeta. split; [| split].
  - intros Hrun. unfold Lifecycle.start. rewrite Hrun. reflexivity.
  - intros Hrun. unfold Lifecycle.start. rewrite Hrun.
    split; [reflexivity |]. split; [| split].
    + simpl. apply lookup_insert_eq.
    + intros b Hb. simpl. apply lookup_insert_ne. congruence.
    + reflexivity.
  - unfold bind, Lifecycle.start. destruct (Lifecycle.running self) eqn:Hrun.
    + unfold ret. rewrite Hrun. reflexivity.
    + reflexivity.
Qed.

(** X13.  [stop] removes every callback subscribed under the type of the
    agent, whoever subscribed it and whether or not the agent was started,
    and touches nothing else of the broker; the queue of the agent keeps the
    messages it holds.  A message published to that type afterwards, unless a
    response handler takes it, reaches no callback and no inbox: it is logged
    as having no subscriber. *)
Theorem stop_unsubscribes_every_callback
    (a : AgentType) (self : Lifecycle.Agent) (w : World) (m : Message) :
  let stopped := snd (Lifecycle.stop a self w) in
  let after := snd (Broker.publish m stopped) in
  fst (Lifecycle.stop a self w)
  = Ok {| Lifecycle.running := false; Lifecycle.thread := false |}
  /\ default [] (subscribers (message_broker stopped) !! a) = []
  /\ (forall b, b <> a ->
        subscribers (message_broker stopped) !! b
        = subscribers (message_broker w) !! b)
  /\ response_handlers (message_broker stopped) = response_handlers (message_broker w)
  /\ inbox stopped = inbox w
  /\ (receiver m = a ->
      Broker.routed_handler (message_broker w) m = None ->
      calls after = calls stopped
      /\ inbox after = inbox w
      /\ last (log after)
         = Some (LogWarning ("No subscribers for agent " +:+ format_AgentType a))).
Proof.
  cbv zeta.
  assert (exists stopped,
            Lifecycle.stop a self w
            = (Ok {| Lifecycle.running := false; Lifecycle.thread := false |}, stopped)
            /\ default [] (subscribers (message_broker stopped) !! a) = []
            /\ (forall b, b <> a ->
                  subscribers (message_broker stopped) !! b
                  = subscribers (message_broker w) !! b)
            /\ response_handlers (message_broker stopped)
               = response_handlers (message_broker w)
            /\ inbox stopped = inbox w)
    as (stopped & -> & Hnone & Hframe & Hhandlers & Hinbox).
  { unfold Lifecycle.stop, Broker.unsubscribe, bind, modify, ret.
    destruct (subscribers (message_broker w) !! a) as [current |] eqn:Hsubs;
      eexists; (split; [reflexivity |]); simpl.
    - rewrite lookup_insert_eq. repeat split.
      intros b Hb. apply lookup_insert_ne. congruence.
    - rewrite Hsubs. repeat split. }
  cbn [fst snd]. repeat (split; [assumption || reflexivity |]).
  intros Hrecv Hroute.
  assert (Broker.routed_handler (message_broker stopped) m = None) as Hroute'.
  { unfold Broker.routed_handler in *. rewrite Hhandlers. exact Hroute. }
  rewrite publish_unfold, Hroute', Hrecv, Hnone. cbn [snd].
  split; [reflexivity |]. split; [exact Hinbox |].
  cbn [log add_log add_published]. apply last_snoc.
Qed.

(** ** The index: what [add_documents] and [remove_document] store *)

Section KeyFacts.

Context {K V : Type} `{EqDecision K}.

Implicit Types (k : K) (v : V) (d : list (K * V)).

Lemma get_None_keys k d : PyDict.get k d = None <-> k ∉ PyDict.keys d.
Proof.
  unfold PyDict.keys. induction d as [| [k0 v0] d IH]; simpl.
  - split; [intros _ Hin; no_elem Hin | reflexivity].
  - rewrite not_elem_of_cons. destruct (decide (k0 = k)) as [-> | Hne].
    + split; [discriminate | intros [Hk _]; congruence].
    + rewrite IH. split; [intros Hk; split; [congruence | exact Hk] | intros [_ Hk]; exact Hk].
Qed.

Lemma del_absent k d : PyDict.mem k d = false -> PyDict.del k d = d.
Proof.
  unfold PyDict.mem. induction d as [| [k0 v0] d IH]; simpl; [reflexivity |].
  destruct (decide (k0 = k)) as [-> | Hne]; [discriminate |].
  intros Hmem. rewrite (IH Hmem). reflexivity.
Qed.

Lemma del_set_eq k v d : PyDict.del k (PyDict.set k v d) = PyDict.del k d.
Proof.
  induction d as [| [k0 v0] d IH]; simpl.
  - rewrite decide_True; reflexivity.
  - destruct (decide (k0 = k)) as [-> | Hne]; simpl.
    + rewrite decide_True; reflexivity.
    + rewrite decide_False by exact Hne. rewrite IH. reflexivity.
Qed.

Lemma keys_set_nodup k v d : NoDup (PyDict.keys d) -> NoDup (PyDict.keys (PyDict.set k v d)).
Proof.
  intros Hnd. destruct (PyDict.mem k d) eqn:Hmem.
  - rewrite keys_set_present by exact Hmem. exact Hnd.
  - rewrite keys_set_absent by exact Hmem.
    apply NoDup_app. split; [exact Hnd |]. split; [| apply NoDup_singleton].
    intros x Hx Hx'. apply list_elem_of_singleton in Hx'. subst x.
    apply mem_false_get, get_None_keys in Hmem. contradiction.
Qed.

End KeyFacts.

Section StoreFacts.

Context `{External}.

Implicit Types (self : Retriever.VectorRetriever)
  (chunks : list Retriever.DocumentChunk) (d : string).

Lemma group_get d chunks acc :
  PyDict.get d (fold_left Retriever.group_chunk chunks acc) =
  match chunks_of d chunks with
  | [] => PyDict.get d acc
  | c :: batch => Some (default [] (PyDict.get d acc) ++ c :: batch)
  end.
Proof.
  revert acc. induction chunks as [| c cs IH]; intros acc; [reflexivity |].
  cbn [fold_left]. rewrite IH. unfold chunks_of, Retriever.group_chunk.
  cbn [List.filter]. destruct (decide (Retriever.document_id c = d)) as [<- | Hne].
  - rewrite (bool_decide_eq_true_2 _ eq_refl), get_set_eq.
    destruct (List.filter _ cs); [reflexivity |].
    simpl. rewrite <- app_assoc. reflexivity.
  - rewrite (bool_decide_eq_false_2 _ Hne), get_set_ne by exact Hne. reflexivity.
Qed.

Lemma group_keys_nodup chunks acc :
  NoDup (PyDict.keys acc) ->
  NoDup (PyDict.keys (fold_left Retriever.group_chunk chunks acc)).
Proof.
  revert acc. induction chunks as [| c cs IH]; intros acc Hnd; [exact Hnd |].
  cbn [fold_left]. apply IH. unfold Retriever.group_chunk. apply keys_set_nodup, Hnd.
Qed.

Lemma fold_add_group_documents groups self d :
  NoDup (PyDict.keys groups) ->
  PyDict.get d (Retriever.documents (fold_left Retriever.add_group groups self)) =
  match PyDict.get d groups with
  | Some lst => Some (stored self d ++ lst)
  | None => PyDict.get d (Retriever.documents self)
  end.
Proof.
  revert self. induction groups as [| [d0 lst0] groups IH]; intros self Hnd;
    [reflexivity |].
  cbn [PyDict.keys map fst] in Hnd. apply NoDup_cons in Hnd as [Hfresh Hnd].
  cbn [fold_left]. rewrite (IH _ Hnd). cbn [PyDict.get].
  unfold stored. cbn [Retriever.add_group Retriever.documents].
  destruct (decide (d0 = d)) as [-> | Hne].
  - apply get_None_keys in Hfresh. rewrite Hfresh, get_set_eq. reflexivity.
  - rewrite get_set_ne by exact Hne. reflexivity.
Qed.

Lemma add_documents_documents self chunks d :
  PyDict.get d (Retriever.documents (Retriever.add_documents self chunks)) =
  match chunks_of d chunks with
  | [] => PyDict.get d (Retriever.documents self)
  | c :: batch => Some (stored self d ++ c :: batch)
  end.
Proof.
  unfold Retriever.add_documents, Retriever.group_by_document.
  rewrite fold_add_group_documents by (apply group_keys_nodup, NoDup_nil_2).
  rewrite group_get. destruct (chunks_of d chunks); reflexivity.
Qed.

Lemma stored_add_documents self chunks d :
  stored (Retriever.add_documents self chunks) d = stored self d ++ chunks_of d chunks.
Proof.
  unfold stored at 1. rewrite add_documents_documents.
  destruct (chunks_of d chunks); [| reflexivity].
  rewrite app_nil_r. reflexivity.
Qed.

End StoreFacts.

(** X14.  [add_documents] appends to the chunks stored for each document the
    chunks of the batch that belong to it, in the order of the batch; a
    document with no chunk in the batch is left as it is, and no document is
    created for it.  So the count [remove_document] returns after the call is
    the count before it plus the number of chunks of the batch with that
    [document_id]. *)
Theorem add_documents_appends_in_batch_order `{External}
    (self : Retriever.VectorRetriever) (chunks : list Retriever.DocumentChunk)
    (d : string) :
  let self' := Retriever.add_documents self chunks in
  PyDict.get d (Retriever.documents self') =
    match chunks_of d chunks with
    | [] => PyDict.get d (Retriever.documents self)
    | c :: batch => Some (stored self d ++ c :: batch)
    end
  /\ stored self' d = stored self d ++ chunks_of d chunks
  /\ fst (Retriever.remove_document self' d)
     = fst (Retriever.remove_document self d) + Z.of_nat (length (chunks_of d chunks)).
Proof.
  cbv zeta. split; [apply add_documents_documents |].
  split; [apply stored_add_documents |].
  rewrite !remove_document_count. fold (stored (Retriever.add_documents self chunks) d).
  fold (stored self d). rewrite stored_add_documents, length_app. lia.
Qed.

Section RoundTripFacts.

Context `{External}.

Implicit Types (self : Retriever.VectorRetriever)
  (chunks : list Retriever.DocumentChunk) (d : string).

Lemma del_fold_store_vector d chunks vs :
  PyDict.del d (fold_left (Retriever.store_vector d) chunks vs) = PyDict.del d vs.
Proof.
  revert vs. induction chunks as [| c cs IH]; intros vs; [reflexivity |].
  cbn [fold_left]. rewrite IH. unfold Retriever.store_vector.
  destruct (Retriever.embedding c) as [[| x v] |]; try reflexivity.
  apply del_set_eq.
Qed.

Lemma group_single d chunks lst :
  Forall (fun c => Retriever.document_id c = d) chunks ->
  fold_left Retriever.group_chunk chunks [(d, lst)] = [(d, lst ++ chunks)].
Proof.
  revert lst. induction chunks as [| c cs IH]; intros lst Hall.
  - rewrite app_nil_r. reflexivity.
  - apply Forall_cons in Hall as [Hc Hall]. cbn [fold_left].
    unfold Retriever.group_chunk at 2. rewrite Hc. cbn [PyDict.get PyDict.set].
    rewrite !decide_True by reflexivity. cbn [from_option id]. simpl.
    rewrite (IH _ Hall), <- app_assoc. reflexivity.
Qed.

Lemma remove_after_add self chunks d :
  PyDict.mem d (Retriever.documents self) = false ->
  PyDict.mem d (Retriever.vectors self) = false ->
  Forall (fun c => Retriever.document_id c = d) chunks ->
  Retriever.remove_document (Retriever.add_documents self chunks) d
  = (Z.of_nat (length chunks), self).
Proof.
  intros Hdocs Hvecs Hall. destruct self as [docs vs]. cbn [Retriever.documents
    Retriever.vectors] in *.
  destruct chunks as [| c cs].
  - unfold Retriever.add_documents, Retriever.remove_document. simpl.
    rewrite Hdocs, Hvecs. apply mem_false_get in Hdocs. rewrite Hdocs. reflexivity.
  - pose proof Hall as Hall'. apply Forall_cons in Hall' as [Hc Hcs].
    unfold Retriever.add_documents, Retriever.group_by_document. cbn [fold_left].
    unfold Retriever.group_chunk at 2. rewrite Hc. cbn [PyDict.get PyDict.set].
    simpl app. rewrite (group_single d cs [c] Hcs). cbn [fold_left Retriever.add_group].
    cbn [Retriever.documents Retriever.vectors].
    unfold Retriever.remove_document. cbn [Retriever.documents Retriever.vectors].
    rewrite get_set_eq, mem_set_eq, del_set_eq, (del_absent _ _ Hdocs).
    pose proof Hdocs as Hget. apply mem_false_get in Hget. rewrite Hget.
    simpl app.
    set (vs' := fold_left (Retriever.store_vector d) (c :: cs) vs).
    assert ((if PyDict.mem d vs' then PyDict.del d vs' else vs') = vs) as ->.
    { destruct (PyDict.mem d vs') eqn:Hmem.
      - unfold vs'. rewrite del_fold_store_vector. apply del_absent, Hvecs.
      - rewrite <- (del_absent _ _ Hmem). unfold vs'.
        rewrite del_fold_store_vector. apply del_absent, Hvecs. }
    reflexivity.
Qed.

End RoundTripFacts.

(** X15.  Removing a document undoes its indexing.  When a document is not
    in the index, indexing a batch of chunks that all belong to it and then
    removing it returns the number of chunks of the batch and gives back the
    index as it was before, chunk store and vector store alike, whether or
    not the chunks carry embeddings. *)
Theorem remove_document_undoes_add_documents `{External}
    (self : Retriever.VectorRetriever) (chunks : list Retriever.DocumentChunk)
    (d : string) :
  PyDict.mem d (Retriever.documents self) = false ->
  PyDict.mem d (Retriever.vectors self) = false ->
  Forall (fun c => Retriever.document_id c = d) chunks ->
  Retriever.remove_document (Retriever.add_documents self chunks) d
  = (Z.of_nat (length chunks), self).
Proof. apply remove_after_add. Qed.

Lemma remove_document_undoes_add_documents_witness :
  Retriever.remove_document
    (Retriever.add_documents (H := Examples.integer_numbers) Examples.indexed
       Examples.batch) "doc-2"
  = (2, Examples.indexed).
Proof.
  apply (remove_document_undoes_add_documents (H := Examples.integer_numbers)
           Examples.indexed Examples.batch "doc-2").
  - reflexivity.
  - reflexivity.
  - repeat constructor.
Defined.

Section ConsistencyFacts.

Context `{External}.

Implicit Types (self : Retriever.VectorRetriever)
  (chunks : list Retriever.DocumentChunk) (d k : string).

(** Every vector entry has a chunk of its id stored under its document. *)
#[local] Abbreviation consistent self :=
  (forall d k, is_Some (vector_entry self d k) ->
     exists c, c ∈ stored self d /\ Retriever.chunk_id c = k).

Lemma chunks_of_elem d chunks c :
  c ∈ chunks -> Retriever.document_id c = d -> c ∈ chunks_of d chunks.
Proof.
  intros Hin Hd. unfold chunks_of. apply list_elem_of_In, filter_In.
  split; [apply list_elem_of_In, Hin | apply bool_decide_eq_true_2, Hd].
Qed.

Lemma consistent_init : consistent Retriever.init.
Proof. intros d k [v Hv]. discriminate. Qed.

Lemma consistent_add self chunks :
  consistent self -> consistent (Retriever.add_documents self chunks).
Proof.
  intros Hself d k Hentry. rewrite stored_add_documents.
  apply add_documents_entry in Hentry as [Hold | (c & Hin & Hd & Hk & _)].
  - destruct (Hself d k Hold) as (c & Hc & Hk).
    exists c. split; [apply elem_of_app; left; exact Hc | exact Hk].
  - exists c. split; [| exact Hk].
    apply elem_of_app. right. apply chunks_of_elem; assumption.
Qed.

Lemma consistent_remove self d0 :
  consistent self -> consistent (snd (Retriever.remove_document self d0)).
Proof.
  intros Hself d k. unfold vector_entry, lookup2, stored.
  destruct (decide (d = d0)) as [-> | Hne].
  - rewrite remove_document_vectors. intros [v Hv]. discriminate.
  - unfold Retriever.remove_document. cbn [snd Retriever.documents Retriever.vectors].
    assert (forall V (dd : list (string * V)),
              PyDict.get d (if PyDict.mem d0 dd then PyDict.del d0 dd else dd)
              = PyDict.get d dd) as Hframe.
    { intros V dd. destruct (PyDict.mem d0 dd); [| reflexivity].
      apply get_del_ne. congruence. }
    rewrite !Hframe. apply Hself.
Qed.

Lemma built_consistent self : built self -> consistent self.
Proof.
  induction 1 as [| self chunks _ IH | self d0 _ IH].
  - apply consistent_init.
  - apply consistent_add, IH.
  - apply consistent_remove, IH.
Qed.

Lemma chunks_by_id_fold k chunks acc :
  is_Some (PyDict.get k acc) \/ (exists c, c ∈ chunks /\ Retriever.chunk_id c = k) ->
  is_Some (PyDict.get k
             (fold_left (fun dd chunk => PyDict.set (Retriever.chunk_id chunk) chunk dd)
                chunks acc)).
Proof.
  revert acc. induction chunks as [| c cs IH]; intros acc Hk.
  - destruct Hk as [Hk | (c & Hc & _)]; [exact Hk | no_elem Hc].
  - cbn [fold_left]. apply IH.
    destruct (decide (Retriever.chunk_id c = k)) as [<- | Hne].
    + left. rewrite get_set_eq. eauto.
    + rewrite get_set_ne by exact Hne.
      destruct Hk as [Hk | (c' & Hc' & Hk')]; [left; exact Hk |].
      apply elem_of_cons in Hc' as [-> | Hc']; [contradiction |].
      right. exists c'. split; assumption.
Qed.

Lemma scan_vectors_skips_nothing query_embedding doc_id doc_chunks doc_vectors found :
  (forall cid emb, (cid, emb) ∈ doc_vectors -> is_Some (PyDict.get cid doc_chunks)) ->
  Retriever.scan_vectors query_embedding doc_id doc_chunks doc_vectors = Ok found ->
  map Retriever.result_chunk_id found = PyDict.keys doc_vectors.
Proof.
  revert found. induction doc_vectors as [| [cid emb] rest IH]; intros found Hall.
  - intros [= <-]. reflexivity.
  - cbn [Retriever.scan_vectors].
    destruct (Hall cid emb (list_elem_of_here _ _)) as [chunk ->].
    destruct (Retriever._cosine_similarity query_embedding emb) as [s | e];
      [| discriminate].
    destruct (Retriever.scan_vectors query_embedding doc_id doc_chunks rest)
      as [more | e] eqn:Hrest; [| discriminate].
    intros [= <-]. cbn [map PyDict.keys fst Retriever.result_chunk_id]. f_equal.
    apply IH; [| reflexivity].
    intros cid' emb' Hin. apply (Hall cid' emb'), list_elem_of_further, Hin.
Qed.

End ConsistencyFacts.

(** X16.  In every index built from the empty one by [add_documents] and
    [remove_document], each entry of the vector mapping has a chunk of the
    same id stored under the same document.  So the scan of [retrieve] over
    the vectors of a document never meets an entry without its chunk ([if not
    chunk: continue] is never taken): when the scan of a document succeeds it
    yields one candidate per stored vector, in the order of the vectors. *)
Theorem built_index_entries_have_chunks `{External}
    (self : Retriever.VectorRetriever) :
  built self ->
  (forall d k, is_Some (vector_entry self d k) ->
     exists c, c ∈ stored self d /\ Retriever.chunk_id c = k)
  /\ (forall query_embedding d found,
        Retriever.scan_vectors query_embedding d
          (Retriever.chunks_by_id (stored self d))
          (default [] (PyDict.get d (Retriever.vectors self))) = Ok found ->
        map Retriever.result_chunk_id found
        = PyDict.keys (default [] (PyDict.get d (Retriever.vectors self)))).
Proof.
  intros Hbuilt. pose proof (built_consistent self Hbuilt) as Hcons.
  split; [exact Hcons |].
  intros query_embedding d found. apply scan_vectors_skips_nothing.
  intros cid emb Hin. unfold Retriever.chunks_by_id. apply chunks_by_id_fold. right.
  apply Hcons. unfold vector_entry, lookup2.
  destruct (PyDict.get d (Retriever.vectors self)) as [doc_vectors |];
    [| no_elem Hin].
  apply (elem_get_is_Some _ emb), Hin.
Qed.

Lemma built_index_entries_have_chunks_witness :
  exists c, c ∈ stored Examples.reindexed "doc-1"
            /\ Retriever.chunk_id c = "chunk-1".
Proof.
  apply (built_index_entries_have_chunks (H := Examples.integer_numbers)
           Examples.reindexed).
  - apply built_add, built_add, built_init.
  - eexists. reflexivity.
Defined.

(** ** Retrieval: failures and edge cases *)

Section MismatchFacts.

Context `{External}.

Implicit Types (self : Retriever.VectorRetriever) (d : string).

Lemma cosine_similarity_raise vec1 vec2 e :
  Retriever._cosine_similarity vec1 vec2 = Raise e ->
  e = "ValueError: shapes not aligned".
Proof.
  unfold Retriever._cosine_similarity.
  destruct (bool_decide (length vec1 = length vec2)).
  - destruct (eqb (norm vec1) zero || eqb (norm vec2) zero); discriminate.
  - intros [= <-]. reflexivity.
Qed.

Lemma scan_vectors_raise query_embedding doc_id doc_chunks doc_vectors e :
  Retriever.scan_vectors query_embedding doc_id doc_chunks doc_vectors = Raise e ->
  e = "ValueError: shapes not aligned".
Proof.
  induction doc_vectors as [| [cid emb] rest IH]; cbn [Retriever.scan_vectors];
    [discriminate |].
  destruct (PyDict.get cid doc_chunks) as [chunk |]; [| exact IH].
  destruct (Retriever._cosine_similarity query_embedding emb) as [s | e'] eqn:Hcos.
  - destruct (Retriever.scan_vectors query_embedding doc_id doc_chunks rest)
      as [more | e'']; [discriminate |].
    intros [= <-]. apply IH. reflexivity.
  - intros [= <-]. apply (cosine_similarity_raise _ _ _ Hcos).
Qed.

Lemma scan_vectors_mismatch query_embedding doc_id doc_chunks doc_vectors cid emb :
  (cid, emb) ∈ doc_vectors ->
  is_Some (PyDict.get cid doc_chunks) ->
  length emb <> length query_embedding ->
  Retriever.scan_vectors query_embedding doc_id doc_chunks doc_vectors
  = Raise "ValueError: shapes not aligned".
Proof.
  intros Hin [chunk Hchunk] Hlen.
  induction doc_vectors as [| [cid0 emb0] rest IH]; [no_elem Hin |].
  cbn [Retriever.scan_vectors].
  apply elem_of_cons in Hin as [[= <- <-] | Hin].
  - rewrite Hchunk. unfold Retriever._cosine_similarity.
    rewrite bool_decide_eq_false_2 by congruence. reflexivity.
  - specialize (IH Hin). rewrite IH.
    destruct (PyDict.get cid0 doc_chunks) as [chunk0 |]; [| reflexivity].
    destruct (Retriever._cosine_similarity query_embedding emb0) as [s | e] eqn:Hcos;
      [reflexivity |].
    rewrite (cosine_similarity_raise _ _ _ Hcos). reflexivity.
Qed.

Lemma scan_documents_mismatch self query_embedding document_ids d :
  d ∈ document_ids ->
  Retriever.scan_vectors query_embedding d
    (Retriever.chunks_by_id (default [] (PyDict.get d (Retriever.documents self))))
    (default [] (PyDict.get d (Retriever.vectors self)))
  = Raise "ValueError: shapes not aligned" ->
  Retriever.scan_documents self query_embedding document_ids
  = Raise "ValueError: shapes not aligned".
Proof.
  intros Hin Hraise. induction document_ids as [| d0 rest IH]; [no_elem Hin |].
  cbn [Retriever.scan_documents].
  apply elem_of_cons in Hin as [<- | Hin].
  - rewrite Hraise. reflexivity.
  - rewrite (IH Hin).
    destruct (Retriever.scan_vectors query_embedding d0 _ _) as [found | e] eqn:Hscan;
      [reflexivity |].
    rewrite (scan_vectors_raise _ _ _ _ _ Hscan). reflexivity.
Qed.

End MismatchFacts.

(** X17.  One stored vector of another dimension than the query embedding
    makes [retrieve] fail for every query that searches its document: when the
    filter selects a document holding a vector entry, with its chunk stored,
    whose length differs from that of the embedding of the query, [retrieve]
    raises the shape error of [np.dot] whatever [k] and whatever else the
    index holds; no partial result is returned. *)
Theorem retrieve_fails_on_dimension_mismatch `{External}
    (self : Retriever.VectorRetriever) (query : string) (filters : option Dict)
    (k : Z) (document_ids : list string) (d cid : string) (emb : list Num)
    (c : Retriever.DocumentChunk) :
  Retriever._filter_document_ids self filters = Ok document_ids ->
  d ∈ document_ids ->
  (cid, emb) ∈ default [] (PyDict.get d (Retriever.vectors self)) ->
  c ∈ stored self d ->
  Retriever.chunk_id c = cid ->
  length emb <> length (generate_embedding query) ->
  Retriever.retrieve self query filters k = Raise "ValueError: shapes not aligned".
Proof.
  intros Hids Hd Hentry Hc Hcid Hlen.
  unfold Retriever.retrieve, Retriever.retrieve_from. rewrite Hids.
  assert (Retriever.scan_documents self (generate_embedding query) document_ids
          = Raise "ValueError: shapes not aligned") as ->.
  { apply (scan_documents_mismatch self _ _ d Hd).
    apply (scan_vectors_mismatch _ _ _ _ cid emb Hentry); [| exact Hlen].
    unfold Retriever.chunks_by_id. apply chunks_by_id_fold. right.
    exists c. split; assumption. }
  destruct document_ids; [no_elem Hd | reflexivity].
Qed.

Lemma retrieve_fails_on_dimension_mismatch_witness :
  Retriever.retrieve mixed_index "query" None 5
  = Raise "ValueError: shapes not aligned".
Proof.
  apply (retrieve_fails_on_dimension_mismatch (H := Examples.integer_numbers)
           mixed_index "query" None 5 ["doc-1"; "doc-3"] "doc-3" "chunk-d" [1; 2; 3]
           (Examples.chunk "chunk-d" "doc-3" "delta" (Some [1; 2; 3]) 0)).
  - reflexivity.
  - apply list_elem_of_further, list_elem_of_here.
  - apply list_elem_of_here.
  - apply list_elem_of_here.
  - reflexivity.
  - discriminate.
Defined.

Section SliceFacts.

Context `{External}.

Lemma retrieve_slice self query filters (top : Z) all_results :
  candidates self query filters = Ok all_results ->
  Retriever.retrieve self query filters top
  = Ok (Retriever.slice_to top (Retriever.sort_by_score all_results)).
Proof.
  unfold candidates, Retriever.retrieve, Retriever.retrieve_from.
  destruct (Retriever._filter_document_ids self filters) as [ids | e]; [| discriminate].
  destruct ids as [| doc_id rest].
  - intros [= <-]. unfold Retriever.slice_to. cbn [Retriever.sort_by_score foldr].
    rewrite !take_nil. destruct (0 <=? top); reflexivity.
  - intros ->. reflexivity.
Qed.

End SliceFacts.



(** ** The retrieval agent: commands it rejects *)

(** X19.  What [_handle_remove_document] does with a [document_id] that is
    not a non-empty string.  A missing or falsy one (absent, [None], the empty
    string, [0], an empty list) is answered with the ERROR "Missing document_id
    parameter" and nothing is touched.  A non-empty list or dictionary cannot be
    looked up: the [TypeError] is caught and answered with the ERROR "Error
    removing document: unhashable type: 'list'" (or ['dict']), and index and
    cache are kept.  Any other value (a
    number, [True]) names no document: the index is unchanged and 0 chunks are
    reported removed, yet the whole query cache is cleared. *)
Theorem remove_document_with_other_ids `{External}
    (agent_type : AgentType) (self : InformationRetrievalAgent.Agent) (m : Message) :
  let self' := snd (InformationRetrievalAgent._handle_remove_document agent_type m self) in
  let w := InformationRetrievalAgent.world self in
  let w' := InformationRetrievalAgent.world self' in
  let answer ty c :=
    Message_init (clock w (ticks w)) (clock w (S (ticks w))) agent_type (sender m)
      ty c (Some (id m)) MEDIUM in
  let document_id := PyDict.get "document_id" (content m) in
  (truthy_opt document_id = false ->
   published w' = published w
     ++ [answer ERROR [("error", VStr "Missing document_id parameter")]]
   /\ InformationRetrievalAgent.retriever self' = InformationRetrievalAgent.retriever self
   /\ InformationRetrievalAgent.query_cache self'
      = InformationRetrievalAgent.query_cache self)
  /\ (forall v, document_id = Some v -> truthy v = true -> hashable v = false ->
      published w' = published w
        ++ [answer ERROR
              [("error", VStr ("Error removing document: unhashable type: '"
                                 +:+ type_name v +:+ "'"))]]
      /\ InformationRetrievalAgent.retriever self'
         = InformationRetrievalAgent.retriever self
      /\ InformationRetrievalAgent.query_cache self'
         = InformationRetrievalAgent.query_cache self)
  /\ (forall v, document_id = Some v -> truthy v = true -> hashable v = true ->
      (forall d, v <> VStr d) ->
      (exists rest,
         published w' = published w
           ++ answer RESPONSE [("status", VStr "success"); ("document_id", v);
                               ("num_chunks_removed", VInt 0)] :: rest)
      /\ InformationRetrievalAgent.retriever self'
         = InformationRetrievalAgent.retriever self
      /\ InformationRetrievalAgent.query_cache self' = ∅).
Proof.
  cbv zeta. split; [| split].
  - intros Hfalsy.
    assert (InformationRetrievalAgent._handle_remove_document agent_type m self
            = (do_ InformationRetrievalAgent.lift
                     (BaseAgent.send_error agent_type (sender m)
                        "Missing document_id parameter" (Some (id m)));
               ret tt) self) as ->.
    { unfold InformationRetrievalAgent._handle_remove_document.
      destruct (PyDict.get "document_id" (Schema.content m)) as [v |]; [| reflexivity].
      cbn [truthy_opt] in Hfalsy. rewrite Hfalsy. reflexivity. }
    rewrite lift_then_ret_world, send_error_published.
    split; [reflexivity | apply lift_then_ret_rest].
  - intros v Hv Htruthy Hhash.
    assert (InformationRetrievalAgent._handle_remove_document agent_type m self
            = (do_ InformationRetrievalAgent.lift
                     (BaseAgent.send_error agent_type (sender m)
                        ("Error removing document: " +:+ unhashable v)
                        (Some (id m)));
               ret tt)
                {| InformationRetrievalAgent.world :=
                     add_log (LogError ("Error removing document: " +:+ unhashable v))
                       (InformationRetrievalAgent.world self);
                   InformationRetrievalAgent.retriever :=
                     InformationRetrievalAgent.retriever self;
                   InformationRetrievalAgent.query_cache :=
                     InformationRetrievalAgent.query_cache self |}) as ->.
    { unfold InformationRetrievalAgent._handle_remove_document.
      rewrite Hv, Htruthy.
      unfold try_except, bind, InformationRetrievalAgent.remove_from_retriever.
      rewrite Hhash. reflexivity. }
    match goal with
    | |- context [(do_ InformationRetrievalAgent.lift ?c; ret tt) ?s] =>
        pose proof (lift_then_ret_rest c s) as Hrest
    end.
    rewrite lift_then_ret_world, send_error_published.
    split; [reflexivity | exact Hrest].
  - intros v Hv Htruthy Hhash Hother.
    unfold InformationRetrievalAgent._handle_remove_document.
    rewrite Hv, Htruthy.
    unfold try_except, bind, InformationRetrievalAgent.remove_from_retriever,
      modify, ret.
    rewrite Hhash.
    assert (match v with
            | VStr d =>
                let '(n, r) :=
                  Retriever.remove_document (InformationRetrievalAgent.retriever self) d in
                (Ok n, {| InformationRetrievalAgent.world :=
                            InformationRetrievalAgent.world self;
                          InformationRetrievalAgent.retriever := r;
                          InformationRetrievalAgent.query_cache :=
                            InformationRetrievalAgent.query_cache self |})
            | _ => (Ok 0, self)
            end = (Ok 0, self)) as ->.
    { destruct v; try reflexivity. destruct (Hother s eq_refl). }
    rewrite !lift_run.
    cbn [fst snd InformationRetrievalAgent.world InformationRetrievalAgent.retriever
           InformationRetrievalAgent.query_cache].
    set (w := InformationRetrievalAgent.world self).
    set (resp_content := [("status", VStr "success"); ("document_id", v);
                          ("num_chunks_removed", VInt 0)]).
    pose proof (send_response_published agent_type m resp_content w) as Hp.
    destruct (BaseAgent.send_response agent_type m resp_content w)
      as [[x | [e | e]] w1]; cbn [fst snd] in *.
    + repeat split. exists []. exact Hp.
    + rewrite !lift_run.
      cbn [fst snd InformationRetrievalAgent.world InformationRetrievalAgent.retriever
             InformationRetrievalAgent.query_cache].
      set (w2 := add_log _ w1).
      pose proof (send_error_published agent_type (sender m)
                    ("Error removing document: " +:+ e) (Some (id m)) w2) as Hp2.
      assert (published w2 = published w1) as Hw2 by reflexivity.
      destruct (BaseAgent.send_error agent_type (sender m) _ _ w2) as [[x | e'] w3];
        cbn [fst snd InformationRetrievalAgent.world InformationRetrievalAgent.retriever
               InformationRetrievalAgent.query_cache] in *;
        (split; [eexists; rewrite Hp2, Hw2, Hp, <- app_assoc; reflexivity
                | split; reflexivity]).
    + repeat split. exists []. exact Hp.
Qed.

(** ** The retrieval agent: clearing the query cache *)

Section SubstringFacts.

Lemma prefix_spec p k : String.prefix p k = true <-> exists b, k = p +:+ b.
Proof.
  revert k. induction p as [| c p IH]; intros k.
  - split; [intros _; exists k; reflexivity | intros _; destruct k; reflexivity].
  - destruct k as [| c' k]; cbn [String.prefix].
    + split; [discriminate | intros [b Hb]; discriminate].
    + destruct (Ascii.ascii_dec c c') as [<- | Hne].
      * rewrite IH. split; intros [b Hb]; exists b.
        -- cbn. rewrite Hb. reflexivity.
        -- cbn in Hb. injection Hb as ->. reflexivity.
      * split; [discriminate | intros [b Hb]; simpl in Hb; injection Hb as Hc _; congruence].
Qed.

Lemma contains_unfold p k :
  QueryCache.contains p k =
  if String.prefix p k then true
  else match k with
       | EmptyString => false
       | String _ rest => QueryCache.contains p rest
       end.
Proof. destruct k; reflexivity. Qed.

(** [contains] is the substring test. *)
Lemma contains_spec p k :
  QueryCache.contains p k = true <-> exists a b, k = a +:+ p +:+ b.
Proof.
  split.
  - induction k as [| c k IH]; rewrite contains_unfold.
    + destruct (String.prefix p "") eqn:Hp; [| discriminate].
      intros _. apply prefix_spec in Hp as [b Hb]. exists "", b. exact Hb.
    + destruct (String.prefix p (String c k)) eqn:Hp.
      * intros _. apply prefix_spec in Hp as [b Hb]. exists "", b. exact Hb.
      * intros Hk. destruct (IH Hk) as (a & b & ->). exists (String c a), b. reflexivity.
  - intros (a & b & ->). induction a as [| c a IH]; rewrite contains_unfold.
    + change ("" +:+ p +:+ b) with (p +:+ b).
      rewrite (proj2 (prefix_spec p (p +:+ b))) by eauto. reflexivity.
    + destruct (String.prefix p _); [reflexivity | exact IH].
Qed.

End SubstringFacts.

Section CacheFacts.

Context `{External} {A : Type}.

Implicit Types (cache : gmap string A) (keys : list string).

Lemma size_foldr_delete cache keys :
  NoDup keys ->
  Forall (fun key => is_Some (cache !! key)) keys ->
  (size (foldr delete cache keys) + length keys)%nat = size cache.
Proof.
  induction keys as [| key keys IH]; intros Hnd Hall; cbn [foldr length].
  - lia.
  - apply NoDup_cons in Hnd as [Hfresh Hnd]. apply Forall_cons in Hall as [Hkey Hall].
    rewrite map_size_delete_Some
      by (rewrite lookup_foldr_delete_not_elem_of by exact Hfresh; exact Hkey).
    specialize (IH Hnd Hall).
    assert (size (foldr delete cache keys) <> 0%nat).
    { apply map_size_non_empty_iff. intros Hempty.
      rewrite <- (lookup_foldr_delete_not_elem_of cache keys key Hfresh), Hempty in Hkey.
      rewrite lookup_empty in Hkey. destruct Hkey; discriminate. }
    lia.
Qed.

Lemma key_of_cache cache key :
  key ∈ (map_to_list cache).*1 <-> is_Some (cache !! key).
Proof.
  rewrite list_elem_of_fmap. split.
  - intros ([k x] & -> & Hin). apply elem_of_map_to_list in Hin. eauto.
  - intros [x Hx]. exists (key, x). split; [reflexivity |].
    apply elem_of_map_to_list, Hx.
Qed.

End CacheFacts.

(** X20.  [clear_cache] with a pattern removes exactly the cached queries
    whose key contains the pattern as a substring and keeps every other entry;
    the index is not touched, and the answer reports the number of entries
    removed, the difference of the sizes of the cache before and after. *)
Theorem clear_cache_removes_matching_entries `{External}
    (agent_type : AgentType) (self : InformationRetrievalAgent.Agent) (m : Message)
    (pattern : string) :
  PyDict.get "query_pattern" (content m) = Some (VStr pattern) ->
  pattern <> "" ->
  let self' := snd (QueryCache._handle_clear_cache agent_type m self) in
  let cache := InformationRetrievalAgent.query_cache self in
  let cache' := InformationRetrievalAgent.query_cache self' in
  let w := InformationRetrievalAgent.world self in
  (forall key,
     cache' !! key = if QueryCache.contains pattern key then None else cache !! key)
  /\ (forall a b, cache' !! (a +:+ pattern +:+ b) = None)
  /\ InformationRetrievalAgent.retriever self' = InformationRetrievalAgent.retriever self
  /\ exists n : nat,
       (size cache' + n)%nat = size cache
       /\ published (InformationRetrievalAgent.world self')
          = published w ++
              [Message_init (clock w (ticks w)) (clock w (S (ticks w))) agent_type
                 (sender m) RESPONSE
                 [("status", VStr "success"); ("num_entries_cleared", VInt (Z.of_nat n))]
                 (Some (id m)) MEDIUM].
Proof.
  intros Hget Hne self' cache cache' w.
  set (keys := filter (fun key => QueryCache.contains pattern key = true)
                 (map_to_list cache).*1).
  assert (QueryCache._handle_clear_cache agent_type m self
          = QueryCache.cleared agent_type m (length keys)
              (QueryCache.set_query_cache (foldr delete cache keys) self)) as Hrun.
  { unfold QueryCache._handle_clear_cache. rewrite Hget. cbn [truthy].
    rewrite (bool_decide_eq_false_2 _ Hne). reflexivity. }
  subst self' cache'. rewrite Hrun. unfold QueryCache.cleared.
  match goal with
  | |- context [(do_ InformationRetrievalAgent.lift ?c; ret tt) ?s] =>
      destruct (lift_then_ret_rest c s) as [Hretr Hcache];
      pose proof (lift_then_ret_world c s) as Hworld
  end.
  rewrite Hretr, Hcache, Hworld.
  cbn [QueryCache.set_query_cache InformationRetrievalAgent.world
         InformationRetrievalAgent.retriever InformationRetrievalAgent.query_cache].
  assert (forall key,
            foldr delete cache keys !! key
            = if QueryCache.contains pattern key then None else cache !! key) as Hlookup.
  { intros key. destruct (QueryCache.contains pattern key) eqn:Hc.
    - destruct (cache !! key) as [x |] eqn:Hx.
      + apply lookup_foldr_delete. unfold keys. apply list_elem_of_filter.
        split; [exact Hc | apply key_of_cache; eauto].
      + rewrite lookup_foldr_delete_not_elem_of; [exact Hx |].
        unfold keys. rewrite list_elem_of_filter, key_of_cache, Hx.
        intros [_ [x Hx']]. discriminate.
    - apply lookup_foldr_delete_not_elem_of. unfold keys.
      rewrite list_elem_of_filter. intros [Hc' _]. congruence. }
  split; [exact Hlookup |].
  split.
  { intros a b. rewrite Hlookup.
    rewrite (proj2 (contains_spec pattern (a +:+ pattern +:+ b))) by eauto.
    reflexivity. }
  split; [reflexivity |].
  exists (length keys). split.
  - apply size_foldr_delete.
    + apply NoDup_filter, NoDup_fst_map_to_list.
    + apply Forall_forall. intros key Hkey. unfold keys in Hkey.
      apply list_elem_of_filter in Hkey as [_ Hkey]. apply key_of_cache, Hkey.
  - fold w. apply send_response_published.
Qed.

Lemma clear_cache_removes_matching_entries_witness :
  InformationRetrievalAgent.query_cache
    (snd (QueryCache._handle_clear_cache (H := Examples.integer_numbers)
            INFORMATION_RETRIEVAL clear_hello Examples.indexed_agent))
    !! "hello_{}_5" = None.
Proof.
  destruct (clear_cache_removes_matching_entries (H := Examples.integer_numbers)
              INFORMATION_RETRIEVAL Examples.indexed_agent clear_hello "hello"
              eq_refl ltac:(discriminate)) as (_ & Hgone & _).
  exact (Hgone "" "_{}_5").
Defined.

(** X21.  [clear_cache] without a usable pattern.  With no pattern, or a falsy
    one (the empty string included), the whole cache is emptied and its former
    size is reported.  A truthy pattern that is not a string makes the
    membership test raise on the first cached key: the handler raises a
    [TypeError] having changed and published nothing; only on an empty cache,
    where no key is tested, does it answer, with 0 entries cleared. *)
Theorem clear_cache_without_string_pattern `{External}
    (agent_type : AgentType) (self : InformationRetrievalAgent.Agent) (m : Message) :
  let run := QueryCache._handle_clear_cache agent_type m self in
  let cache := InformationRetrievalAgent.query_cache self in
  let w := InformationRetrievalAgent.world self in
  let answer (n : nat) :=
    Message_init (clock w (ticks w)) (clock w (S (ticks w))) agent_type (sender m)
      RESPONSE [("status", VStr "success"); ("num_entries_cleared", VInt (Z.of_nat n))]
      (Some (id m)) MEDIUM in
  let query_pattern := PyDict.get "query_pattern" (content m) in
  (truthy_opt query_pattern = false ->
   InformationRetrievalAgent.query_cache (snd run) = ∅
   /\ InformationRetrievalAgent.retriever (snd run)
      = InformationRetrievalAgent.retriever self
   /\ published (InformationRetrievalAgent.world (snd run))
      = published w ++ [answer (size cache)])
  /\ (forall v, query_pattern = Some v -> truthy v = true -> (forall s, v <> VStr s) ->
      (cache <> ∅ ->
       run = (Raise ("TypeError: 'in <string>' requires string as left operand, not "
                       +:+ QueryCache.type_name v), self))
      /\ (cache = ∅ ->
          InformationRetrievalAgent.query_cache (snd run) = ∅
          /\ published (InformationRetrievalAgent.world (snd run))
             = published w ++ [answer 0%nat])).
Proof.
  cbv zeta. split.
  - intros Hfalsy.
    assert (QueryCache._handle_clear_cache agent_type m self
            = QueryCache.cleared agent_type m
                (size (InformationRetrievalAgent.query_cache self))
                (QueryCache.set_query_cache ∅ self)) as ->.
    { unfold QueryCache._handle_clear_cache.
      destruct (PyDict.get "query_pattern" (Schema.content m)) as [v |]; [| reflexivity].
      cbn [truthy_opt] in Hfalsy. rewrite Hfalsy. reflexivity. }
    unfold QueryCache.cleared.
    match goal with
    | |- context [(do_ InformationRetrievalAgent.lift ?c; ret tt) ?s] =>
        destruct (lift_then_ret_rest c s) as [Hretr Hcache];
        pose proof (lift_then_ret_world c s) as Hworld
    end.
    rewrite Hretr, Hcache, Hworld. repeat split. apply send_response_published.
  - intros v Hv Htruthy Hother.
    assert (QueryCache._handle_clear_cache agent_type m self
            = match QueryCache.keys_to_remove v self with
              | Ok keys =>
                  QueryCache.cleared agent_type m (length keys)
                    (QueryCache.set_query_cache
                       (foldr delete (InformationRetrievalAgent.query_cache self) keys)
                       self)
              | Raise e => (Raise e, self)
              end) as ->.
    { unfold QueryCache._handle_clear_cache. rewrite Hv, Htruthy. unfold bind at 1.
      destruct (QueryCache.keys_to_remove v self); reflexivity. }
    unfold QueryCache.keys_to_remove. split.
    + intros Hne.
      destruct (map_to_list (InformationRetrievalAgent.query_cache self))
        as [| [key x] rest] eqn:Hlist.
      * apply map_to_list_empty_iff in Hlist. contradiction.
      * destruct v; try reflexivity. destruct (Hother s eq_refl).
    + intros ->. rewrite map_to_list_empty. cbn [fmap list_fmap].
      assert (match v with
              | VStr pattern =>
                  Ok (filter (fun key => QueryCache.contains pattern key = true) [])
              | _ => Ok []
              end = Ok (@nil string)) as -> by (destruct v; reflexivity).
      unfold QueryCache.cleared. cbn [foldr length].
      match goal with
      | |- context [(do_ InformationRetrievalAgent.lift ?c; ret tt) ?s] =>
          destruct (lift_then_ret_rest c s) as [Hretr Hcache];
          pose proof (lift_then_ret_world c s) as Hworld
      end.
      rewrite Hcache, Hworld. split; [reflexivity |]. apply send_response_published.
Qed.

(** ** The text splitter *)

Section MergeFacts.

Variables chunk_size chunk_overlap : Z.

Implicit Types (p : TextSplitter.Text) (g current done : list TextSplitter.Text).

#[local] Abbreviation step f :=
  (TextSplitter.merge_step chunk_size chunk_overlap f).

Lemma total_app g g' : total (g ++ g') = total g + total g'.
Proof. unfold total. induction g as [| p g IH]; simpl; [lia | rewrite IH; lia]. Qed.

Lemma total_cons p g : total (p :: g) = TextSplitter.len p + total g.
Proof. reflexivity. Qed.

Lemma total_nil : total [] = 0.
Proof. reflexivity. Qed.

Ltac total_simpl := rewrite ?total_app, ?total_cons, ?total_nil.

Lemma total_rev g : total (rev g) = total g.
Proof.
  induction g as [| p g IH]; [reflexivity |].
  cbn [rev]. total_simpl. rewrite IH. lia.
Qed.

Lemma total_nonneg g : 0 <= total g.
Proof.
  induction g as [| p g IH]; total_simpl; [lia |].
  unfold TextSplitter.len. lia.
Qed.

(** What the overlap loop keeps: the last [n] paragraphs of the chunk. *)
Lemma take_overlap_spec reversed acc size :
  exists n,
    TextSplitter.take_overlap chunk_overlap reversed acc size
    = (rev (take n reversed) ++ acc, size + total (take n reversed))
    /\ (n = 0%nat \/ size + total (take n reversed) <= chunk_overlap)
    /\ (reversed <> [] ->
        chunk_overlap < size + total (take 1 reversed) -> n = 0%nat).
Proof.
  revert acc size. induction reversed as [| p rest IH]; intros acc size.
  - exists 0%nat. cbn [take rev app]. total_simpl.
    split; [f_equal; lia |]. split; [left; reflexivity | reflexivity].
  - cbn [TextSplitter.take_overlap].
    destruct (size + TextSplitter.len p <=? chunk_overlap) eqn:Hfit.
    + apply Z.leb_le in Hfit.
      destruct (IH (p :: acc) (size + TextSplitter.len p)) as (n & -> & Hn & _).
      exists (S n). cbn [take rev]. total_simpl. split.
      * rewrite <- app_assoc. cbn [app]. f_equal. lia.
      * split.
        -- right. destruct Hn as [-> | Hn]; [rewrite take_0; total_simpl; lia | lia].
        -- intros _. rewrite take_0. total_simpl. lia.
    + apply Z.leb_gt in Hfit. exists 0%nat. rewrite take_0. cbn [rev app]. total_simpl.
      split; [f_equal; lia |]. split; [left; reflexivity | reflexivity].
Qed.

Lemma take_overlap_suffix current :
  exists front overlap,
    TextSplitter.take_overlap chunk_overlap (rev current) [] 0 = (overlap, total overlap)
    /\ current = front ++ overlap
    /\ total overlap <= Z.max 0 chunk_overlap.
Proof.
  destruct (take_overlap_spec (rev current) [] 0) as (n & Hrun & Hn & _).
  exists (rev (drop n (rev current))), (rev (take n (rev current))).
  rewrite Hrun, app_nil_r, total_rev. split; [f_equal; lia |]. split.
  - rewrite <- rev_app_distr, take_drop, rev_involutive. reflexivity.
  - destruct Hn as [-> | Hn]; [rewrite take_0; cbn [rev]; total_simpl; lia | lia].
Qed.

(** The chunks are made of the finished groups of paragraphs. *)
Lemma fold_merge_step_map {B} (finish : list TextSplitter.Text -> B) paragraphs
    groups current size :
  fold_left (step finish) paragraphs (map finish groups, current, size)
  = let '(groups', current', size') :=
      fold_left (step (fun g => g)) paragraphs (groups, current, size) in
    (map finish groups', current', size').
Proof.
  revert groups current size.
  induction paragraphs as [| p rest IH]; intros groups current size; [reflexivity |].
  cbn [fold_left]. unfold TextSplitter.merge_step at 2 4.
  destruct ((chunk_size <? size + TextSplitter.len p)
            && negb (bool_decide (current = []))).
  - destruct (TextSplitter.take_overlap chunk_overlap (rev current) [] 0)
      as [overlap overlap_size].
    rewrite <- (IH (groups ++ [current])). rewrite map_app. reflexivity.
  - apply IH.
Qed.

Lemma merge_with_map {B} (finish : list TextSplitter.Text -> B) paragraphs :
  TextSplitter.merge_with chunk_size chunk_overlap finish paragraphs
  = map finish (chunk_paragraphs chunk_size chunk_overlap paragraphs).
Proof.
  unfold chunk_paragraphs, TextSplitter.merge_with.
  pose proof (fold_merge_step_map finish paragraphs [] [] 0) as Hmap.
  cbn [map] in Hmap. rewrite Hmap. clear Hmap.
  destruct (fold_left (step (fun g => g)) paragraphs ([], [], 0))
    as [[groups current] size].
  destruct current; [reflexivity |]. rewrite map_app. reflexivity.
Qed.

Lemma merge_invariant_step done state p :
  merge_invariant chunk_size chunk_overlap done state ->
  merge_invariant chunk_size chunk_overlap (done ++ [p]) (step (fun g => g) state p).
Proof.
  destruct state as [[groups current] size].
  intros (Hsize & [before Hsuffix] & Hnonempty & Hbound & Hcover & Hgroups & Hcount).
  unfold TextSplitter.merge_step.
  destruct ((chunk_size <? size + TextSplitter.len p)
            && negb (bool_decide (current = []))) eqn:Hflush.
  - apply andb_true_iff in Hflush as [_ Hcur].
    apply negb_true_iff, bool_decide_eq_false in Hcur.
    destruct (take_overlap_suffix current) as (front & overlap & -> & Hcurrent & Hov).
    assert (done <> []) as Hdone
      by (intros ->; destruct before; [simpl in Hsuffix; congruence | discriminate]).
    repeat split.
    + total_simpl. lia.
    + exists (before ++ front). rewrite Hsuffix, Hcurrent, <- !app_assoc. reflexivity.
    + intros _ Hnil. apply app_eq_nil in Hnil as [_ Hnil]. discriminate.
    + right. right. exists overlap, p. split; [reflexivity | exact Hov].
    + intros q Hq. apply elem_of_app in Hq as [Hq | Hq].
      * right. destruct (Hcover q Hq) as [Hin | (g & Hg & Hin)].
        -- exists current. split; [apply elem_of_app; right; apply list_elem_of_here |].
           exact Hin.
        -- exists g. split; [apply elem_of_app; left; exact Hg | exact Hin].
      * left. apply elem_of_app. right. exact Hq.
    + apply elem_of_app in H as [Hg | Hg].
      * apply (Hgroups g Hg).
      * apply list_elem_of_singleton in Hg. subst g. exact Hcur.
    + apply elem_of_app in H as [Hg | Hg].
      * destruct (Hgroups g Hg) as (_ & (b & a & Hba) & _).
        exists b, (a ++ [p]). rewrite Hba, <- !app_assoc. reflexivity.
      * apply list_elem_of_singleton in Hg. subst g.
        exists before, [p]. rewrite Hsuffix, <- app_assoc. reflexivity.
    + apply elem_of_app in H as [Hg | Hg].
      * apply (Hgroups g Hg).
      * apply list_elem_of_singleton in Hg. subst g.
        destruct Hbound as [Hnil | Hb]; [contradiction | exact Hb].
    + left. rewrite !length_app. cbn [length].
      destruct Hcount as [Hlt | [Hnil _]]; [lia | contradiction].
  - repeat split.
    + total_simpl. lia.
    + exists before. rewrite Hsuffix, <- app_assoc. reflexivity.
    + intros _ Hnil. apply app_eq_nil in Hnil as [_ Hnil]. discriminate.
    + right. apply andb_false_iff in Hflush as [Hfit | Hcur].
      * left. apply Z.ltb_ge in Hfit. total_simpl. lia.
      * apply negb_false_iff, bool_decide_eq_true in Hcur. subst current.
        right. exists [], p. split; [reflexivity | total_simpl; lia].
    + intros q Hq. apply elem_of_app in Hq as [Hq | Hq].
      * destruct (Hcover q Hq) as [Hin | Hin]; [left | right; exact Hin].
        apply elem_of_app. left. exact Hin.
      * left. apply elem_of_app. right. exact Hq.
    + apply (Hgroups g H).
    + destruct (Hgroups g H) as (_ & (b & a & Hba) & _).
      exists b, (a ++ [p]). rewrite Hba, <- !app_assoc. reflexivity.
    + apply (Hgroups g H).
    + rewrite length_app. cbn [length].
      destruct Hcount as [Hlt | [_ ->]]; left; cbn [length]; lia.
Qed.

Lemma merge_invariant_fold paragraphs done state :
  merge_invariant chunk_size chunk_overlap done state ->
  merge_invariant chunk_size chunk_overlap (done ++ paragraphs)
    (fold_left (step (fun g => g)) paragraphs state).
Proof.
  revert done state. induction paragraphs as [| p rest IH]; intros done state Hinv.
  - rewrite app_nil_r. exact Hinv.
  - cbn [fold_left]. replace (done ++ p :: rest) with ((done ++ [p]) ++ rest)
      by (rewrite <- app_assoc; reflexivity).
    apply IH, merge_invariant_step, Hinv.
Qed.

Lemma merge_invariant_init : merge_invariant chunk_size chunk_overlap [] ([], [], 0).
Proof.
  repeat split; try (intros; congruence).
  - exists []. reflexivity.
  - left. reflexivity.
  - intros p Hp. no_elem Hp.
  - no_elem H.
  - no_elem H.
  - no_elem H.
  - right. split; reflexivity.
Qed.

End MergeFacts.

(** X22.  What [_merge_into_chunks] makes of a list of paragraphs, for any
    [chunk_size] and [chunk_overlap].  Each chunk is the join of a non-empty
    run of consecutive paragraphs; every paragraph is in at least one chunk;
    there are at most as many chunks as paragraphs, and at least one when
    there is a paragraph.  A chunk can exceed [chunk_size]: its paragraphs
    hold at most [chunk_size] characters, or else the chunk is the overlap
    carried over (at most [chunk_overlap] characters) followed by a single
    paragraph. *)
Theorem merge_into_chunks_groups (chunk_size chunk_overlap : Z)
    (paragraphs : list TextSplitter.Text) :
  let groups := chunk_paragraphs chunk_size chunk_overlap paragraphs in
  TextSplitter._merge_into_chunks chunk_size chunk_overlap paragraphs
  = map TextSplitter.join groups
  /\ (forall p, p ∈ paragraphs -> exists g, g ∈ groups /\ p ∈ g)
  /\ (forall g, g ∈ groups ->
        g <> []
        /\ (exists before after, paragraphs = before ++ g ++ after)
        /\ within_bounds chunk_size chunk_overlap g)
  /\ (length groups <= length paragraphs)%nat
  /\ (paragraphs <> [] -> groups <> []).
Proof.
  cbv zeta. split; [apply merge_with_map |].
  pose proof (merge_invariant_fold chunk_size chunk_overlap paragraphs [] _
                (merge_invariant_init chunk_size chunk_overlap)) as Hinv.
  cbn [app] in Hinv. unfold chunk_paragraphs, TextSplitter.merge_with.
  destruct (fold_left _ paragraphs ([], [], 0)) as [[groups current] size].
  destruct Hinv as (_ & [before Hsuffix] & Hnonempty & Hbound & Hcover & Hgroups & Hcount).
  destruct current as [| p0 current].
  - assert (paragraphs = []) as ->
      by (destruct paragraphs; [reflexivity | destruct Hnonempty; congruence]).
    destruct Hcount as [Hlt | [_ ->]]; [cbn in Hlt; lia |].
    repeat split; try (intros; exfalso; eapply not_elem_of_nil; eassumption).
    + reflexivity.
    + intros Hne. congruence.
  - set (last_group := p0 :: current) in *.
    split; [| split; [| split]].
    + intros p Hp. destruct (Hcover p Hp) as [Hin | (g & Hg & Hin)].
      * exists last_group. split; [apply elem_of_app; right; apply list_elem_of_here |].
        exact Hin.
      * exists g. split; [apply elem_of_app; left; exact Hg | exact Hin].
    + intros g Hg. apply elem_of_app in Hg as [Hg | Hg]; [apply (Hgroups g Hg) |].
      apply list_elem_of_singleton in Hg. subst g. split; [discriminate |]. split.
      * exists before, []. rewrite app_nil_r. exact Hsuffix.
      * destruct Hbound as [Hnil | Hb]; [discriminate | exact Hb].
    + rewrite length_app. cbn [length].
      destruct Hcount as [Hlt | [-> _]]; [lia |].
      destruct before; discriminate.
    + intros _ Hnil. apply app_eq_nil in Hnil as [_ Hnil]. discriminate.
Qed.

Section PartitionFacts.

Variables chunk_size chunk_overlap : Z.

Lemma no_overlap_kept current :
  current <> [] ->
  Forall (fun p => chunk_overlap < TextSplitter.len p) current ->
  TextSplitter.take_overlap chunk_overlap (rev current) [] 0 = ([], 0).
Proof.
  intros Hne Hall. destruct (rev current) as [| p rest] eqn:Hrev.
  - apply (f_equal (@rev _)) in Hrev. rewrite rev_involutive in Hrev. contradiction.
  - cbn [TextSplitter.take_overlap].
    assert (p ∈ current) as Hp
      by (apply list_elem_of_In, in_rev; rewrite Hrev; left; reflexivity).
    rewrite Forall_forall in Hall. specialize (Hall p Hp).
    rewrite (proj2 (Z.leb_gt _ _)) by lia. reflexivity.
Qed.

Lemma partition_fold paragraphs groups current size :
  Forall (fun p => chunk_overlap < TextSplitter.len p) (current ++ paragraphs) ->
  let '(groups', current', _) :=
    fold_left (TextSplitter.merge_step chunk_size chunk_overlap (fun g => g))
      paragraphs (groups, current, size) in
  concat groups' ++ current' = concat groups ++ current ++ paragraphs.
Proof.
  revert groups current size.
  induction paragraphs as [| p rest IH]; intros groups current size Hall.
  - cbn [fold_left]. rewrite app_nil_r. reflexivity.
  - cbn [fold_left]. unfold TextSplitter.merge_step at 2.
    destruct ((chunk_size <? size + TextSplitter.len p)
              && negb (bool_decide (current = []))) eqn:Hflush.
    + apply andb_true_iff in Hflush as [_ Hcur].
      apply negb_true_iff, bool_decide_eq_false in Hcur.
      rewrite no_overlap_kept
        by (try exact Hcur; apply Forall_app in Hall as [Hall _]; exact Hall).
      specialize (IH (groups ++ [current]) ([] ++ [p]) (0 + TextSplitter.len p)).
      destruct (fold_left _ rest _) as [[groups' current'] size'].
      rewrite IH.
      * rewrite concat_app. cbn [concat app]. rewrite app_nil_r, <- !app_assoc.
        reflexivity.
      * apply Forall_app in Hall as [_ Hall]. exact Hall.
    + specialize (IH groups (current ++ [p]) (size + TextSplitter.len p)).
      destruct (fold_left _ rest _) as [[groups' current'] size'].
      rewrite IH.
      * rewrite <- !app_assoc. reflexivity.
      * rewrite <- app_assoc. exact Hall.
Qed.

End PartitionFacts.

(** X23.  When every paragraph is longer than [chunk_overlap], no paragraph
    is carried over: the chunks partition the paragraphs, each paragraph
    being in exactly one chunk, in order. *)
Theorem merge_without_overlap_partitions (chunk_size chunk_overlap : Z)
    (paragraphs : list TextSplitter.Text) :
  Forall (fun p => chunk_overlap < TextSplitter.len p) paragraphs ->
  concat (chunk_paragraphs chunk_size chunk_overlap paragraphs) = paragraphs.
Proof.
  intros Hall.
  pose proof (partition_fold chunk_size chunk_overlap paragraphs [] [] 0 Hall) as Hfold.
  unfold chunk_paragraphs, TextSplitter.merge_with.
  destruct (fold_left _ paragraphs ([], [], 0)) as [[groups current] size].
  cbn [concat app] in Hfold. destruct current as [| p0 current].
  - rewrite app_nil_r in Hfold. exact Hfold.
  - rewrite concat_app. cbn [concat]. rewrite app_nil_r. exact Hfold.
Qed.

Lemma merge_without_overlap_partitions_witness :
  concat (chunk_paragraphs 7 0 (map text_of ["aaa"; "bbb"; "cc"; "dddddddddd"; "e"]))
  = map text_of ["aaa"; "bbb"; "cc"; "dddddddddd"; "e"].
Proof.
  apply (merge_without_overlap_partitions 7 0).
  repeat constructor.
Defined.

Section SplitTextFacts.

Implicit Types (t piece : TextSplitter.Text) (c : Ascii.ascii).

Lemma collapse_spaces_spaces in_run t c :
  c ∈ TextSplitter.collapse_spaces in_run t ->
  TextSplitter.is_space c = true -> c = TextSplitter.space.
Proof.
  revert in_run. induction t as [| c0 t IH]; intros in_run Hin Hc; [no_elem Hin |].
  cbn [TextSplitter.collapse_spaces] in Hin.
  destruct (TextSplitter.is_space c0) eqn:Hc0.
  - destruct in_run; [apply (IH true Hin Hc) |].
    apply elem_of_cons in Hin as [-> | Hin]; [reflexivity | apply (IH true Hin Hc)].
  - apply elem_of_cons in Hin as [-> | Hin]; [congruence | apply (IH false Hin Hc)].
Qed.

Lemma lstrip_suffix t : exists before, t = before ++ TextSplitter.lstrip t.
Proof.
  induction t as [| c t [before IH]]; [exists []; reflexivity |].
  cbn [TextSplitter.lstrip]. destruct (TextSplitter.is_space c).
  - exists (c :: before). cbn [app]. rewrite <- IH. reflexivity.
  - exists []. reflexivity.
Qed.

Lemma lstrip_head t c rest :
  TextSplitter.lstrip t = c :: rest -> TextSplitter.is_space c = false.
Proof.
  induction t as [| c0 t IH]; [discriminate |].
  cbn [TextSplitter.lstrip]. destruct (TextSplitter.is_space c0) eqn:Hc0; [exact IH |].
  intros [= <- _]. exact Hc0.
Qed.

Lemma lstrip_fixed t :
  (forall c rest, t = c :: rest -> TextSplitter.is_space c = false) ->
  TextSplitter.lstrip t = t.
Proof.
  destruct t as [| c rest]; [reflexivity |]. intros Hhead.
  cbn [TextSplitter.lstrip]. rewrite (Hhead c rest eq_refl). reflexivity.
Qed.

Lemma strip_elem t c : c ∈ TextSplitter.strip t -> c ∈ t.
Proof.
  unfold TextSplitter.strip. intros Hin.
  apply list_elem_of_In, in_rev, list_elem_of_In in Hin.
  destruct (lstrip_suffix (rev (TextSplitter.lstrip t))) as [b1 H1].
  assert (c ∈ rev (TextSplitter.lstrip t)) as Hin1
    by (rewrite H1; apply elem_of_app; right; exact Hin).
  apply list_elem_of_In, in_rev, list_elem_of_In in Hin1.
  destruct (lstrip_suffix t) as [b2 H2]. rewrite H2. apply elem_of_app. right. exact Hin1.
Qed.

Lemma strip_idempotent t : TextSplitter.strip (TextSplitter.strip t) = TextSplitter.strip t.
Proof.
  unfold TextSplitter.strip.
  set (y := TextSplitter.lstrip t).
  set (z := TextSplitter.lstrip (rev y)).
  destruct (lstrip_suffix (rev y)) as [before Hz]. fold z in Hz.
  assert (y = rev z ++ rev before) as Hy
    by (rewrite <- rev_app_distr, <- Hz, rev_involutive; reflexivity).
  rewrite (lstrip_fixed (rev z)).
  - rewrite rev_involutive, (lstrip_fixed z); [reflexivity |].
    intros c rest Hc. apply (lstrip_head (rev y) c rest). exact Hc.
  - intros c rest Hc. rewrite Hc in Hy. cbn [app] in Hy.
    apply (lstrip_head t c (rest ++ rev before)). exact Hy.
Qed.

Lemma separator_length_none t :
  TextSplitter.newline ∉ t -> TextSplitter.separator_length t = None.
Proof.
  intros Hnl. unfold TextSplitter.separator_length.
  destruct t as [| c rest]; [reflexivity |].
  apply not_elem_of_cons in Hnl as [Hc Hrest].
  rewrite bool_decide_eq_false_2 by congruence.
  destruct rest as [| c' rest']; [reflexivity |].
  apply not_elem_of_cons in Hrest as [Hc' _].
  rewrite (bool_decide_eq_false_2 (c' = TextSplitter.newline)) by congruence.
  rewrite andb_false_r. reflexivity.
Qed.

Lemma split_from_whole t piece :
  TextSplitter.newline ∉ t -> TextSplitter.split_from t 0 piece = [piece ++ t].
Proof.
  revert piece. induction t as [| c rest IH]; intros piece Hnl.
  - rewrite app_nil_r. reflexivity.
  - cbn [TextSplitter.split_from]. rewrite (separator_length_none _ Hnl).
    apply not_elem_of_cons in Hnl as [_ Hrest].
    rewrite (IH _ Hrest), <- app_assoc. reflexivity.
Qed.

Lemma merge_single chunk_size chunk_overlap t :
  TextSplitter._merge_into_chunks chunk_size chunk_overlap [t] = [t].
Proof.
  unfold TextSplitter._merge_into_chunks, TextSplitter.merge_with.
  cbn [fold_left]. unfold TextSplitter.merge_step.
  rewrite (bool_decide_eq_true_2 _ eq_refl), andb_false_r. reflexivity.
Qed.

End SplitTextFacts.

(** X24.  [split_text] never splits.  The text is first normalised, every run
    of white space, line breaks included, becoming one space; the paragraph
    pattern needs a line break and so finds no separator in the normalised
    text.  Whatever [chunk_size] and [chunk_overlap] are and however long the
    text is, the result is the normalised text as a single chunk, or no chunk
    when the text holds only white space. *)
Theorem split_text_returns_one_chunk (chunk_size chunk_overlap : Z)
    (text : TextSplitter.Text) :
  let normalised := TextSplitter.strip (TextSplitter.collapse_spaces false text) in
  (TextSplitter.newline ∉ normalised)
  /\ TextSplitter._split_into_paragraphs normalised
     = match normalised with [] => [] | _ => [normalised] end
  /\ TextSplitter.split_text chunk_size chunk_overlap text
     = match normalised with [] => [] | _ => [normalised] end.
Proof.
  intros normalised.
  assert (TextSplitter.newline ∉ normalised) as Hnl.
  { intros Hin. apply strip_elem in Hin.
    apply collapse_spaces_spaces in Hin; [discriminate | reflexivity]. }
  assert (TextSplitter._split_into_paragraphs normalised
          = match normalised with [] => [] | _ => [normalised] end) as Hparagraphs.
  { unfold TextSplitter._split_into_paragraphs.
    rewrite (split_from_whole _ [] Hnl). cbn [app omap list_omap].
    unfold normalised at 1. rewrite strip_idempotent. fold normalised.
    destruct normalised; reflexivity. }
  split; [exact Hnl |]. split; [exact Hparagraphs |].
  unfold TextSplitter.split_text. destruct text as [| c rest]; [reflexivity |].
  fold normalised. rewrite Hparagraphs.
  destruct normalised as [| c' rest']; [reflexivity | apply merge_single].
Qed.

(** ** The capability registry *)

Section CapabilityFacts.

Implicit Types (registry : AgentTypes.Registry) (a : string)
  (c : AgentTypes.AgentCapability).

Lemma provider_iff registry a c :
  NoDup (PyDict.keys registry) ->
  a ∈ AgentTypes.get_agent_for_capability registry c
  <-> c ∈ AgentTypes.get_capabilities registry a.
Proof.
  unfold AgentTypes.get_agent_for_capability, AgentTypes.get_capabilities, PyDict.keys.
  induction registry as [| [a0 caps] registry IH]; intros Hnd.
  - cbn. split; [intros Hin; no_elem Hin | intros Hin; set_solver].
  - cbn [map fst] in Hnd. apply NoDup_cons in Hnd as [Hfresh Hnd].
    cbn [PyDict.get filter list_filter snd].
    assert (a0 ∉ map fst (filter (fun item => c ∈ item.2) registry)) as Hnot.
    { intros Hin. apply Hfresh. apply list_elem_of_fmap in Hin as ([a' caps'] & -> & Hin).
      apply list_elem_of_filter in Hin as [_ Hin].
      apply list_elem_of_fmap. exists (a', caps'). split; [reflexivity | exact Hin]. }
    specialize (IH Hnd).
    destruct (decide (a0 = a)) as [-> | Hne]; destruct (decide (c ∈ caps)) as [Hc | Hc];
      cbn [map fst from_option id].
    + split; [intros _; exact Hc | intros _; apply list_elem_of_here].
    + split; [intros Hin; contradiction | intros Hin; contradiction].
    + rewrite elem_of_cons, IH. split; [intros [Heq | Hin] | intros Hin].
      * congruence.
      * exact Hin.
      * right. exact Hin.
    + exact IH.
Qed.

End CapabilityFacts.

(** X25.  The two views of the capability registry agree, and registration
    replaces.  In a registry with one entry per agent type (as the initial
    one is, and as [register_capabilities] keeps it), an agent type is listed
    by [get_agent_for_capability] for a capability exactly when
    [get_capabilities] of that agent type contains the capability.  After
    [register_capabilities] the agent type has exactly the capabilities given,
    those it had before being dropped, and the other agent types keep
    theirs. *)
Theorem capability_views_agree (registry : AgentTypes.Registry) (a : string)
    (capabilities : gset AgentTypes.AgentCapability) :
  NoDup (PyDict.keys registry) ->
  let registry' := AgentTypes.register_capabilities a capabilities registry in
  NoDup (PyDict.keys registry')
  /\ AgentTypes.get_capabilities registry' a = capabilities
  /\ (forall b, b <> a ->
        AgentTypes.get_capabilities registry' b = AgentTypes.get_capabilities registry b)
  /\ (forall b c,
        b ∈ AgentTypes.get_agent_for_capability registry' c
        <-> c ∈ AgentTypes.get_capabilities registry' b)
  /\ (forall c,
        a ∈ AgentTypes.get_agent_for_capability registry' c <-> c ∈ capabilities).
Proof.
  intros Hnd registry'.
  assert (NoDup (PyDict.keys registry')) as Hnd' by (apply keys_set_nodup, Hnd).
  assert (AgentTypes.get_capabilities registry' a = capabilities) as Hget.
  { unfold AgentTypes.get_capabilities, registry', AgentTypes.register_capabilities.
    rewrite get_set_eq. reflexivity. }
  split; [exact Hnd' |]. split; [exact Hget |]. split; [| split].
  - intros b Hb.
    unfold AgentTypes.get_capabilities, registry', AgentTypes.register_capabilities.
    rewrite get_set_ne by congruence. reflexivity.
  - intros b c. apply provider_iff, Hnd'.
  - intros c. rewrite (provider_iff _ _ _ Hnd'), Hget. reflexivity.
Qed.

Lemma capability_views_agree_witness :
  "llm" ∈ AgentTypes.get_agent_for_capability
            (AgentTypes.register_capabilities "llm" {[AgentTypes.MONITORING]}
               AgentTypes._registry)
            AgentTypes.MONITORING.
Proof.
  destruct (capability_views_agree AgentTypes._registry "llm" {[AgentTypes.MONITORING]})
    as (_ & _ & _ & _ & Hllm).
  - apply (bool_decide_unpack _). vm_compute. exact I.
  - apply Hllm, elem_of_singleton. reflexivity.
Defined.

(** ** The index: which embedding and which chunk an id stands for *)

Section LastWinsFacts.

Context `{External}.

Implicit Types (self : Retriever.VectorRetriever)
  (chunks lst : list Retriever.DocumentChunk) (d k : string).

Lemma fold_store_vector_last doc lst vs d k :
  lookup2 (fold_left (Retriever.store_vector doc) lst vs) d k =
  match last (List.filter
                (fun c => Retriever.has_embedding c && bool_decide (doc = d)
                          && bool_decide (Retriever.chunk_id c = k)) lst) with
  | Some c => Retriever.embedding c
  | None => lookup2 vs d k
  end.
Proof.
  revert vs. induction lst as [| c cs IH]; intros vs; [reflexivity |].
  cbn [fold_left]. rewrite IH, last_filter_cons, store_vector_lookup.
  destruct (last (List.filter _ cs)); [reflexivity |].
  destruct (Retriever.has_embedding c && bool_decide (doc = d)
            && bool_decide (Retriever.chunk_id c = k)); reflexivity.
Qed.

Lemma fold_store_vector_other doc lst vs d k :
  doc <> d ->
  lookup2 (fold_left (Retriever.store_vector doc) lst vs) d k = lookup2 vs d k.
Proof.
  intros Hne. rewrite fold_store_vector_last.
  replace (List.filter _ lst) with (@nil Retriever.DocumentChunk); [reflexivity |].
  symmetry. rewrite (bool_decide_eq_false_2 _ Hne).
  induction lst as [| c cs IH]; [reflexivity |].
  cbn [List.filter]. rewrite andb_false_r. exact IH.
Qed.

Lemma fold_add_group_vectors groups self d k :
  NoDup (PyDict.keys groups) ->
  vector_entry (fold_left Retriever.add_group groups self) d k =
  lookup2 (fold_left (Retriever.store_vector d) (default [] (PyDict.get d groups))
             (Retriever.vectors self)) d k.
Proof.
  revert self. induction groups as [| [d0 lst0] groups IH]; intros self Hnd;
    [reflexivity |].
  cbn [PyDict.keys map fst] in Hnd. apply NoDup_cons in Hnd as [Hfresh Hnd].
  cbn [fold_left]. rewrite (IH _ Hnd). cbn [PyDict.get Retriever.add_group
    Retriever.vectors].
  destruct (decide (d0 = d)) as [-> | Hne].
  - apply get_None_keys in Hfresh. rewrite Hfresh. reflexivity.
  - rewrite !(fold_store_vector_last d).
    match goal with |- context [last ?l] => destruct (last l) end; [reflexivity |].
    apply fold_store_vector_other, Hne.
Qed.

End LastWinsFacts.

(** X26.  The last write wins, separately for vectors and for chunks.  After
    [add_documents] the vector kept under a document and chunk id is the
    embedding of the last chunk of the batch with these ids that has an
    embedding, and the vector kept before when the batch has none.  The chunk
    [retrieve] reads content and metadata from is the last chunk stored under
    the document with that id, embedded or not: the two need not be the same
    chunk. *)
Theorem last_chunk_with_an_id_wins `{External}
    (self : Retriever.VectorRetriever) (chunks : list Retriever.DocumentChunk)
    (d k : string) :
  let self' := Retriever.add_documents self chunks in
  vector_entry self' d k =
    match last (embedded_as d k chunks) with
    | Some c => Retriever.embedding c
    | None => vector_entry self d k
    end
  /\ PyDict.get k (Retriever.chunks_by_id (stored self' d))
     = last (List.filter (fun c => bool_decide (Retriever.chunk_id c = k))
               (stored self d ++ chunks_of d chunks)).
Proof.
  cbv zeta. split.
  - unfold Retriever.add_documents, Retriever.group_by_document.
    rewrite fold_add_group_vectors by (apply group_keys_nodup, NoDup_nil_2).
    rewrite group_get. cbn [PyDict.get].
    assert (default [] match chunks_of d chunks with
                       | [] => None
                       | c :: batch => Some (default [] None ++ c :: batch)
                       end = chunks_of d chunks) as ->
      by (destruct (chunks_of d chunks); reflexivity).
    rewrite fold_store_vector_last. unfold embedded_as.
    rewrite (filter_ext _
               (fun c => Retriever.has_embedding c
                         && bool_decide (Retriever.chunk_id c = k))); [reflexivity |].
    intros c. rewrite (bool_decide_eq_true_2 _ eq_refl), andb_true_r. reflexivity.
  - unfold Retriever.chunks_by_id. rewrite chunks_by_id_last, stored_add_documents.
    destruct (last _); reflexivity.
Qed.

(** X27.  Of the filters only [document_id] filters.  A filter dictionary
    without the key [document_id] restricts nothing, whatever else it holds:
    [retrieve] answers as with no filter.  A [document_id] list of names is
    searched in the order given, the names that are not stored being dropped
    and a name given twice being searched twice; a single name is searched if
    it is stored. *)
Theorem only_document_id_filters `{External}
    (self : Retriever.VectorRetriever) (query : string) (filters : Dict) (k : Z) :
  (PyDict.get "document_id" filters = None ->
   Retriever.retrieve self query (Some filters) k = Retriever.retrieve self query None k)
  /\ (forall names,
        PyDict.get "document_id" filters = Some (VList (map VStr names)) ->
        Retriever._filter_document_ids self (Some filters)
        = Ok (List.filter (fun d => PyDict.mem d (Retriever.documents self)) names))
  /\ (forall d,
        PyDict.get "document_id" filters = Some (VStr d) ->
        Retriever._filter_document_ids self (Some filters)
        = Ok (if PyDict.mem d (Retriever.documents self) then [d] else [])).
Proof.
  split; [| split].
  - intros Hnone. unfold Retriever.retrieve, Retriever.retrieve_from, Retriever._filter_document_ids.
    destruct filters as [| item rest]; [reflexivity |]. rewrite Hnone. reflexivity.
  - intros names Hget. unfold Retriever._filter_document_ids.
    destruct filters as [| item rest]; [discriminate |]. rewrite Hget. clear Hget.
    induction names as [| d names IH]; [reflexivity |].
    cbn [map Retriever.existing_ids hashable List.filter]. rewrite IH.
    destruct (PyDict.mem d (Retriever.documents self)); reflexivity.
  - intros d Hget. unfold Retriever._filter_document_ids.
    destruct filters as [| item rest]; [discriminate |]. rewrite Hget.
    cbn [Retriever.existing_ids hashable].
    destruct (PyDict.mem d (Retriever.documents self)); reflexivity.
Qed.

(** ** The retrieval agent: indexing *)

(** X28.  [_handle_index_document], for any validation of the chunk data.
    Without a [document_id] or without chunks the command is rejected and
    nothing is indexed.  When the validation rejects the data, the ERROR
    "Error indexing document: ..." is sent and nothing is indexed, not even
    the items before the rejected one.  Otherwise the chunks are added to the
    index under their own [document_id]s (the [document_id] of the command
    is only echoed in the answer), the answer counts all the chunks, embedded
    or not, and the query cache is left as it is: cached results are not
    invalidated by indexing. *)
Theorem index_document_keeps_the_cache `{External}
    (agent_type : AgentType)
    (chunks_from : Value -> Res (list Retriever.DocumentChunk))
    (self : InformationRetrievalAgent.Agent) (m : Message) :
  let self' := snd (Indexing._handle_index_document agent_type chunks_from m self) in
  let w := InformationRetrievalAgent.world self in
  let w' := InformationRetrievalAgent.world self' in
  let answer ty c :=
    Message_init (clock w (ticks w)) (clock w (S (ticks w))) agent_type (sender m)
      ty c (Some (id m)) MEDIUM in
  let document_id := PyDict.get "document_id" (content m) in
  let chunks_data := default (VList []) (PyDict.get "chunks" (content m)) in
  InformationRetrievalAgent.query_cache self' = InformationRetrievalAgent.query_cache self
  /\ (truthy_opt document_id = false ->
      published w' = published w
        ++ [answer ERROR [("error", VStr "Missing document_id parameter")]]
      /\ InformationRetrievalAgent.retriever self'
         = InformationRetrievalAgent.retriever self)
  /\ (truthy_opt document_id = true -> truthy chunks_data = false ->
      published w' = published w
        ++ [answer ERROR [("error", VStr "Missing chunks parameter")]]
      /\ InformationRetrievalAgent.retriever self'
         = InformationRetrievalAgent.retriever self)
  /\ (forall e : string,
        truthy_opt document_id = true -> truthy chunks_data = true ->
        chunks_from chunks_data = Raise e ->
        published w' = published w
          ++ [answer ERROR [("error", VStr ("Error indexing document: " +:+ e))]]
        /\ InformationRetrievalAgent.retriever self'
           = InformationRetrievalAgent.retriever self)
  /\ (forall chunks,
        truthy_opt document_id = true -> truthy chunks_data = true ->
        chunks_from chunks_data = Ok chunks ->
        (exists rest,
           published w' = published w
             ++ answer RESPONSE
                  [("status", VStr "success");
                   ("document_id", default VNone document_id);
                   ("num_chunks_indexed", VInt (Z.of_nat (length chunks)))] :: rest)
        /\ InformationRetrievalAgent.retriever self'
           = Retriever.add_documents (InformationRetrievalAgent.retriever self) chunks).
Proof.
  cbv zeta.
  set (document_id := PyDict.get "document_id" (content m)).
  set (chunks_data := default (VList []) (PyDict.get "chunks" (content m))).
  assert (forall text,
            let self' := snd (Indexing.missing agent_type m text self) in
            InformationRetrievalAgent.query_cache self'
            = InformationRetrievalAgent.query_cache self
            /\ published (InformationRetrievalAgent.world self')
               = published (InformationRetrievalAgent.world self)
                 ++ [Message_init
                       (clock (InformationRetrievalAgent.world self)
                          (ticks (InformationRetrievalAgent.world self)))
                       (clock (InformationRetrievalAgent.world self)
                          (S (ticks (InformationRetrievalAgent.world self))))
                       agent_type (sender m) ERROR [("error", VStr text)]
                       (Some (id m)) MEDIUM]
            /\ InformationRetrievalAgent.retriever self'
               = InformationRetrievalAgent.retriever self) as Hmissing.
  { intros text. cbv zeta. unfold Indexing.missing.
    rewrite lift_then_ret_world, send_error_published.
    destruct (lift_then_ret_rest
                (BaseAgent.send_error agent_type (sender m) text (Some (id m))) self)
      as [Hr Hc].
    split; [exact Hc |]. split; [reflexivity | exact Hr]. }
  destruct (truthy_opt document_id) eqn:Hid.
  2:{ assert (Indexing._handle_index_document agent_type chunks_from m self
              = Indexing.missing agent_type m "Missing document_id parameter" self) as ->.
      { unfold Indexing._handle_index_document. fold document_id. rewrite Hid.
        reflexivity. }
      destruct (Hmissing "Missing document_id parameter") as (Hc & Hp & Hr).
      split; [exact Hc |]. split; [intros _; split; [exact Hp | exact Hr] |].
      repeat split; intros; discriminate. }
  destruct (truthy chunks_data) eqn:Hdata.
  2:{ assert (Indexing._handle_index_document agent_type chunks_from m self
              = Indexing.missing agent_type m "Missing chunks parameter" self) as ->.
      { unfold Indexing._handle_index_document. fold document_id chunks_data.
        rewrite Hid, Hdata. reflexivity. }
      destruct (Hmissing "Missing chunks parameter") as (Hc & Hp & Hr).
      split; [exact Hc |]. split; [intros; discriminate |].
      split; [intros _ _; split; [exact Hp | exact Hr] |].
      split; intros; discriminate. }
  destruct (chunks_from chunks_data) as [chunks | [e | e]] eqn:Hchunks.
  - set (self1 := Indexing.set_retriever
                    (Retriever.add_documents (InformationRetrievalAgent.retriever self)
                       chunks) self).
    set (resp_content := [("status", VStr "success");
                          ("document_id", default VNone document_id);
                          ("num_chunks_indexed", VInt (Z.of_nat (length chunks)))]).
    assert (Indexing._handle_index_document agent_type chunks_from m self
            = match InformationRetrievalAgent.lift
                      (BaseAgent.send_response agent_type m resp_content) self1 with
              | (Ok _, s) => (Ok tt, s)
              | (Raise (Exception e), s) =>
                  (do_ InformationRetrievalAgent.lift
                         (modify (add_log (LogError ("Error indexing document: " +:+ e))));
                   do_ InformationRetrievalAgent.lift
                         (BaseAgent.send_error agent_type (sender m)
                            ("Error indexing document: " +:+ e) (Some (id m)));
                   ret tt) s
              | (Raise e, s) => (Raise e, s)
              end) as ->.
    { unfold Indexing._handle_index_document. fold document_id chunks_data.
      rewrite Hid, Hdata. cbn [negb]. unfold try_except, bind at 1 2 3, modify at 1, ret at 1.
      rewrite Hchunks. fold self1 resp_content.
      destruct (InformationRetrievalAgent.lift _ self1) as [[x | [e | e]] s];
        reflexivity. }
    rewrite lift_run.
    pose proof (send_response_published agent_type m resp_content
                  (InformationRetrievalAgent.world self1)) as Hp.
    destruct (BaseAgent.send_response agent_type m resp_content
                (InformationRetrievalAgent.world self1)) as [[x | [e | e]] w1];
      cbn [fst snd] in *.
    + split; [reflexivity |]. split; [intros; discriminate |].
      split; [intros; discriminate |]. split; [intros; discriminate |].
      intros chunks' _ _ [= <-]. split; [exists []; exact Hp | reflexivity].
    + unfold bind, ret. rewrite !lift_run.
      cbn [fst snd InformationRetrievalAgent.world InformationRetrievalAgent.retriever
             InformationRetrievalAgent.query_cache].
      rewrite ?lift_run. unfold modify.
      cbn [fst snd InformationRetrievalAgent.world InformationRetrievalAgent.retriever
             InformationRetrievalAgent.query_cache].
      set (w2 := add_log (LogError ("Error indexing document: " +:+ e)) w1).
      pose proof (send_error_published agent_type (sender m)
                    ("Error indexing document: " +:+ e) (Some (id m)) w2) as Hp2.
      assert (published w2 = published w1) as Hw2 by reflexivity.
      destruct (BaseAgent.send_error agent_type (sender m) _ _ w2) as [[x | e'] w3];
        cbn [fst snd InformationRetrievalAgent.world InformationRetrievalAgent.retriever
               InformationRetrievalAgent.query_cache] in *;
        (split; [reflexivity |]; split; [intros; discriminate |];
         split; [intros; discriminate |]; split; [intros; discriminate |];
         intros chunks' _ _ [= <-];
         split; [eexists; rewrite Hp2, Hw2, Hp, <- app_assoc; reflexivity
                | reflexivity]).
    + split; [reflexivity |]. split; [intros; discriminate |].
      split; [intros; discriminate |]. split; [intros; discriminate |].
      intros chunks' _ _ [= <-]. split; [exists []; exact Hp | reflexivity].
  - assert (Indexing._handle_index_document agent_type chunks_from m self
            = (do_ InformationRetrievalAgent.lift
                     (BaseAgent.send_error agent_type (sender m)
                        ("Error indexing document: " +:+ e) (Some (id m)));
               ret tt)
                {| InformationRetrievalAgent.world :=
                     add_log (LogError ("Error indexing document: " +:+ e))
                       (InformationRetrievalAgent.world self);
                   InformationRetrievalAgent.retriever :=
                     InformationRetrievalAgent.retriever self;
                   InformationRetrievalAgent.query_cache :=
                     InformationRetrievalAgent.query_cache self |}) as ->.
    { unfold Indexing._handle_index_document. fold document_id chunks_data.
      rewrite Hid, Hdata. cbn [negb]. unfold try_except, bind at 1.
      rewrite Hchunks. reflexivity. }
    match goal with
    | |- context [(do_ InformationRetrievalAgent.lift ?c; ret tt) ?s] =>
        destruct (lift_then_ret_rest c s) as [Hr Hc];
        pose proof (lift_then_ret_world c s) as Hw
    end.
    rewrite Hr, Hc, Hw, send_error_published.
    split; [reflexivity |]. split; [intros; discriminate |].
    split; [intros; discriminate |].
    split; [intros e' _ _ [= <-]; split; reflexivity | intros; discriminate].
  - assert (Indexing._handle_index_document agent_type chunks_from m self
            = (Raise (BaseException e), self)) as ->.
    { unfold Indexing._handle_index_document. fold document_id chunks_data.
      rewrite Hid, Hdata. cbn [negb]. unfold try_except, bind at 1.
      rewrite Hchunks. reflexivity. }
    cbn [snd]. split; [reflexivity |]. split; [intros; discriminate |].
    split; [intros; discriminate |]. split; intros; discriminate.
Qed.

(** ** A call made directly to the retrieval agent *)

Section DirectCallFacts.

Context `{External}.

Implicit Types (w : World) (m : Message).

(** Sending the answer to a command whose caller waits: the handler of the
    caller takes it. *)
Lemma send_response_to_waiter a m c cell w :
  id m <> "" ->
  response_handlers (message_broker w) !! id m = Some (response_handler cell) ->
  let reply := Message_init (clock w (ticks w)) (clock w (S (ticks w))) a (sender m)
                 RESPONSE c (Some (id m)) MEDIUM in
  BaseAgent.send_response a m c w
  = (Ok (id reply),
     set_cells (<[cell := (Some reply, true)]> (cells w))
       (add_call (response_handler cell) reply
          (add_published reply (tick (tick w))))).
Proof.
  intros Hid Hhandler reply.
  unfold BaseAgent.send_response.
  rewrite (bind_ok _ _ _ _ _ (new_Message_run _ _ _ _ _ _ w)). fold reply.
  assert (Broker.publish reply (tick (tick w))
          = (Ok tt,
             set_cells (<[cell := (Some reply, true)]> (cells w))
               (add_call (response_handler cell) reply
                  (add_published reply (tick (tick w)))))) as Hpub.
  { rewrite publish_unfold.
    rewrite (routed_handler_correlated _ reply (id m)) by (auto || reflexivity).
    cbn [message_broker add_published tick]. rewrite Hhandler. reflexivity. }
  unfold BaseAgent.send_message. rewrite (bind_ok _ _ _ _ _ Hpub). reflexivity.
Qed.

Lemma remove_document_answers_waiter a m d cell self :
  id m <> "" ->
  PyDict.get "document_id" (content m) = Some (VStr d) ->
  d <> "" ->
  response_handlers (message_broker (InformationRetrievalAgent.world self)) !! id m
  = Some (response_handler cell) ->
  let w := InformationRetrievalAgent.world self in
  let reply :=
    Message_init (clock w (ticks w)) (clock w (S (ticks w))) a (sender m) RESPONSE
      [("status", VStr "success"); ("document_id", VStr d);
       ("num_chunks_removed",
        VInt (fst (Retriever.remove_document (InformationRetrievalAgent.retriever self) d)))]
      (Some (id m)) MEDIUM in
  InformationRetrievalAgent._handle_remove_document a m self
  = (Ok tt,
     {| InformationRetrievalAgent.world :=
          set_cells (<[cell := (Some reply, true)]> (cells w))
            (add_call (response_handler cell) reply
               (add_published reply (tick (tick w))));
        InformationRetrievalAgent.retriever :=
          snd (Retriever.remove_document (InformationRetrievalAgent.retriever self) d);
        InformationRetrievalAgent.query_cache := ∅ |}).
Proof.
  intros Hid Hdoc Hd Hhandler w reply.
  unfold InformationRetrievalAgent._handle_remove_document.
  rewrite Hdoc. cbn [truthy]. rewrite (bool_decide_eq_false_2 _ Hd). cbn [negb].
  unfold try_except, bind, InformationRetrievalAgent.remove_from_retriever, modify, ret.
  cbn [hashable].
  destruct (Retriever.remove_document (InformationRetrievalAgent.retriever self) d)
    as [n r] eqn:Hrm.
  rewrite lift_run.
  cbn [fst snd InformationRetrievalAgent.world InformationRetrievalAgent.retriever
         InformationRetrievalAgent.query_cache].
  fold w. rewrite (send_response_to_waiter a m _ cell w Hid Hhandler).
  subst reply. reflexivity.
Qed.

Lemma handle_message_remove a hr hi hc m self :
  message_type m = COMMAND ->
  PyDict.get "action" (content m) = Some (VStr "remove_document") ->
  InformationRetrievalAgent.handle_message a hr hi hc m self
  = InformationRetrievalAgent._handle_remove_document a m self.
Proof.
  intros Hcmd Haction.
  unfold InformationRetrievalAgent.handle_message,
    InformationRetrievalAgent._handle_command.
  rewrite (bool_decide_eq_true_2 _ Hcmd), Haction. reflexivity.
Qed.

End DirectCallFacts.

(** X29.  A command sent directly to the retrieval agent is answered.  When
    a caller sends a [remove_document] command with [send_message_and_wait]
    to an idle, started retrieval agent and the agent takes one turn of its
    loop before the timeout, the caller receives the agent's RESPONSE, which
    carries the number of chunks the document had; the answer is correlated
    to the id of the command itself, the id under which the caller waits. *)
Theorem direct_removal_is_answered `{External}
    (retriever : Retriever.VectorRetriever)
    (query_cache : gmap string InformationRetrievalAgent.CacheEntry)
    (_handle_retrieve _handle_index_document _handle_clear_cache :
       Message -> St InformationRetrievalAgent.Agent unit)
    (m : Message) (d : string) (w : World) :
  message_type m = COMMAND ->
  receiver m = INFORMATION_RETRIEVAL ->
  id m <> "" ->
  PyDict.get "action" (content m) = Some (VStr "remove_document") ->
  PyDict.get "document_id" (content m) = Some (VStr d) ->
  d <> "" ->
  subscribers (message_broker w) !! INFORMATION_RETRIEVAL
  = Some [receive_message INFORMATION_RETRIEVAL] ->
  default [] (inbox w !! INFORMATION_RETRIEVAL) = [] ->
  exists reply,
    fst (BaseAgent.send_message_and_wait m
           [retrieval_agent_turn retriever query_cache _handle_retrieve
              _handle_index_document _handle_clear_cache] w)
    = Ok (Some reply)
    /\ message_type reply = RESPONSE
    /\ sender reply = INFORMATION_RETRIEVAL
    /\ receiver reply = sender m
    /\ correlation_id reply = Some (id m)
    /\ content reply
       = [("status", VStr "success"); ("document_id", VStr d);
          ("num_chunks_removed", VInt (fst (Retriever.remove_document retriever d)))].
Proof.
  intros Hcmd Hrecv Hid Haction Hdoc Hd Hsubs Hidle.
  rewrite send_message_and_wait_unfold.
  destruct (request_registered_fields m w)
    as (Hcells1 & Hsubs1 & Hh1 & _ & _ & _ & _ & Hinbox1).
  set (cell := fresh (dom (cells w))) in *.
  set (w1 := request_registered m w) in *.
  set (agent := INFORMATION_RETRIEVAL) in *.
  assert (subscribers (message_broker w1) !! agent = Some [receive_message agent])
    as Hsubs1' by (rewrite Hsubs1; exact Hsubs).
  destruct (publish_to_inbox agent m w1 Hsubs1' Hrecv (routed_handler_command _ m Hcmd))
    as (w2 & Hpub & Hb2 & Hinbox2).
  assert (cells w2 = cells w1) as Hcells2.
  { pose proof (publish_unfold m w1) as Hu.
    rewrite (routed_handler_command _ m Hcmd), Hrecv, Hsubs1', Hpub in Hu.
    injection Hu as ->. reflexivity. }
  assert (BaseAgent.send_message m w1 = (Ok (id m), w2)) as Hsend
    by (unfold BaseAgent.send_message; rewrite (bind_ok _ _ _ _ _ Hpub); reflexivity).
  assert (BaseAgent.event_is_set cell w2 = false) as Hunset.
  { unfold BaseAgent.event_is_set. rewrite Hcells2, Hcells1, lookup_insert_eq.
    reflexivity. }
  assert (inbox w2 !! agent = Some [m]) as Hqueue
    by (rewrite Hinbox2, lookup_insert_eq, Hinbox1, Hidle; reflexivity).
  (* the turn of the agent *)
  set (w2a := add_log (LogDebug ("Processing message: " +:+ id m +:+ " from "
                                   +:+ format_AgentType (sender m)))
                (set_inbox (<[agent := []]> (inbox w2)) w2)).
  set (self := {| InformationRetrievalAgent.world := w2a;
                  InformationRetrievalAgent.retriever := retriever;
                  InformationRetrievalAgent.query_cache := query_cache |}).
  assert (response_handlers (message_broker (InformationRetrievalAgent.world self))
            !! id m = Some (response_handler cell)) as Hhandler.
  { cbn [InformationRetrievalAgent.world self]. subst w2a.
    cbn [message_broker add_log set_inbox]. rewrite Hb2, Hh1. apply lookup_insert_eq. }
  pose proof (remove_document_answers_waiter agent m d cell self Hid Hdoc Hd Hhandler)
    as Hrun.
  cbv zeta in Hrun. cbn [InformationRetrievalAgent.world
    InformationRetrievalAgent.retriever self] in Hrun.
  set (reply := Message_init (clock w2a (ticks w2a)) (clock w2a (S (ticks w2a))) agent
                  (sender m) RESPONSE
                  [("status", VStr "success"); ("document_id", VStr d);
                   ("num_chunks_removed",
                    VInt (fst (Retriever.remove_document retriever d)))]
                  (Some (id m)) MEDIUM) in *.
  set (w3 := set_cells (<[cell := (Some reply, true)]> (cells w2a))
               (add_call (response_handler cell) reply
                  (add_published reply (tick (tick w2a))))) in *.
  assert (retrieval_agent_turn retriever query_cache _handle_retrieve
            _handle_index_document _handle_clear_cache w2 = (Ok tt, w3)) as Hturn.
  { unfold retrieval_agent_turn, BaseAgent.process_one, BaseAgent.inbox_get.
    unfold bind at 1. fold agent. rewrite Hqueue.
    unfold BaseAgent.process_message, try_except, bind, modify, ret. cbv beta.
    fold w2a. fold self.
    rewrite (handle_message_remove agent _ _ _ m self Hcmd Haction), Hrun.
    reflexivity. }
  assert (BaseAgent.wait cell
            [retrieval_agent_turn retriever query_cache _handle_retrieve
               _handle_index_document _handle_clear_cache] w2 = (Ok true, w3)) as Hwait.
  { rewrite (wait_unset _ _ _ _ Hunset), Hturn. apply wait_set.
    unfold BaseAgent.event_is_set. subst w3. cbn [cells set_cells].
    rewrite lookup_insert_eq. reflexivity. }
  exists reply. unfold try_finally.
  rewrite (bind_ok _ _ _ _ _ Hsend), (bind_ok _ _ _ _ _ Hwait).
  unfold gets, Broker.unregister_response_handler, modify. cbn [fst snd].
  split; [| repeat split].
  unfold BaseAgent.container_response. subst w3. cbn [cells set_cells].
  rewrite lookup_insert_eq. reflexivity.
Qed.

Lemma direct_removal_is_answered_witness :
  exists reply,
    fst (BaseAgent.send_message_and_wait Examples.remove_command
           [retrieval_agent_turn (H := Examples.integer_numbers) Examples.indexed ∅
              (fun _ => ret tt) (fun _ => ret tt) (fun _ => ret tt)]
           Examples.system_started)
    = Ok (Some reply)
    /\ content reply
       = [("status", VStr "success"); ("document_id", VStr "doc-1");
          ("num_chunks_removed", VInt 3)].
Proof.
  destruct (direct_removal_is_answered (H := Examples.integer_numbers)
              Examples.indexed ∅ (fun _ => ret tt) (fun _ => ret tt) (fun _ => ret tt)
              Examples.remove_command "doc-1" Examples.system_started
              eq_refl eq_refl ltac:(discriminate) eq_refl eq_refl ltac:(discriminate)
              eq_refl eq_refl)
    as (reply & Hrun & _ & _ & _ & _ & Hcontent).
  exists reply. split; [exact Hrun | exact Hcontent].
Defined.
